(** * EduAnalytics: the statistical analysis engine, embedded and verified

    The development follows the TypeScript sources:
    - [services/analysisUtils.ts]: statistics primitives, the classifier and
      [performFullAnalysis];
    - [App.tsx]: [getSmartValue] and the row normalizer of
      [onMappingConfirmed];
    - [services/geminiService.ts]: the text of the narrative request;
    - [components/SheetSelector.tsx], [components/DataMapper.tsx],
      [components/ChartsPanel.tsx] and [components/StudentTable.tsx]: the
      selection of sheets, the detection of columns, and the figures the
      dashboard and the student list derive from an analysis.

    JavaScript numbers are IEEE 754 binary64 values.  They are modelled by
    the executable specification [spec_float] of the standard library,
    instantiated at precision 53 and maximal exponent 1024, so that every
    rounding, infinity and NaN of the program is the one the model computes. *)

From Stdlib Require Import ZArith String Ascii Bool Lia List.
From Stdlib Require Import Floats.SpecFloat.
From Stdlib Require Import DecimalString.
From Stdlib Require DecimalPos DecimalN.
From Stdlib Require Import Sorting.Sorted Sorting.Permutation.
Import ListNotations.

Local Open Scope Z_scope.

(** ** JavaScript numbers *)

Module Number.

Definition prec : Z := 53.
Definition emax : Z := 1024.

Definition t : Type := spec_float.

Definition NaN : t := S754_nan.
Definition Infinity : t := S754_infinity false.
Definition zero : t := S754_zero false.

Definition add : t -> t -> t := SFadd prec emax.
Definition sub : t -> t -> t := SFsub prec emax.
Definition mul : t -> t -> t := SFmul prec emax.
Definition div : t -> t -> t := SFdiv prec emax.
Definition sqrt : t -> t := SFsqrt prec emax.

(** An integer as a number: the nearest binary64 value (exact below 2^53). *)
Definition of_Z (z : Z) : t := binary_normalize prec emax z 0 false.
Definition of_nat (n : nat) : t := of_Z (Z.of_nat n).

(** The relational operators [<], [>], [<=] and [>=]; every comparison
    with NaN is false. *)
Definition lt (a b : t) : bool := SFltb a b.
Definition gt (a b : t) : bool := SFltb b a.
Definition le (a b : t) : bool := SFleb a b.
Definition ge (a b : t) : bool := SFleb b a.
(** [a === b] on numbers: [+0 === -0] holds and [NaN === NaN] does not. *)
Definition strict_eq (a b : t) : bool := SFeqb a b.

Definition isNaN (a : t) : bool :=
  match a with S754_nan => true | _ => false end.

Definition is_zero (a : t) : bool :=
  match a with S754_zero _ => true | _ => false end.

(** ToBoolean on a number: [0], [-0] and [NaN] are falsy. *)
Definition truthy (a : t) : bool := negb (is_zero a || isNaN a).

(** [Math.pow(v, 2)].  The language leaves the last bit of [Math.pow] and
    [Math.sqrt] to the implementation; the model takes the correctly
    rounded square and square root. *)
Definition pow2 (v : t) : t := mul v v.

(** Well-formed binary64 values: canonical mantissa and bounded exponent. *)
Definition valid (a : t) : bool := valid_binary prec emax a.

End Number.

Abbreviation num := Number.t.

(** ** JavaScript strings

    A string is a sequence of code units; the model keeps the code units
    below 256, on which [toLowerCase], [trim] and the numeric conversions
    are exactly the ones below. *)

Module JsString.

Definition code (c : ascii) : Z := Z.of_nat (nat_of_ascii c).

(** White space and line terminators (TAB, LF, VT, FF, CR, SP, NBSP). *)
Definition is_white_space (c : ascii) : bool :=
  let n := code c in
  ((9 <=? n) && (n <=? 13)) || (n =? 32) || (n =? 160).

Definition lower_char (c : ascii) : ascii :=
  let n := code c in
  if ((65 <=? n) && (n <=? 90))
     || ((192 <=? n) && (n <=? 222) && negb (n =? 215))
  then ascii_of_nat (Z.to_nat (n + 32)) else c.

Fixpoint toLowerCase (s : string) : string :=
  match s with
  | EmptyString => EmptyString
  | String c r => String (lower_char c) (toLowerCase r)
  end.

Fixpoint trimStart (s : string) : string :=
  match s with
  | EmptyString => EmptyString
  | String c r => if is_white_space c then trimStart r else s
  end.

Fixpoint trimEnd (s : string) : string :=
  match s with
  | EmptyString => EmptyString
  | String c r =>
      match trimEnd r with
      | EmptyString => if is_white_space c then EmptyString else String c EmptyString
      | r' => String c r'
      end
  end.

Definition trim (s : string) : string := trimEnd (trimStart s).

(** ToBoolean on a string: only the empty string is falsy. *)
Definition truthy (s : string) : bool :=
  match s with EmptyString => false | _ => true end.

(** The double quote, kept out of the literals below. *)
Definition dquote : string := String (ascii_of_nat 34) EmptyString.
Definition newline : string := String (ascii_of_nat 10) EmptyString.

Fixpoint repeat_char (c : ascii) (n : nat) : string :=
  match n with O => EmptyString | S k => String c (repeat_char c k) end.

Fixpoint join (sep : string) (l : list string) : string :=
  match l with
  | [] => EmptyString
  | [s] => s
  | s :: r => (s ++ sep ++ join sep r)%string
  end.

(** *** Decimal digits of integers *)

Definition of_N (n : N) : string := NilZero.string_of_uint (N.to_uint n).
Definition of_Z_abs (z : Z) : string := of_N (Z.abs_N z).
(** An array index or length in a template literal. *)
Definition of_nat (n : nat) : string := of_N (N.of_nat n).

(** *** [parseFloat] *)

Definition digit_of (c : ascii) : option Z :=
  let n := code c in
  if (48 <=? n) && (n <=? 57) then Some (n - 48) else None.

(** Reads the longest run of decimal digits: its value, its length and
    the rest of the string. *)
Fixpoint read_digits (s : string) (acc : Z) (count : Z) : Z * Z * string :=
  match s with
  | EmptyString => (acc, count, s)
  | String c r =>
      match digit_of c with
      | Some d => read_digits r (10 * acc + d) (count + 1)
      | None => (acc, count, s)
      end
  end.

(** The binary64 value nearest to [m * 10^e] (ties to even), signed. *)
Definition of_decimal (sign : bool) (m : Z) (e : Z) : num :=
  match m with
  | Zpos p =>
      if 0 <=? e then
        binary_round Number.prec Number.emax sign (p * Z.to_pos (10 ^ e)) 0
      else
        let '(q, e', l) :=
          SFdiv_core_binary Number.prec Number.emax (Zpos p) 0 (10 ^ (- e)) 0 in
        binary_round_aux Number.prec Number.emax sign q e' l
  | _ => S754_zero sign
  end.

(** ExponentPart: [e] or [E], an optional sign and at least one digit;
    when it is not complete the literal ends before it. *)
Definition read_exponent (s : string) : Z :=
  match s with
  | String c r =>
      if (code c =? 101) || (code c =? 69) then
        match r with
        | String c1 r1 =>
            let '(neg, body) :=
              if code c1 =? 45 then (true, r1)
              else if code c1 =? 43 then (false, r1)
              else (false, r) in
            let '(v, n, _) := read_digits body 0 0 in
            if n =? 0 then 0 else if neg then - v else v
        | EmptyString => 0
        end
      else 0
  | EmptyString => 0
  end.

(** StrUnsignedDecimalLiteral, longest prefix. *)
Definition read_unsigned (sign : bool) (s : string) : num :=
  if prefix "Infinity"%string s then S754_infinity sign
  else
    let '(iv, ni, r) := read_digits s 0 0 in
    match r with
    | String c r1 =>
        if code c =? 46 then
          let '(v, nf, r2) := read_digits r1 iv 0 in
          if (ni =? 0) && (nf =? 0) then Number.NaN
          else of_decimal sign v (read_exponent r2 - nf)
        else if ni =? 0 then Number.NaN
        else of_decimal sign iv (read_exponent r)
    | EmptyString =>
        if ni =? 0 then Number.NaN else of_decimal sign iv 0
    end.

Definition parseFloat (s : string) : num :=
  match trimStart s with
  | String c r =>
      if code c =? 45 then read_unsigned true r
      else if code c =? 43 then read_unsigned false r
      else read_unsigned false (String c r)
  | EmptyString => Number.NaN
  end.

(** *** Number to string *)

(** The exact value of a positive finite number as a fraction. *)
Definition fraction_of (m : positive) (e : Z) : Z * Z :=
  if 0 <=? e then (Zpos m * 2 ^ e, 1) else (Zpos m, 2 ^ (- e)).

(** [x * 10^j] as a fraction, and its integer part. *)
Definition scale10 (x : Z * Z) (j : Z) : Z * Z :=
  let '(n, d) := x in
  if 0 <=? j then (n * 10 ^ j, d) else (n, d * 10 ^ (- j)).

Definition floor_frac (x : Z * Z) : Z := fst x / snd x.

Fixpoint count_digits (fuel : nat) (z : Z) : Z :=
  match fuel with
  | O => 1
  | S f => if z <? 10 then 1 else 1 + count_digits f (z / 10)
  end.

(** Number of decimal digits of a positive integer. *)
Definition decimal_length (z : Z) : Z :=
  count_digits (S (Z.to_nat (Z.log2 z))) z.

(** For [x < 1]: the least [j >= 1] with [x * 10^j >= 1]. *)
Fixpoint first_digit_position (fuel : nat) (x : Z * Z) (j : Z) : Z :=
  match fuel with
  | O => j
  | S f =>
      if 1 <=? floor_frac (scale10 x j) then j
      else first_digit_position f x (j + 1)
  end.

(** The [n] with [10^(n-1) <= x < 10^n]. *)
Definition decimal_exponent (x : Z * Z) : Z :=
  let i := floor_frac x in
  if 1 <=? i then decimal_length i
  else 1 - first_digit_position 400 x 1.

Definition same_number (a b : num) : bool :=
  match a, b with
  | S754_zero s1, S754_zero s2 => Bool.eqb s1 s2
  | S754_infinity s1, S754_infinity s2 => Bool.eqb s1 s2
  | S754_nan, S754_nan => true
  | S754_finite s1 m1 e1, S754_finite s2 m2 e2 =>
      Bool.eqb s1 s2 && Pos.eqb m1 m2 && Z.eqb e1 e2
  | _, _ => false
  end.

(** The decimals with [k] significant digits next to [x] that read back
    as [x], nearest first; the search stops at the least such [k]. *)
Fixpoint shortest_digits (fuel : nat) (x : num) (xf : Z * Z) (n k : Z)
  : Z * Z :=
  let q := n - k in
  let scaled := scale10 xf (- q) in
  let lo := floor_frac scaled in
  let hi := lo + 1 in
  let ok_lo := same_number (of_decimal false lo q) x in
  let ok_hi := same_number (of_decimal false hi q) x in
  let pick_lo :=
    match Z.compare (2 * fst scaled) ((2 * lo + 1) * snd scaled) with
    | Lt => true
    | Gt => false
    | Eq => Z.even lo
    end in
  match fuel with
  | O => (lo, q)
  | S f =>
      if ok_lo && ok_hi then (if pick_lo then (lo, q) else (hi, q))
      else if ok_lo then (lo, q)
      else if ok_hi then (hi, q)
      else shortest_digits f x xf n (k + 1)
  end.

Fixpoint strip_zeros (fuel : nat) (s q : Z) : Z * Z :=
  match fuel with
  | O => (s, q)
  | S f => if (s mod 10 =? 0) && (0 <? s) then strip_zeros f (s / 10) (q + 1)
           else (s, q)
  end.

Definition zeros (n : Z) : string := repeat_char "0"%char (Z.to_nat n).

(** Number::toString for a positive finite value, radix 10. *)
Definition positive_toString (m : positive) (e : Z) : string :=
  let x := S754_finite false m e in
  let xf := fraction_of m e in
  let '(s0, q0) := shortest_digits 17 x xf (decimal_exponent xf) 1 in
  let '(s, q) := strip_zeros 20 s0 q0 in
  let digits := of_Z_abs s in
  let k := Z.of_nat (String.length digits) in
  let n := k + q in
  if (- 5 <=? n) && (n <=? 21) then
    if k <=? n then (digits ++ zeros (n - k))%string
    else if 0 <? n then
      (substring 0 (Z.to_nat n) digits ++ "." ++
       substring (Z.to_nat n) (Z.to_nat (k - n)) digits)%string
    else ("0." ++ zeros (- n) ++ digits)%string
  else
    let ex := n - 1 in
    let sign := if ex <? 0 then "-"%string else "+"%string in
    if k =? 1 then (digits ++ "e" ++ sign ++ of_Z_abs ex)%string
    else (substring 0 1 digits ++ "." ++
          substring 1 (Z.to_nat (k - 1)) digits ++
          "e" ++ sign ++ of_Z_abs ex)%string.

(** [String(x)] for a number [x]. *)
Definition of_number (x : num) : string :=
  match x with
  | S754_nan => "NaN"%string
  | S754_zero _ => "0"%string
  | S754_infinity false => "Infinity"%string
  | S754_infinity true => "-Infinity"%string
  | S754_finite false m e => positive_toString m e
  | S754_finite true m e => ("-" ++ positive_toString m e)%string
  end.

(** [x.toFixed(f)]: the decimal with [f] fraction digits nearest to [x],
    the larger one on a tie; values of magnitude at least 10^21 and the
    non-finite ones print as [String(x)]. *)
Definition toFixed (f : nat) (x : num) : string :=
  match x with
  | S754_finite s m e =>
      let xf := fraction_of m e in
      if 10 ^ 21 <=? floor_frac xf then of_number x
      else
        let '(a, b) := scale10 xf (Z.of_nat f) in
        let n := (2 * a + b) / (2 * b) in
        let digits := of_Z_abs n in
        let k := String.length digits in
        let padded :=
          if (k <=? f)%nat then (repeat_char "0"%char (f + 1 - k) ++ digits)%string
          else digits in
        let k' := String.length padded in
        let body :=
          match f with
          | O => padded
          | _ => (substring 0 (k' - f) padded ++ "." ++
                  substring (k' - f) f padded)%string
          end in
        if s then ("-" ++ body)%string else body
  | S754_zero _ =>
      match f with
      | O => "0"%string
      | _ => ("0." ++ repeat_char "0"%char f)%string
      end
  | _ => of_number x
  end.

(** *** Substrings *)

(** [s.includes(sub)]: [sub] starts at some position of [s]. *)
Fixpoint includes (s sub : string) : bool :=
  String.prefix sub s
  || match s with
     | EmptyString => false
     | String _ r => includes r sub
     end.

End JsString.

(** ** JavaScript objects used as maps

    An object is the list of its own properties in creation order;
    a well-formed object has pairwise distinct keys.  [keys] is
    [Object.keys]: array-index keys in ascending numeric order first, then
    the other keys in creation order.  Reads and writes are those of own
    data properties: names the language resolves through the prototype
    ([__proto__], [constructor], ...) are outside the model. *)

Module JsObject.

Section OwnProperties.
Context {V : Type}.

Definition t : Type := list (string * V).

Fixpoint get (o : t) (k : string) : option V :=
  match o with
  | [] => None
  | (k', v) :: r => if String.eqb k' k then Some v else get r k
  end.

Definition hasOwnProperty (o : t) (k : string) : bool :=
  match get o k with Some _ => true | None => false end.

(** [o[k] = v]: an existing property keeps its place. *)
Fixpoint set (o : t) (k : string) (v : V) : t :=
  match o with
  | [] => [(k, v)]
  | (k', v') :: r =>
      if String.eqb k' k then (k', v) :: r else (k', v') :: set r k v
  end.

(** A canonical numeric string below 2^32 - 1. *)
Definition array_index (k : string) : option Z :=
  match k with
  | EmptyString => None
  | String c _ =>
      let '(v, n, rest) := JsString.read_digits k 0 0 in
      match rest with
      | EmptyString =>
          if (JsString.code c =? 48) && negb (n =? 1) then None
          else if v <=? 4294967294 then Some v else None
      | _ => None
      end
  end.

Fixpoint insert_index (i : Z) (k : string) (l : list (Z * string))
  : list (Z * string) :=
  match l with
  | [] => [(i, k)]
  | (j, k') :: r =>
      if i <? j then (i, k) :: l else (j, k') :: insert_index i k r
  end.

Fixpoint index_keys (o : t) : list (Z * string) :=
  match o with
  | [] => []
  | (k, _) :: r =>
      match array_index k with
      | Some i => insert_index i k (index_keys r)
      | None => index_keys r
      end
  end.

Fixpoint string_keys (o : t) : list string :=
  match o with
  | [] => []
  | (k, _) :: r =>
      match array_index k with
      | Some _ => string_keys r
      | None => k :: string_keys r
      end
  end.

Definition keys (o : t) : list string :=
  map snd (index_keys o) ++ string_keys o.

(** [{...o}]: a fresh object receiving the properties of [o] in
    [keys] order. *)
Definition spread (o : t) : t :=
  fold_left
    (fun acc k => match get o k with Some v => set acc k v | None => acc end)
    (keys o) [].

End OwnProperties.

Arguments t : clear implicits.

End JsObject.

(** ** The data model ([types.ts]) *)

Inductive StudentPerformanceGroup :=
| HighAchiever
| AboveAverage
| Average
| BelowAverage
| AtRisk.

Definition group_label (g : StudentPerformanceGroup) : string :=
  match g with
  | HighAchiever => "High Achiever"
  | AboveAverage => "Above Average"
  | Average => "Average"
  | BelowAverage => "Below Average"
  | AtRisk => "At Risk"
  end.

(** A cell of a raw row: [string | number | undefined | null]. *)
Inductive cell :=
| CString (s : string)
| CNumber (n : num)
| CUndefined
| CNull.

Definition RawRow : Type := JsObject.t cell.

Module Cell.

(** ToBoolean. *)
Definition truthy (c : cell) : bool :=
  match c with
  | CString s => JsString.truthy s
  | CNumber n => Number.truthy n
  | CUndefined | CNull => false
  end.

(** [String(c)]. *)
Definition toString (c : cell) : string :=
  match c with
  | CString s => s
  | CNumber n => JsString.of_number n
  | CUndefined => "undefined"
  | CNull => "null"
  end.

(** [row[k]]: a missing property reads as [undefined]. *)
Definition read (row : RawRow) (k : string) : cell :=
  match JsObject.get row k with Some v => v | None => CUndefined end.

End Cell.

Module StudentData.
Record t := {
  id : string;
  name : string;
  class : string;
  components : JsObject.t num;
  totalScore : num;
  maxPossibleScore : num;
  percentage : num;
  group : StudentPerformanceGroup;
  originalRow : RawRow;
  sheetName : string
}.
End StudentData.

Module ColumnMapping.
Record t := {
  nameCol : string;
  classCol : string;
  componentCols : list string;
  totalCol : option string
}.
End ColumnMapping.

(** The five bins of [gradeDist]; like [passCount] and [failCount] they are
    array lengths, integers below 2^32, kept as [nat]. *)
Module GradeDist.
Record t := { A : nat; B : nat; C : nat; D : nat; F : nat }.
End GradeDist.

Module AnalysisSummary.
Record t := {
  mean : num;
  median : num;
  mode : num;
  stdDev : num;
  min : num;
  max : num;
  range : num;
  passCount : nat;
  failCount : nat;
  gradeDist : GradeDist.t
}.
End AnalysisSummary.

Module ComponentStat.
Record t := {
  name : string;
  mean : num;
  median : num;
  mode : num;
  stdDev : num;
  min : num;
  max : num;
  correlationWithTotal : num
}.
End ComponentStat.

Module FullAnalysis.
Record t := {
  summary : AnalysisSummary.t;
  students : list StudentData.t;
  componentStats : list ComponentStat.t;
  strongestComponent : string;
  weakestComponent : string
}.
End FullAnalysis.

(** ** Arrays *)

Module JsArray.

(** [xs[i]] on an array of numbers; an index out of range reads
    [undefined], which every numeric operator turns into NaN. *)
Definition at_ (xs : list num) (i : nat) : num := nth i xs Number.NaN.

(** [for (let i = start; i < stop; i++) body]. *)
Definition for_loop {S : Type} (start stop : nat) (body : nat -> S -> S)
  (init : S) : S :=
  fold_left (fun st i => body i st) (seq start (stop - start)) init.

(** [l.includes(x)] on an array of strings. *)
Definition includes (l : list string) (x : string) : bool :=
  existsb (fun s => String.eqb s x) l.

Section Sort.
Context {A : Type}.
Variable compareFn : A -> A -> num.

(** [x], met before the elements of the sorted list [l], moves behind
    those it compares greater than; zero and NaN keep the order. *)
Fixpoint insert (x : A) (l : list A) : list A :=
  match l with
  | [] => [x]
  | y :: r =>
      if Number.gt (compareFn x y) Number.zero then y :: insert x r
      else x :: l
  end.

(** [[...l].sort(compareFn)].  The sort of the language is stable.  Under
    a comparator that orders the elements consistently, the list below is
    the one a stable sort returns: the same elements, in order, ties in
    their original order ([sort_permutation], [sort_sorted] and
    [sort_stable] below).  For the other comparators, whose outcome the
    language leaves to the implementation, the model is insertion sort. *)
Fixpoint sort (l : list A) : list A :=
  match l with
  | [] => []
  | x :: r => insert x (sort r)
  end.
End Sort.

End JsArray.

(** ** Statistics primitives ([services/analysisUtils.ts]) *)

Definition calculateMean (numbers : list num) : num :=
  match numbers with
  | [] => Number.zero
  | _ =>
      Number.div (fold_left (fun acc val => Number.add acc val) numbers Number.zero)
                 (Number.of_nat (length numbers))
  end.

Definition calculateMedian (numbers : list num) : num :=
  match numbers with
  | [] => Number.zero
  | _ =>
      let sorted := JsArray.sort (fun a b => Number.sub a b) numbers in
      let mid := Nat.div (length sorted) 2 in
      if negb (Nat.eqb (Nat.modulo (length sorted) 2) 0)
      then JsArray.at_ sorted mid
      else Number.div
             (Number.add (JsArray.at_ sorted (mid - 1)) (JsArray.at_ sorted mid))
             (Number.of_Z 2)
  end.

(** The loop state of [calculateMode]: the [frequency] object, keyed by the
    string of each number, and the running [maxFreq] and [mode].  The
    frequencies are bounded by the array length, hence exact integers, and
    are kept as [nat]. *)
Record mode_state := {
  frequency : JsObject.t nat;
  maxFreq : nat;
  mode_of : num
}.

Definition mode_step (st : mode_state) (n : num) : mode_state :=
  let key := JsString.of_number n in
  let count :=
    S (match JsObject.get (frequency st) key with Some c => c | None => O end) in
  let freq := JsObject.set (frequency st) key count in
  if Nat.ltb (maxFreq st) count
  then {| frequency := freq; maxFreq := count; mode_of := n |}
  else {| frequency := freq; maxFreq := maxFreq st; mode_of := mode_of st |}.

Definition calculateMode (numbers : list num) : num :=
  match numbers with
  | [] => Number.zero
  | first :: _ =>
      mode_of
        (fold_left mode_step numbers
           {| frequency := []; maxFreq := O; mode_of := first |})
  end.

Definition calculateStdDev (numbers : list num) (mean : num) : num :=
  match numbers with
  | [] => Number.zero
  | _ =>
      let squareDiffs := map (fun val => Number.pow2 (Number.sub val mean)) numbers in
      let avgSquareDiff := calculateMean squareDiffs in
      Number.sqrt avgSquareDiff
  end.

Definition calculateMin (numbers : list num) : num :=
  match numbers with
  | [] => Number.zero
  | _ =>
      JsArray.for_loop 1 (length numbers)
        (fun i min =>
           if Number.lt (JsArray.at_ numbers i) min then JsArray.at_ numbers i
           else min)
        (JsArray.at_ numbers 0)
  end.

Definition calculateMax (numbers : list num) : num :=
  match numbers with
  | [] => Number.zero
  | _ =>
      JsArray.for_loop 1 (length numbers)
        (fun i max =>
           if Number.gt (JsArray.at_ numbers i) max then JsArray.at_ numbers i
           else max)
        (JsArray.at_ numbers 0)
  end.

(** The three accumulators of the loop of [calculateCorrelation]. *)
Record corr_state := { numerator : num; denomX : num; denomY : num }.

Definition corr_step (x y : list num) (xMean yMean : num) (i : nat)
  (st : corr_state) : corr_state :=
  let xDiff := Number.sub (JsArray.at_ x i) xMean in
  let yDiff := Number.sub (JsArray.at_ y i) yMean in
  {| numerator := Number.add (numerator st) (Number.mul xDiff yDiff);
     denomX := Number.add (denomX st) (Number.mul xDiff xDiff);
     denomY := Number.add (denomY st) (Number.mul yDiff yDiff) |}.

Definition corr_loop (x y : list num) : corr_state :=
  JsArray.for_loop 0 (length x)
    (corr_step x y (calculateMean x) (calculateMean y))
    {| numerator := Number.zero; denomX := Number.zero; denomY := Number.zero |}.

Definition calculateCorrelation (x y : list num) : num :=
  if negb (Nat.eqb (length x) (length y)) || Nat.eqb (length x) 0
  then Number.zero
  else
    let st := corr_loop x y in
    let denominator := Number.sqrt (Number.mul (denomX st) (denomY st)) in
    if Number.strict_eq denominator Number.zero || Number.isNaN denominator
    then Number.zero
    else Number.div (numerator st) denominator.

(** ** The classifier *)

Definition determineGroup (percentage : num) : StudentPerformanceGroup :=
  if Number.ge percentage (Number.of_Z 90) then HighAchiever
  else if Number.ge percentage (Number.of_Z 75) then AboveAverage
  else if Number.ge percentage (Number.of_Z 60) then Average
  else if Number.ge percentage (Number.of_Z 50) then BelowAverage
  else AtRisk.

Definition determineGrade (percentage : num) : string :=
  if Number.ge percentage (Number.of_Z 90) then "A"
  else if Number.ge percentage (Number.of_Z 80) then "B"
  else if Number.ge percentage (Number.of_Z 70) then "C"
  else if Number.ge percentage (Number.of_Z 60) then "D"
  else "F".

(** ** The analysis aggregator *)

(** The value [performFullAnalysis] returns: a [FullAnalysis] without its
    [students]. *)
Module AnalysisResult.
Record t := {
  summary : AnalysisSummary.t;
  componentStats : list ComponentStat.t;
  strongestComponent : string;
  weakestComponent : string
}.
End AnalysisResult.

(** [x || 'N/A'] on a possibly missing string. *)
Definition or_NA (x : option string) : string :=
  match x with
  | Some s => if JsString.truthy s then s else "N/A"
  | None => "N/A"
  end.

(** [s.components[key]]; a key the record lacks reads [undefined], NaN to
    the arithmetic below.  Records built by the normalizer all carry every
    component key. *)
Definition component_score (key : string) (s : StudentData.t) : num :=
  match JsObject.get (StudentData.components s) key with
  | Some v => v
  | None => Number.NaN
  end.

(** [l.filter(p).length]. *)
Definition count {A : Type} (p : A -> bool) (l : list A) : nat :=
  length (filter p l).

Definition summarize (students : list StudentData.t) : AnalysisSummary.t :=
  let scores := map StudentData.percentage students in
  let mean := calculateMean scores in
  let grade_is g (s : StudentData.t) :=
    String.eqb (determineGrade (StudentData.percentage s)) g in
  {| AnalysisSummary.mean := mean;
     AnalysisSummary.median := calculateMedian scores;
     AnalysisSummary.mode := calculateMode scores;
     AnalysisSummary.stdDev := calculateStdDev scores mean;
     AnalysisSummary.min := calculateMin scores;
     AnalysisSummary.max := calculateMax scores;
     AnalysisSummary.range := Number.sub (calculateMax scores) (calculateMin scores);
     AnalysisSummary.passCount :=
       count (fun s => Number.ge (StudentData.percentage s) (Number.of_Z 60)) students;
     AnalysisSummary.failCount :=
       count (fun s => Number.lt (StudentData.percentage s) (Number.of_Z 60)) students;
     AnalysisSummary.gradeDist :=
       {| GradeDist.A := count (grade_is "A"%string) students;
          GradeDist.B := count (grade_is "B"%string) students;
          GradeDist.C := count (grade_is "C"%string) students;
          GradeDist.D := count (grade_is "D"%string) students;
          GradeDist.F := count (grade_is "F"%string) students |} |}.

Definition componentKeys (students : list StudentData.t) : list string :=
  match students with
  | s0 :: _ => JsObject.keys (StudentData.components s0)
  | [] => []
  end.

Definition componentStat (students : list StudentData.t) (key : string)
  : ComponentStat.t :=
  let scores := map StudentData.percentage students in
  let compScores := map (component_score key) students in
  let compMean := calculateMean compScores in
  {| ComponentStat.name := key;
     ComponentStat.mean := compMean;
     ComponentStat.median := calculateMedian compScores;
     ComponentStat.mode := calculateMode compScores;
     ComponentStat.stdDev := calculateStdDev compScores compMean;
     ComponentStat.min := calculateMin compScores;
     ComponentStat.max := calculateMax compScores;
     ComponentStat.correlationWithTotal := calculateCorrelation compScores scores |}.

(** The comparator [(a, b) => b.mean - a.mean]. *)
Definition by_mean_descending (a b : ComponentStat.t) : num :=
  Number.sub (ComponentStat.mean b) (ComponentStat.mean a).

Definition performFullAnalysis (students : list StudentData.t)
  : AnalysisResult.t :=
  let componentStats := map (componentStat students) (componentKeys students) in
  let sortedComponents := JsArray.sort by_mean_descending componentStats in
  {| AnalysisResult.summary := summarize students;
     AnalysisResult.componentStats := componentStats;
     AnalysisResult.strongestComponent :=
       or_NA (option_map ComponentStat.name (nth_error sortedComponents 0));
     AnalysisResult.weakestComponent :=
       or_NA (option_map ComponentStat.name
                (nth_error sortedComponents (length sortedComponents - 1))) |}.

(** ** The row normalizer ([App.tsx]) *)

Definition getSmartValue (row : RawRow) (colName : string) : cell :=
  if JsObject.hasOwnProperty row colName then Cell.read row colName
  else
    let lowerColName := JsString.trim (JsString.toLowerCase colName) in
    match
      find (fun k => String.eqb (JsString.trim (JsString.toLowerCase k)) lowerColName)
           (JsObject.keys row)
    with
    | Some foundKey =>
        if JsString.truthy foundKey then Cell.read row foundKey else CUndefined
    | None => CUndefined
    end.

(** [parseFloat(String(rawVal || '0'))], NaN replaced by 0. *)
Definition cleanVal (rawVal : cell) : num :=
  let val :=
    JsString.parseFloat
      (Cell.toString (if Cell.truthy rawVal then rawVal else CString "0")) in
  if Number.isNaN val then Number.zero else val.

(** One pass of [mapping.componentCols.forEach]: the [components] object
    and the running [sumComponents]. *)
Definition component_step (row : RawRow) (st : JsObject.t num * num)
  (col : string) : JsObject.t num * num :=
  let v := cleanVal (getSmartValue row col) in
  (JsObject.set (fst st) col v, Number.add (snd st) v).

Definition collect_components (row : RawRow) (cols : list string)
  : JsObject.t num * num :=
  fold_left (component_step row) cols ([], Number.zero).

Definition resolve_total (mapping : ColumnMapping.t) (row : RawRow)
  (sumComponents : num) : num :=
  match ColumnMapping.totalCol mapping with
  | Some col =>
      if JsString.truthy col then
        let tVal := JsString.parseFloat (Cell.toString (getSmartValue row col)) in
        if negb (Number.isNaN tVal) then tVal else sumComponents
      else sumComponents
  | None => sumComponents
  end.

Definition resolve_name (mapping : ColumnMapping.t) (row : RawRow) : string :=
  let rawName := getSmartValue row (ColumnMapping.nameCol mapping) in
  if Cell.truthy rawName then Cell.toString rawName else "".

Definition resolve_sheet (row : RawRow) : string :=
  let src := Cell.read row "SheetSource" in
  Cell.toString (if Cell.truthy src then src else CString "Unknown").

Definition resolve_class (mapping : ColumnMapping.t) (row : RawRow)
  (sheetName : string) : string :=
  if JsString.truthy (ColumnMapping.classCol mapping) then
    let rawClass := getSmartValue row (ColumnMapping.classCol mapping) in
    if Cell.truthy rawClass then Cell.toString rawClass else sheetName
  else sheetName.

(** The callback of [allRows.map((row, idx) => ...)]. *)
Definition normalize_row (mapping : ColumnMapping.t) (row : RawRow) (idx : nat)
  : StudentData.t :=
  let sheetName := resolve_sheet row in
  let '(components, sumComponents) :=
    collect_components row (ColumnMapping.componentCols mapping) in
  let total := resolve_total mapping row sumComponents in
  {| StudentData.id := ("s-" ++ sheetName ++ "-" ++ JsString.of_nat idx)%string;
     StudentData.name := resolve_name mapping row;
     StudentData.class := resolve_class mapping row sheetName;
     StudentData.components := components;
     StudentData.totalScore := total;
     StudentData.maxPossibleScore := Number.of_Z 100;
     StudentData.percentage := total;
     StudentData.group := determineGroup total;
     StudentData.originalRow := row;
     StudentData.sheetName := sheetName |}.

(** The filter [student.name && student.name.trim() !== '']. *)
Definition has_valid_name (student : StudentData.t) : bool :=
  JsString.truthy (StudentData.name student)
  && negb (String.eqb (JsString.trim (StudentData.name student)) "").

(** [array.map((row, idx) => f row idx)], indices counted from [start]. *)
Fixpoint map_indexed {A B : Type} (f : A -> nat -> B) (start : nat) (l : list A)
  : list B :=
  match l with
  | [] => []
  | x :: r => f x start :: map_indexed f (S start) r
  end.

Definition processStudents (mapping : ColumnMapping.t) (allRows : list RawRow)
  : list StudentData.t :=
  filter has_valid_name (map_indexed (normalize_row mapping) 0 allRows).

(** *** The controller state *)

Inductive Tab := dashboard | students_tab | ai.

Module AppState.
Record t := {
  step : nat;
  rawSheetData : JsObject.t (list RawRow);
  selectedSheetNames : list string;
  allStudents : list StudentData.t;
  sheetFilter : string;
  totalColName : string;
  activeTab : Tab
}.
End AppState.

(** [{ ...r, SheetSource: sheet }]. *)
Definition tag_row (sheet : string) (r : RawRow) : RawRow :=
  JsObject.set (JsObject.spread r) "SheetSource" (CString sheet).

(** The rows of the selected sheets, in selection order, each tagged with
    its sheet. *)
Definition merge_sheets (rawSheetData : JsObject.t (list RawRow))
  (selected : list string) : list RawRow :=
  fold_left
    (fun allRows sheet =>
       let rows :=
         map (tag_row sheet)
             (match JsObject.get rawSheetData sheet with
              | Some rows => rows
              | None => []
              end) in
       allRows ++ rows)
    selected [].

Definition onMappingConfirmed (mapping : ColumnMapping.t) (st : AppState.t)
  : AppState.t :=
  let allRows :=
    merge_sheets (AppState.rawSheetData st) (AppState.selectedSheetNames st) in
  {| AppState.step := 4;
     AppState.rawSheetData := AppState.rawSheetData st;
     AppState.selectedSheetNames := AppState.selectedSheetNames st;
     AppState.allStudents := processStudents mapping allRows;
     AppState.sheetFilter := "All";
     AppState.totalColName :=
       match ColumnMapping.totalCol mapping with
       | Some c => if JsString.truthy c then c else "Overall Score"
       | None => "Overall Score"
       end;
     AppState.activeTab := AppState.activeTab st |}.

Definition filteredStudents (st : AppState.t) : list StudentData.t :=
  if String.eqb (AppState.sheetFilter st) "All" then AppState.allStudents st
  else filter (fun s => String.eqb (StudentData.sheetName s) (AppState.sheetFilter st))
              (AppState.allStudents st).

(** The memoised [analysis]: [null] on an empty selection. *)
Definition analysis (st : AppState.t) : option FullAnalysis.t :=
  match filteredStudents st with
  | [] => None
  | students =>
      let result := performFullAnalysis students in
      Some {| FullAnalysis.summary := AnalysisResult.summary result;
              FullAnalysis.students := students;
              FullAnalysis.componentStats := AnalysisResult.componentStats result;
              FullAnalysis.strongestComponent := AnalysisResult.strongestComponent result;
              FullAnalysis.weakestComponent := AnalysisResult.weakestComponent result |}
  end.

(** ** The narrative request ([services/geminiService.ts]) *)

(** What [generateEducationalActionPlan] hands to the generative service:
    the client key and the argument of [ai.models.generateContent]. *)
Module GenerateContentRequest.
Record t := {
  apiKey : option string;
  model : string;
  contents : string;
  responseMimeType : string
}.
End GenerateContentRequest.

Definition componentLine (c : ComponentStat.t) : string :=
  ("- " ++ ComponentStat.name c
   ++ ": Mean " ++ JsString.toFixed 1 (ComponentStat.mean c)
   ++ ", Correlation " ++ JsString.toFixed 2 (ComponentStat.correlationWithTotal c))%string.

Definition passRate (s : AnalysisSummary.t) : num :=
  let passCount := Number.of_nat (AnalysisSummary.passCount s) in
  let failCount := Number.of_nat (AnalysisSummary.failCount s) in
  Number.mul (Number.div passCount (Number.add passCount failCount))
             (Number.of_Z 100).

Definition quoted (s : string) : string :=
  (JsString.dquote ++ s ++ JsString.dquote)%string.

(** The template literal [prompt], line by line. *)
Definition prompt (analysis : FullAnalysis.t) : string :=
  let s := FullAnalysis.summary analysis in
  JsString.join JsString.newline
    [ "";
      "    Role: Educational Data Analyst Expert.";
      "    Task: Analyze the following academic data summary and generate specific, actionable educational plans.";
      "    ";
      "    Data Summary:";
      "    - Overall Mean Score: " ++ JsString.toFixed 1 (AnalysisSummary.mean s) ++ "%";
      "    - Standard Deviation: " ++ JsString.toFixed 1 (AnalysisSummary.stdDev s);
      "    - Pass Rate: " ++ JsString.toFixed 1 (passRate s) ++ "%";
      "    - Failing Students: " ++ JsString.of_nat (AnalysisSummary.failCount s);
      "    - Strongest Component: " ++ FullAnalysis.strongestComponent analysis;
      "    - Weakest Component: " ++ FullAnalysis.weakestComponent analysis;
      "    ";
      "    Component Details (Correlation with Final Grade):";
      "    " ++ JsString.join JsString.newline
                  (map componentLine (FullAnalysis.componentStats analysis));
      "";
      "    Please output a JSON object with the following keys. Each value should be a detailed Markdown string.";
      "    1. " ++ quoted "highAchieverPlan" ++ ": Enrichment, competitions, leadership.";
      "    2. " ++ quoted "averageStudentPlan" ++ ": Consolidation, practice, movement to next level.";
      "    3. " ++ quoted "atRiskPlan" ++ ": Remediation, parent intervention, foundational steps.";
      "    4. " ++ quoted "teacherActions" ++ ": Pedagogy changes, grouping strategies, what to reteach next week.";
      "    5. " ++ quoted "hodInsights" ++ ": Curriculum gaps, teacher PD needs, strategic changes for the department.";
      "";
      "    Make the advice specific to the data provided (e.g., if correlation is high for a specific component, mention it).";
      "    Ensure the JSON is valid. Do not wrap in markdown code blocks. Just the raw JSON string.";
      "  " ]%string.

(** The request sent by [generateEducationalActionPlan]; [env_API_KEY] is
    [process.env.API_KEY]. *)
Definition narrative_request (env_API_KEY : option string)
  (analysis : FullAnalysis.t) : GenerateContentRequest.t :=
  {| GenerateContentRequest.apiKey := env_API_KEY;
     GenerateContentRequest.model := "gemini-2.5-flash";
     GenerateContentRequest.contents := prompt analysis;
     GenerateContentRequest.responseMimeType := "application/json" |}.

(** ** The other handlers of the controller ([App.tsx]) *)

Definition onSheetsConfirmed (selected : list string) (st : AppState.t)
  : AppState.t :=
  {| AppState.step := 3;
     AppState.rawSheetData := AppState.rawSheetData st;
     AppState.selectedSheetNames := selected;
     AppState.allStudents := AppState.allStudents st;
     AppState.sheetFilter := AppState.sheetFilter st;
     AppState.totalColName := AppState.totalColName st;
     AppState.activeTab := AppState.activeTab st |}.

(** The [onChange] of the two sheet selects. *)
Definition setSheetFilter (value : string) (st : AppState.t) : AppState.t :=
  {| AppState.step := AppState.step st;
     AppState.rawSheetData := AppState.rawSheetData st;
     AppState.selectedSheetNames := AppState.selectedSheetNames st;
     AppState.allStudents := AppState.allStudents st;
     AppState.sheetFilter := value;
     AppState.totalColName := AppState.totalColName st;
     AppState.activeTab := AppState.activeTab st |}.



(** ** The sheet selection ([components/SheetSelector.tsx]) *)

Module SheetSelector.

Definition toggleSheet (sheet : string) (prev : list string) : list string :=
  if JsArray.includes prev sheet
  then filter (fun s => negb (String.eqb s sheet)) prev
  else prev ++ [sheet].

End SheetSelector.

(** ** The column mapper ([components/DataMapper.tsx]) *)

Module DataMapper.









End DataMapper.

(** ** The dashboard ([components/ChartsPanel.tsx]) *)

Definition StudentPerformanceGroup_eqb (g h : StudentPerformanceGroup) : bool :=
  match g, h with
  | HighAchiever, HighAchiever
  | AboveAverage, AboveAverage
  | Average, Average
  | BelowAverage, BelowAverage
  | AtRisk, AtRisk => true
  | _, _ => false
  end.

(** [Object.values(StudentPerformanceGroup)]: the members in declaration
    order. *)
Definition StudentPerformanceGroup_values : list StudentPerformanceGroup :=
  [HighAchiever; AboveAverage; Average; BelowAverage; AtRisk].

Module ChartsPanel.

(** The two axes of the correlation chart. *)
Record axes := { scatterX : string; scatterY : string }.

(** The effect that validates the axes against the keys of the analysis. *)
Definition validate_axes (totalScoreName : string) (componentKeys : list string)
  (a : axes) : axes :=
  let validKeys := totalScoreName :: componentKeys in
  let isXValid :=
    JsString.truthy (scatterX a) && JsArray.includes validKeys (scatterX a) in
  let isYValid :=
    JsString.truthy (scatterY a) && JsArray.includes validKeys (scatterY a) in
  {| scatterX :=
       if negb isXValid
       then match componentKeys with k :: _ => k | [] => totalScoreName end
       else scatterX a;
     scatterY := if negb isYValid then totalScoreName else scatterY a |}.

(** The [groupCounts] object, keyed by the label of the group; the counts
    are bounded by the number of students and kept as [nat]. *)
Definition groupCounts (students : list StudentData.t) : JsObject.t nat :=
  fold_left
    (fun acc student =>
       let k := group_label (StudentData.group student) in
       JsObject.set acc k
         (S (match JsObject.get acc k with Some c => c | None => O end)))
    students [].

(** [groupData]: a name and a value for each group. *)
Definition groupData (students : list StudentData.t) : list (string * nat) :=
  map (fun group =>
         (group_label group,
          match JsObject.get (groupCounts students) (group_label group) with
          | Some c => c
          | None => O
          end))
      StudentPerformanceGroup_values.

Definition getStudentValue (totalScoreName : string) (student : StudentData.t)
  (key : string) : num :=
  if String.eqb key totalScoreName then StudentData.totalScore student
  else
    match JsObject.get (StudentData.components student) key with
    | Some v => v
    | None =>
        if String.eqb key "Total Score" then StudentData.totalScore student
        else Number.zero
    end.

Module Point.
Record t := {
  name : string;
  x : num;
  y : num;
  group : StudentPerformanceGroup
}.
End Point.

Definition scatterData (totalScoreName : string) (students : list StudentData.t)
  (a : axes) : list Point.t :=
  map (fun s =>
         {| Point.name := StudentData.name s;
            Point.x := getStudentValue totalScoreName s (scatterX a);
            Point.y := getStudentValue totalScoreName s (scatterY a);
            Point.group := StudentData.group s |})
      students.

Definition correlationValue (totalScoreName : string)
  (students : list StudentData.t) (a : axes) : num :=
  let data := scatterData totalScoreName students a in
  calculateCorrelation (map Point.x data) (map Point.y data).

End ChartsPanel.

(** ** The student list ([components/StudentTable.tsx]) *)

Module StudentTable.

Definition getScoreColor (score : num) : string :=
  if Number.ge score (Number.of_Z 90) then "bg-emerald-100 text-emerald-800"
  else if Number.ge score (Number.of_Z 75) then "bg-teal-50 text-teal-700"
  else if Number.ge score (Number.of_Z 60) then "bg-indigo-50 text-indigo-700"
  else if Number.ge score (Number.of_Z 50) then "bg-amber-50 text-amber-700"
  else "bg-rose-50 text-rose-700".

Definition getGroupBadgeStyle (group : string) : string :=
  if JsString.includes group "High"
  then "bg-emerald-100 text-emerald-700 ring-1 ring-emerald-600/20"
  else if JsString.includes group "Above"
  then "bg-teal-50 text-teal-700 ring-1 ring-teal-600/20"
  else if JsString.includes group "Average"
  then "bg-indigo-50 text-indigo-700 ring-1 ring-indigo-600/20"
  else if JsString.includes group "Below"
  then "bg-amber-50 text-amber-700 ring-1 ring-amber-600/20"
  else "bg-rose-50 text-rose-700 ring-1 ring-rose-600/20".

Module Counts.
Record t := {
  total : nat;
  high : nat;
  aboveAvg : nat;
  average : nat;
  belowAvg : nat;
  atRisk : nat
}.
End Counts.

Definition counts (students : list StudentData.t) : Counts.t :=
  let in_group g (s : StudentData.t) :=
    StudentPerformanceGroup_eqb (StudentData.group s) g in
  {| Counts.total := length students;
     Counts.high := count (in_group HighAchiever) students;
     Counts.aboveAvg := count (in_group AboveAverage) students;
     Counts.average := count (in_group Average) students;
     Counts.belowAvg := count (in_group BelowAverage) students;
     Counts.atRisk := count (in_group AtRisk) students |}.

(** [[...students].sort((a, b) => b.totalScore - a.totalScore).slice(0, 5)]. *)
Definition topPerformers (students : list StudentData.t) : list StudentData.t :=
  firstn 5
    (JsArray.sort
       (fun a b => Number.sub (StudentData.totalScore b) (StudentData.totalScore a))
       students).

End StudentTable.

(** * The vocabulary of the statements

    The definitions used to state the properties: the order the
    comparison operators follow, the formulas of the specification, the
    notions the normalizer's contract speaks of, and the concrete inputs
    the examples and counterexamples are evaluated on. *)

(** ** The order of the numbers *)

Module NumberOrder.

(** A number that is not NaN, placed in the lexicographic order of
    (class, exponent, mantissa) that [SFcompare] follows. *)
Definition key (a : num) : Z * Z * Z :=
  match a with
  | S754_nan => (0, 0, 0)
  | S754_zero _ => (0, 0, 0)
  | S754_infinity true => (-2, 0, 0)
  | S754_infinity false => (2, 0, 0)
  | S754_finite true m e => (-1, - e, Zneg m)
  | S754_finite false m e => (1, e, Zpos m)
  end.

Definition key_lt (k1 k2 : Z * Z * Z) : Prop :=
  let '(c1, x1, y1) := k1 in
  let '(c2, x2, y2) := k2 in
  c1 < c2 \/ (c1 = c2 /\ (x1 < x2 \/ (x1 = x2 /\ y1 < y2))).

End NumberOrder.

(** Signed, and not zero. *)
Definition signed_nonzero (s : bool) (v : num) : Prop :=
  (exists m e, v = S754_finite s m e) \/ v = S754_infinity s.

Definition is_positive (v : num) : bool :=
  match v with
  | S754_finite false _ _ | S754_infinity false => true
  | _ => false
  end.

(** ** Extremes of a scored list *)

Section ScoreOrder.

Context {A : Type}.
Variable score : A -> num.

(** The comparator [(a, b) => score(b) - score(a)]. *)
Definition descending (a b : A) : num := Number.sub (score b) (score a).

Definition scored (c : A) : Prop :=
  Number.valid (score c) = true /\ Number.isNaN (score c) = false.

(** Position [i] holds [c], a maximum that no earlier element reaches. *)
Definition first_maximum (l : list A) (i : nat) (c : A) : Prop :=
  nth_error l i = Some c
  /\ (forall c', In c' l -> Number.le (score c') (score c) = true)
  /\ (forall k c', (k < i)%nat -> nth_error l k = Some c' ->
        Number.lt (score c') (score c) = true).

(** Position [j] holds [c], a minimum that no later element reaches. *)
Definition last_minimum (l : list A) (j : nat) (c : A) : Prop :=
  nth_error l j = Some c
  /\ (forall c', In c' l -> Number.le (score c) (score c') = true)
  /\ (forall k c', (j < k)%nat -> nth_error l k = Some c' ->
        Number.lt (score c) (score c') = true).

(** Neither score is below the other. *)
Definition tied (a b : A) : bool :=
  negb (Number.lt (score a) (score b)) && negb (Number.lt (score b) (score a)).

(** No element is followed by one of a greater score. *)
Definition sorted_descending (l : list A) : Prop :=
  StronglySorted (fun a b => Number.lt (score a) (score b) = false) l.

End ScoreOrder.

(** ** The formulas of the specification *)

(** The sum of a sequence, accumulated from the left as [reduce] does. *)
Definition sum (xs : list num) : num := fold_left Number.add xs Number.zero.

Definition squared_deviations (xs : list num) (m : num) : list num :=
  map (fun x => Number.pow2 (Number.sub x m)) xs.

(** The population standard deviation in the words of the specification:
    the square root of the sum of squared deviations divided by [N]. *)
Definition population_std_dev (xs : list num) (m : num) : num :=
  Number.sqrt (Number.div (sum (squared_deviations xs m))
                          (Number.of_nat (length xs))).

(** The sample standard deviation, which divides by [N - 1]. *)
Definition sample_std_dev (xs : list num) (m : num) : num :=
  Number.sqrt (Number.div (sum (squared_deviations xs m))
                          (Number.of_nat (length xs - 1))).

Definition deviations (xs : list num) : list num :=
  map (fun x => Number.sub x (calculateMean xs)) xs.

Definition squares (ds : list num) : list num :=
  map (fun d => Number.mul d d) ds.

Definition products (ds es : list num) : list num :=
  map (fun de => Number.mul (fst de) (snd de)) (combine ds es).

(** The denominator of the Pearson coefficient: the square root of the
    product of the two sums of squared deviations. *)
Definition pearson_denominator (xs ys : list num) : num :=
  Number.sqrt (Number.mul (sum (squares (deviations xs)))
                          (sum (squares (deviations ys)))).

(** The Pearson product-moment coefficient in the words of the
    specification: the sum of the products of the deviations from the two
    means over [pearson_denominator], all in double arithmetic. *)
Definition pearson (xs ys : list num) : num :=
  Number.div (sum (products (deviations xs) (deviations ys)))
             (pearson_denominator xs ys).

(** Exchanging the two arrays exchanges [denomX] and [denomY] and keeps
    [numerator]. *)
Definition exchange (st : corr_state) : corr_state :=
  {| numerator := numerator st; denomX := denomY st; denomY := denomX st |}.

(** Positive zero or NaN: the only values [c - c] can take. *)
Definition zero_or_nan (v : num) : Prop := v = Number.zero \/ v = Number.NaN.

(** ** The contract of the normalizer *)

(** The number a cell parses to: [parseFloat(String(c))]. *)
Definition parsed (c : cell) : num := JsString.parseFloat (Cell.toString c).

(** The coercion of the specification: the parsed number, or 0 when the
    parse fails. *)
Definition coerced (c : cell) : num :=
  if Number.isNaN (parsed c) then Number.zero else parsed c.

(** A cell the lookup did not find, or that holds [null]. *)
Definition absent (c : cell) : Prop := c = CUndefined \/ c = CNull.

(** The sum of the coerced component cells, in mapping order. *)
Definition component_sum (mapping : ColumnMapping.t) (row : RawRow) : num :=
  sum (map (fun col => coerced (getSmartValue row col))
           (ColumnMapping.componentCols mapping)).

(** The total column counts as mapped when it is a non-empty name. *)
Definition total_mapped (mapping : ColumnMapping.t) (col : string) : Prop :=
  ColumnMapping.totalCol mapping = Some col /\ col <> ""%string.

Definition total_unmapped (mapping : ColumnMapping.t) : Prop :=
  ColumnMapping.totalCol mapping = None
  \/ ColumnMapping.totalCol mapping = Some ""%string.

(** A row is kept when its resolved name, trimmed, is not empty. *)
Definition named (mapping : ColumnMapping.t) (row : RawRow) : bool :=
  negb (String.eqb (JsString.trim (resolve_name mapping row)) "").

(** The rows with their positions in the merged sequence. *)
Definition indexed {A : Type} (l : list A) : list (nat * A) :=
  combine (seq 0 (length l)) l.

(** The students whose percentage is NaN: neither [>= 60] nor [< 60]. *)
Definition nanCount (students : list StudentData.t) : nat :=
  count (fun s => Number.isNaN (StudentData.percentage s)) students.

(** ** The name rule in the words of the specification

    The definitions of this module are written from the specification and
    from the language, not from [App.tsx]: none of them mentions
    [getSmartValue], [resolve_name], [has_valid_name], [JsString.trim] or
    [JsString.toLowerCase].  The properties compare the code with them. *)

Module Spec.

(** The white space of the language among the characters of the model:
    TAB, LF, VT, FF, CR, SP and NBSP. *)
Definition white_space (c : ascii) : bool :=
  existsb (Z.eqb (JsString.code c)) [9; 10; 11; 12; 13; 32; 160].

(** The string holds a character that is not white space: it is not empty
    after trimming. *)
Fixpoint has_text (s : string) : bool :=
  match s with
  | EmptyString => false
  | String c r => negb (white_space c) || has_text r
  end.

(** The string from its first character that is not white space. *)
Fixpoint strip_start (s : string) : string :=
  match s with
  | EmptyString => EmptyString
  | String c r => if white_space c then strip_start r else s
  end.

(** The string up to its last character that is not white space. *)
Fixpoint strip_end (s : string) : string :=
  match s with
  | EmptyString => EmptyString
  | String c r => if has_text s then String c (strip_end r) else EmptyString
  end.

(** The string without its leading and trailing white space. *)
Definition strip (s : string) : string := strip_end (strip_start s).

(** The capital letters of the model: A to Z, and the accented capitals
    from U+00C0 to U+00DE, the multiplication sign U+00D7 apart.  The small
    letter of a capital is 32 code units above it. *)
Definition capital (c : ascii) : bool :=
  let n := JsString.code c in
  ((65 <=? n) && (n <=? 90))
  || ((192 <=? n) && (n <=? 222) && negb (n =? 215)).

(** The same character, or the capital and the small form of one letter. *)
Definition same_letter (a b : ascii) : bool :=
  Ascii.eqb a b
  || (capital a && (JsString.code b =? JsString.code a + 32))
  || (capital b && (JsString.code a =? JsString.code b + 32)).

(** The same text, letter case aside. *)
Fixpoint same_text (s t : string) : bool :=
  match s, t with
  | EmptyString, EmptyString => true
  | String a s', String b t' => same_letter a b && same_text s' t'
  | _, _ => false
  end.

(** The case-insensitive, trimmed comparison of a key with a column name. *)
Definition same_name (key colName : string) : bool :=
  same_text (strip key) (strip colName).

(** The first key of the row, in [Object.keys] order, that is the
    requested name up to letter case and surrounding white space. *)
Definition similar_key (row : RawRow) (colName : string) : option string :=
  find (fun key => same_name key colName) (JsObject.keys row).

(** The two-phase lookup as the claim words it: the property of that exact
    name when the row has one, otherwise the property of the first similar
    key; [undefined] when there is none. *)
Definition claimed_lookup (row : RawRow) (colName : string) : cell :=
  match JsObject.get row colName with
  | Some v => v
  | None =>
      match similar_key row colName with
      | Some key => Cell.read row key
      | None => CUndefined
      end
  end.

(** The two-phase lookup of the amended claim: in the second phase a
    similar key that is the empty string is no column, and the value is
    [undefined]. *)
Definition lookup (row : RawRow) (colName : string) : cell :=
  match JsObject.get row colName with
  | Some v => v
  | None =>
      match similar_key row colName with
      | Some EmptyString | None => CUndefined
      | Some key => Cell.read row key
      end
  end.

(** The text of a name cell: the string itself, the decimal form of a
    number other than 0 and NaN, and the empty text for every other cell. *)
Definition name_text (c : cell) : string :=
  match c with
  | CString s => s
  | CNumber (S754_zero _) | CNumber S754_nan => ""
  | CNumber n => JsString.of_number n
  | CUndefined | CNull => ""
  end.

(** The resolved name of a row. *)
Definition resolved_name (mapping : ColumnMapping.t) (row : RawRow) : string :=
  name_text (lookup row (ColumnMapping.nameCol mapping)).

(** The resolved name of a row under the lookup as the claim words it. *)
Definition claimed_name (mapping : ColumnMapping.t) (row : RawRow) : string :=
  name_text (claimed_lookup row (ColumnMapping.nameCol mapping)).

(** A row is kept when its resolved name is not empty after trimming. *)
Definition kept (mapping : ColumnMapping.t) (row : RawRow) : bool :=
  has_text (resolved_name mapping row).

End Spec.

(** The 256 characters of the model. *)
Definition all_characters : list ascii := map ascii_of_nat (seq 0 256).

(** ** Inputs of the examples *)

Definition eight_scores : list num :=
  map Number.of_Z [2; 4; 4; 4; 5; 5; 7; 9].

Definition tenth : num := JsString.parseFloat "0.1".

Definition quiz_row : RawRow :=
  [("Name", CString "Ann"); ("Quiz1", CNumber (Number.of_Z 40));
   ("Quiz2", CString "junk")]%string.

Definition quiz_mapping : ColumnMapping.t :=
  {| ColumnMapping.nameCol := "Name";
     ColumnMapping.classCol := "";
     ColumnMapping.componentCols := ["Quiz1"; "Quiz2"]%string;
     ColumnMapping.totalCol := None |}.

Definition final_row : RawRow :=
  [("Name", CString "Ann"); ("Quiz1", CNumber (Number.of_Z 40));
   ("Final", CString "85")]%string.

Definition final_mapping : ColumnMapping.t :=
  {| ColumnMapping.nameCol := "Name";
     ColumnMapping.classCol := "";
     ColumnMapping.componentCols := ["Quiz1"]%string;
     ColumnMapping.totalCol := Some "Final"%string |}.

Definition nameless_row : RawRow :=
  [("Student", CString "   "); ("Quiz1", CNumber (Number.of_Z 70))]%string.

(** A sheet whose two component cells read [Infinity] and [-Infinity]:
    the component sum, hence the percentage, is NaN. *)
Definition unbounded_row : RawRow :=
  [("Name", CString "Ann"); ("Q1", CString "Infinity");
   ("Q2", CString "-Infinity")]%string.

Definition two_quiz_mapping : ColumnMapping.t :=
  {| ColumnMapping.nameCol := "Name";
     ColumnMapping.classCol := "";
     ColumnMapping.componentCols := ["Q1"; "Q2"]%string;
     ColumnMapping.totalCol := None |}.

(** One student with two components of equal score. *)
Definition tied_row : RawRow :=
  [("Name", CString "Ann"); ("Quiz", CNumber (Number.of_Z 80));
   ("Exam", CNumber (Number.of_Z 80))]%string.

Definition tied_mapping : ColumnMapping.t :=
  {| ColumnMapping.nameCol := "Name";
     ColumnMapping.classCol := "";
     ColumnMapping.componentCols := ["Quiz"; "Exam"]%string;
     ColumnMapping.totalCol := None |}.

Definition tied_students : list StudentData.t :=
  processStudents tied_mapping [tied_row].

(** One student with Quiz at 90 and Exam at 60. *)
Definition uneven_row : RawRow :=
  [("Name", CString "Ann"); ("Quiz", CNumber (Number.of_Z 90));
   ("Exam", CNumber (Number.of_Z 60))]%string.

(** A row whose only key is the empty string, and a mapping whose name
    column is one space: the key is similar to the name column. *)
Definition empty_key_row : RawRow := [("", CString "Ann")]%string.

Definition blank_name_mapping : ColumnMapping.t :=
  {| ColumnMapping.nameCol := " ";
     ColumnMapping.classCol := "";
     ColumnMapping.componentCols := [];
     ColumnMapping.totalCol := None |}.

(** A row whose name column is found by the second phase only, beside a
    row whose name is blank. *)
Definition spaced_key_row : RawRow :=
  [("name ", CString "Ann"); ("Quiz1", CNumber (Number.of_Z 70))]%string.

(** A row whose name cell holds the number 0. *)
Definition zero_name_row : RawRow :=
  [("Name", CNumber Number.zero); ("Quiz1", CNumber (Number.of_Z 70))]%string.

(** ** The vocabulary of the further properties *)

(** The elements of [xs] that [String] writes as [k]: the entries counted
    under the property [k] of a tally object. *)
Definition occurrences (k : string) (xs : list num) : nat :=
  count (fun x => String.eqb (JsString.of_number x) k) xs.

(** The count a tally object holds for [k]: [freq[k] || 0]. *)
Definition tallied (freq : JsObject.t nat) (k : string) : nat :=
  match JsObject.get freq k with Some c => c | None => O end.

(** What the loop of [calculateMode] keeps true after the elements [done]. *)
Record mode_invariant (done : list num) (st : mode_state) : Prop := {
  tally_exact : forall k, tallied (frequency st) k = occurrences k done;
  tally_bound : forall k, (occurrences k done <= maxFreq st)%nat;
  mode_place :
    (done = [] /\ maxFreq st = O)
    \/ exists pre post,
         done = pre ++ mode_of st :: post
         /\ occurrences (JsString.of_number (mode_of st)) (pre ++ [mode_of st])
            = maxFreq st
         /\ forall k, (occurrences k pre < maxFreq st)%nat
}.

(** In ascending order: no element is followed by a smaller one. *)
Definition ascending (l : list num) : Prop :=
  StronglySorted (fun a b => Number.lt b a = false) l.

(** The groups and the grade letters, from the lowest band to the highest. *)
Definition group_rank (g : StudentPerformanceGroup) : nat :=
  match g with
  | AtRisk => 0
  | BelowAverage => 1
  | Average => 2
  | AboveAverage => 3
  | HighAchiever => 4
  end.

Definition grade_rank (g : string) : nat :=
  if String.eqb g "A" then 4
  else if String.eqb g "B" then 3
  else if String.eqb g "C" then 2
  else if String.eqb g "D" then 1
  else 0.

(** The rows a sheet name selects: [rawSheetData[sheet] || []]. *)
Definition rows_of (rawSheetData : JsObject.t (list RawRow)) (sheet : string)
  : list RawRow :=
  match JsObject.get rawSheetData sheet with
  | Some rows => rows
  | None => []
  end.

(** The [sheetName] a row of the sheet [sheet] is given: an empty sheet
    name is replaced by ['Unknown']. *)
Definition sheet_label (sheet : string) : string :=
  if JsString.truthy sheet then sheet else "Unknown".

(** A record with its [id] left out. *)
Definition without_id (s : StudentData.t) : StudentData.t :=
  {| StudentData.id := "";
     StudentData.name := StudentData.name s;
     StudentData.class := StudentData.class s;
     StudentData.components := StudentData.components s;
     StudentData.totalScore := StudentData.totalScore s;
     StudentData.maxPossibleScore := StudentData.maxPossibleScore s;
     StudentData.percentage := StudentData.percentage s;
     StudentData.group := StudentData.group s;
     StudentData.originalRow := StudentData.originalRow s;
     StudentData.sheetName := StudentData.sheetName s |}.

(** What an analysis displays, its list of students left out. *)
Definition displayed (a : FullAnalysis.t) : AnalysisResult.t :=
  {| AnalysisResult.summary := FullAnalysis.summary a;
     AnalysisResult.componentStats := FullAnalysis.componentStats a;
     AnalysisResult.strongestComponent := FullAnalysis.strongestComponent a;
     AnalysisResult.weakestComponent := FullAnalysis.weakestComponent a |}.

(** No hyphen occurs in the string. *)
Fixpoint hyphen_free (s : string) : bool :=
  match s with
  | EmptyString => true
  | String c r => negb (Ascii.eqb c "-") && hyphen_free r
  end.

(** The selection of one sheet, and the state in which a sheet filter has
    been chosen after a mapping was confirmed. *)
Definition filtered_by (sheet : string) (mapping : ColumnMapping.t)
  (st : AppState.t) : AppState.t :=
  setSheetFilter sheet (onMappingConfirmed mapping st).

Definition only_sheet (sheet : string) (mapping : ColumnMapping.t)
  (st : AppState.t) : AppState.t :=
  onMappingConfirmed mapping (onSheetsConfirmed [sheet] st).

(** A state with two sheets, used in the examples. *)
Definition two_sheets : AppState.t :=
  {| AppState.step := 3;
     AppState.rawSheetData :=
       [("S1", [quiz_row; nameless_row]); ("S2", [final_row])]%string;
     AppState.selectedSheetNames := ["S1"; "S2"]%string;
     AppState.allStudents := [];
     AppState.sheetFilter := "All";
     AppState.totalColName := "Overall Score";
     AppState.activeTab := dashboard |}.


(** The amber badge, the style [getGroupBadgeStyle] keeps for [Below]. *)
Definition amber_badge : string :=
  "bg-amber-50 text-amber-700 ring-1 ring-amber-600/20".

(** * Properties *)

(** ** Facts about binary64 comparison and arithmetic *)

Module NumberFacts.

Lemma compare_cont_swap (p q : positive) :
  PosDef.Pos.compare_cont Eq q p = CompOpp (PosDef.Pos.compare_cont Eq p q).
Proof. symmetry. exact (Pos.compare_cont_antisym p q Eq). Qed.

Lemma compare_antisym (a b : num) (c : comparison) :
  SFcompare a b = Some c -> SFcompare b a = Some (CompOpp c).
Proof.
  destruct a as [sa | sa | | sa ma ea], b as [sb | sb | | sb mb eb];
    simpl; try discriminate;
    try (destruct sa; intros [= <-]; reflexivity);
    try (destruct sb; intros [= <-]; reflexivity);
    try (intros [= <-]; reflexivity).
  - destruct sa, sb; intros [= <-]; reflexivity.
  - intros [= <-]. f_equal.
    rewrite (Z.compare_antisym ea eb), (compare_cont_swap ma mb).
    destruct sa, sb; simpl; try reflexivity;
      destruct (ea ?= eb); simpl; reflexivity.
Qed.

Lemma compare_none (a b : num) :
  SFcompare a b = None -> Number.isNaN a = true \/ Number.isNaN b = true.
Proof.
  destruct a, b; simpl; auto; discriminate.
Qed.

(** [a >= b] fails exactly when [a < b] or one of them is NaN. *)
Lemma ge_false_iff (a b : num) :
  Number.ge a b = false <->
  Number.lt a b = true \/ Number.isNaN a = true \/ Number.isNaN b = true.
Proof.
  unfold Number.ge, Number.lt, SFleb, SFltb.
  destruct (SFcompare b a) as [c |] eqn:E.
  - rewrite (compare_antisym _ _ _ E).
    assert (Ha : Number.isNaN a = false) by (destruct a, b; simpl in *; congruence).
    assert (Hb : Number.isNaN b = false) by (destruct a, b; simpl in *; congruence).
    rewrite Ha, Hb.
    destruct c; simpl; split; intros H; try discriminate; auto;
      destruct H as [H | [H | H]]; discriminate.
  - split; intros _; [| reflexivity].
    right. destruct (compare_none _ _ E); auto.
Qed.

Lemma ge_not_nan (a b : num) :
  Number.ge a b = true -> Number.isNaN a = false.
Proof.
  unfold Number.ge, SFleb.
  destruct a, b; simpl; try discriminate; reflexivity.
Qed.

Lemma lt_not_nan (a b : num) :
  Number.lt a b = true -> Number.isNaN a = false.
Proof.
  unfold Number.lt, SFltb.
  destruct a, b; simpl; try discriminate; reflexivity.
Qed.

Lemma lt_not_ge (a b : num) :
  Number.lt a b = true -> Number.ge a b = false.
Proof.
  intros H. apply ge_false_iff. auto.
Qed.

(** Against a constant, [a >= b] is false, for a number [a], only when
    [a < b]. *)
Lemma not_ge_lt (a b : num) :
  Number.isNaN a = false -> Number.isNaN b = false ->
  Number.ge a b = false -> Number.lt a b = true.
Proof.
  intros Ha Hb H. apply ge_false_iff in H.
  destruct H as [H | [H | H]]; congruence.
Qed.

Lemma mul_comm (a b : num) : Number.mul a b = Number.mul b a.
Proof.
  unfold Number.mul.
  destruct a as [sa | sa | | sa ma ea], b as [sb | sb | | sb mb eb];
    simpl; try reflexivity; try (rewrite xorb_comm; reflexivity).
  rewrite xorb_comm, Pos.mul_comm, Z.add_comm. reflexivity.
Qed.

End NumberFacts.

Module OrderFacts.

Lemma compare_key (a b : num) :
  Number.isNaN a = false -> Number.isNaN b = false ->
  exists c, SFcompare a b = Some c /\
    (c = Lt <-> NumberOrder.key_lt (NumberOrder.key a) (NumberOrder.key b)) /\
    (c = Gt <-> NumberOrder.key_lt (NumberOrder.key b) (NumberOrder.key a)) /\
    (c = Eq <-> NumberOrder.key a = NumberOrder.key b).
Proof.
  intros Ha Hb.
  destruct a as [sa | sa | | sa ma ea], b as [sb | sb | | sb mb eb];
    try discriminate; simpl; eexists; (split; [reflexivity |]).
  all: try (destruct sa; try destruct sb; simpl;
            repeat split; intros H; try discriminate; try reflexivity;
              try lia; try (injection H; lia); fail).
  all: try (destruct sb; simpl;
            repeat split; intros H; try discriminate; try reflexivity;
              try lia; try (injection H; lia); fail).
  change (PosDef.Pos.compare_cont Eq ma mb) with (Pos.compare ma mb).
  destruct sa, sb; simpl;
    destruct (Z.compare_spec ea eb); destruct (Pos.compare_spec ma mb); simpl;
    repeat split; intros H'; try discriminate; try reflexivity; try lia;
    try (injection H'; lia); try (f_equal; lia); try (repeat f_equal; lia).
Qed.

Lemma lt_not_nan_r (a b : num) :
  Number.lt a b = true -> Number.isNaN b = false.
Proof.
  unfold Number.lt, SFltb. destruct a, b; simpl; try discriminate; reflexivity.
Qed.

Lemma lt_key_iff (a b : num) :
  Number.isNaN a = false -> Number.isNaN b = false ->
  (Number.lt a b = true <-> NumberOrder.key_lt (NumberOrder.key a) (NumberOrder.key b)).
Proof.
  intros Ha Hb. destruct (compare_key a b Ha Hb) as (c & E & HLt & _ & _).
  unfold Number.lt, SFltb. rewrite E. rewrite <- HLt.
  destruct c; split; intros H; congruence.
Qed.

Lemma le_key_iff (a b : num) :
  Number.isNaN a = false -> Number.isNaN b = false ->
  (Number.le a b = true <-> NumberOrder.key_lt (NumberOrder.key a) (NumberOrder.key b) \/ NumberOrder.key a = NumberOrder.key b).
Proof.
  intros Ha Hb. destruct (compare_key a b Ha Hb) as (c & E & HLt & HGt & HEq).
  unfold Number.le, SFleb. rewrite E. rewrite <- HLt, <- HEq.
  destruct c; split; intros H; auto; try discriminate;
    destruct H; discriminate.
Qed.

Lemma key_lt_trans (k1 k2 k3 : Z * Z * Z) :
  NumberOrder.key_lt k1 k2 -> NumberOrder.key_lt k2 k3 -> NumberOrder.key_lt k1 k3.
Proof.
  destruct k1 as [[c1 x1] y1], k2 as [[c2 x2] y2], k3 as [[c3 x3] y3].
  unfold NumberOrder.key_lt. lia.
Qed.

Lemma key_total (k1 k2 : Z * Z * Z) :
  NumberOrder.key_lt k1 k2 \/ k1 = k2 \/ NumberOrder.key_lt k2 k1.
Proof.
  destruct k1 as [[c1 x1] y1], k2 as [[c2 x2] y2]. unfold NumberOrder.key_lt.
  destruct (Z.lt_total c1 c2) as [H | [H | H]]; [lia | | lia].
  destruct (Z.lt_total x1 x2) as [H1 | [H1 | H1]]; [lia | | lia].
  destruct (Z.lt_total y1 y2) as [H2 | [H2 | H2]]; [lia | | lia].
  right; left. congruence.
Qed.

Lemma lt_trans (a b c : num) :
  Number.lt a b = true -> Number.lt b c = true -> Number.lt a c = true.
Proof.
  intros Hab Hbc.
  pose proof (NumberFacts.lt_not_nan _ _ Hab) as Ha.
  pose proof (lt_not_nan_r _ _ Hab) as Hb.
  pose proof (lt_not_nan_r _ _ Hbc) as Hc.
  apply lt_key_iff in Hab, Hbc; auto. apply lt_key_iff; auto.
  eapply key_lt_trans; eauto.
Qed.

(** [a >= b] and [b >= c] give [a >= c]. *)
Lemma ge_trans (a b c : num) :
  Number.ge a b = true -> Number.ge b c = true -> Number.ge a c = true.
Proof.
  unfold Number.ge. fold (Number.le b a) (Number.le c b) (Number.le c a).
  intros Hab Hbc.
  assert (Ha : Number.isNaN a = false)
    by (unfold Number.le, SFleb in Hab; destruct a, b; simpl in *; congruence).
  assert (Hb : Number.isNaN b = false)
    by (unfold Number.le, SFleb in Hab; destruct a, b; simpl in *; congruence).
  assert (Hc : Number.isNaN c = false)
    by (unfold Number.le, SFleb in Hbc; destruct b, c; simpl in *; congruence).
  apply le_key_iff in Hab, Hbc; auto. apply le_key_iff; auto.
  destruct Hab as [Hab | Hab], Hbc as [Hbc | Hbc].
  - left. eapply key_lt_trans; eauto.
  - left. congruence.
  - left. congruence.
  - right. congruence.
Qed.

End OrderFacts.

(** ** The classifier *)

Section Classifier.

Local Abbreviation n := Number.of_Z.

Variable p : num.

Lemma group_cases :
  determineGroup p =
    if Number.ge p (n 90) then HighAchiever
    else if Number.ge p (n 75) then AboveAverage
    else if Number.ge p (n 60) then Average
    else if Number.ge p (n 50) then BelowAverage
    else AtRisk.
Proof. reflexivity. Qed.

(** Below a threshold means below every higher one. *)
Lemma below_higher (c d : Z) :
  Number.lt (n c) (n d) = true ->
  Number.lt p (n c) = true -> Number.ge p (n d) = false.
Proof.
  intros Hcd Hp. apply NumberFacts.lt_not_ge.
  eapply OrderFacts.lt_trans; eauto.
Qed.

(** Not below a threshold, for a number, means at or above it. *)
Lemma band_floor (c d : Z) :
  Number.isNaN (n d) = false ->
  Number.ge p (n c) = true -> Number.ge p (n d) = false ->
  Number.lt p (n d) = true.
Proof.
  intros Hn Hc Hd. apply NumberFacts.not_ge_lt; auto.
  eapply NumberFacts.ge_not_nan; eauto.
Qed.

Lemma group_bands :
  (determineGroup p = HighAchiever <-> Number.ge p (n 90) = true) /\
  (determineGroup p = AboveAverage <->
     Number.le (n 75) p = true /\ Number.lt p (n 90) = true) /\
  (determineGroup p = Average <->
     Number.le (n 60) p = true /\ Number.lt p (n 75) = true) /\
  (determineGroup p = BelowAverage <->
     Number.le (n 50) p = true /\ Number.lt p (n 60) = true) /\
  (determineGroup p = AtRisk <->
     Number.ge p (n 90) = false /\
     ~ (Number.le (n 75) p = true /\ Number.lt p (n 90) = true) /\
     ~ (Number.le (n 60) p = true /\ Number.lt p (n 75) = true) /\
     ~ (Number.le (n 50) p = true /\ Number.lt p (n 60) = true)).
Proof.
  change (Number.le (n 75) p) with (Number.ge p (n 75)).
  change (Number.le (n 60) p) with (Number.ge p (n 60)).
  change (Number.le (n 50) p) with (Number.ge p (n 50)).
  rewrite group_cases.
  pose proof (below_higher 75 90 eq_refl) as L75.
  pose proof (below_higher 60 75 eq_refl) as L60.
  pose proof (below_higher 60 90 eq_refl) as L60'.
  pose proof (band_floor 75 90 eq_refl) as F90.
  pose proof (band_floor 60 75 eq_refl) as F75.
  pose proof (band_floor 50 60 eq_refl) as F60.
  pose proof (NumberFacts.lt_not_ge p (n 90)) as N90.
  pose proof (NumberFacts.lt_not_ge p (n 75)) as N75.
  pose proof (NumberFacts.lt_not_ge p (n 60)) as N60.
  destruct (Number.ge p (n 90)), (Number.ge p (n 75)),
    (Number.ge p (n 60)), (Number.ge p (n 50)),
    (Number.lt p (n 90)), (Number.lt p (n 75)), (Number.lt p (n 60));
    intuition congruence.
Qed.

Lemma grade_cases :
  determineGrade p =
    if Number.ge p (n 90) then "A"%string
    else if Number.ge p (n 80) then "B"%string
    else if Number.ge p (n 70) then "C"%string
    else if Number.ge p (n 60) then "D"%string
    else "F"%string.
Proof. reflexivity. Qed.

Lemma grade_bands :
  (determineGrade p = "A"%string <-> Number.ge p (n 90) = true) /\
  (determineGrade p = "B"%string <->
     Number.le (n 80) p = true /\ Number.lt p (n 90) = true) /\
  (determineGrade p = "C"%string <->
     Number.le (n 70) p = true /\ Number.lt p (n 80) = true) /\
  (determineGrade p = "D"%string <->
     Number.le (n 60) p = true /\ Number.lt p (n 70) = true) /\
  (determineGrade p = "F"%string <->
     Number.ge p (n 90) = false /\
     ~ (Number.le (n 80) p = true /\ Number.lt p (n 90) = true) /\
     ~ (Number.le (n 70) p = true /\ Number.lt p (n 80) = true) /\
     ~ (Number.le (n 60) p = true /\ Number.lt p (n 70) = true)).
Proof.
  change (Number.le (n 80) p) with (Number.ge p (n 80)).
  change (Number.le (n 70) p) with (Number.ge p (n 70)).
  change (Number.le (n 60) p) with (Number.ge p (n 60)).
  rewrite grade_cases.
  pose proof (below_higher 80 90 eq_refl) as L80.
  pose proof (below_higher 70 80 eq_refl) as L70.
  pose proof (below_higher 70 90 eq_refl) as L70'.
  pose proof (band_floor 80 90 eq_refl) as F90.
  pose proof (band_floor 70 80 eq_refl) as F80.
  pose proof (band_floor 60 70 eq_refl) as F70.
  pose proof (NumberFacts.lt_not_ge p (n 90)) as N90.
  pose proof (NumberFacts.lt_not_ge p (n 80)) as N80.
  pose proof (NumberFacts.lt_not_ge p (n 70)) as N70.
  destruct (Number.ge p (n 90)), (Number.ge p (n 80)),
    (Number.ge p (n 70)), (Number.ge p (n 60)),
    (Number.lt p (n 90)), (Number.lt p (n 80)), (Number.lt p (n 70));
    intuition congruence.
Qed.

(** The letter grade against the pass mark and NaN. *)
Lemma grade_pass :
  let g letter := Nat.b2n (String.eqb (determineGrade p) letter) in
  (g "A"%string + g "B"%string + g "C"%string + g "D"%string
     + g "F"%string = 1)%nat /\
  (Nat.b2n (Number.ge p (n 60))
     = g "A"%string + g "B"%string + g "C"%string + g "D"%string)%nat /\
  (Nat.b2n (Number.lt p (n 60)) + Nat.b2n (Number.isNaN p)
     = g "F"%string)%nat.
Proof.
  rewrite grade_cases.
  pose proof (fun H => OrderFacts.ge_trans p (n 90) (n 60) H eq_refl) as T90.
  pose proof (fun H => OrderFacts.ge_trans p (n 80) (n 60) H eq_refl) as T80.
  pose proof (fun H => OrderFacts.ge_trans p (n 70) (n 60) H eq_refl) as T70.
  pose proof (proj1 (NumberFacts.ge_false_iff p (n 60))) as G60.
  pose proof (NumberFacts.lt_not_ge p (n 60)) as N60.
  pose proof (NumberFacts.lt_not_nan p (n 60)) as M60.
  pose proof (NumberFacts.ge_not_nan p (n 60)) as K60.
  change (Number.isNaN (n 60)) with false in G60.
  destruct (Number.ge p (n 90)), (Number.ge p (n 80)),
    (Number.ge p (n 70)), (Number.ge p (n 60)),
    (Number.lt p (n 60)), (Number.isNaN p); simpl;
    intuition congruence.
Qed.

End Classifier.

(** C3: [determineGroup] and [determineGrade] are total, evaluated first
    match first, with inclusive lower bounds: for every number [p], also
    below 0, above 100, infinite or NaN, the band is High Achiever iff
    [p >= 90], Above Average iff [75 <= p < 90], Average iff [60 <= p < 75],
    Below Average iff [50 <= p < 60] and At Risk otherwise; the grade is A
    iff [p >= 90], B iff [80 <= p < 90], C iff [70 <= p < 80], D iff
    [60 <= p < 70] and F otherwise. *)
Theorem classifier_bands_first_match (p : num) :
  let n := Number.of_Z in
  ((determineGroup p = HighAchiever <-> Number.ge p (n 90) = true) /\
   (determineGroup p = AboveAverage <->
      Number.le (n 75) p = true /\ Number.lt p (n 90) = true) /\
   (determineGroup p = Average <->
      Number.le (n 60) p = true /\ Number.lt p (n 75) = true) /\
   (determineGroup p = BelowAverage <->
      Number.le (n 50) p = true /\ Number.lt p (n 60) = true) /\
   (determineGroup p = AtRisk <->
      Number.ge p (n 90) = false /\
      ~ (Number.le (n 75) p = true /\ Number.lt p (n 90) = true) /\
      ~ (Number.le (n 60) p = true /\ Number.lt p (n 75) = true) /\
      ~ (Number.le (n 50) p = true /\ Number.lt p (n 60) = true))) /\
  ((determineGrade p = "A"%string <-> Number.ge p (n 90) = true) /\
   (determineGrade p = "B"%string <->
      Number.le (n 80) p = true /\ Number.lt p (n 90) = true) /\
   (determineGrade p = "C"%string <->
      Number.le (n 70) p = true /\ Number.lt p (n 80) = true) /\
   (determineGrade p = "D"%string <->
      Number.le (n 60) p = true /\ Number.lt p (n 70) = true) /\
   (determineGrade p = "F"%string <->
      Number.ge p (n 90) = false /\
      ~ (Number.le (n 80) p = true /\ Number.lt p (n 90) = true) /\
      ~ (Number.le (n 70) p = true /\ Number.lt p (n 80) = true) /\
      ~ (Number.le (n 60) p = true /\ Number.lt p (n 70) = true))).
Proof.
  split; [apply group_bands | apply grade_bands].
Qed.

(** C7: on the empty sequence [calculateMean], [calculateMedian],
    [calculateMode], [calculateStdDev] (whatever mean is supplied),
    [calculateMin] and [calculateMax] all return the sentinel 0; being
    total functions, none of them raises. *)
Theorem empty_sequence_sentinel :
  calculateMean [] = Number.zero /\
  calculateMedian [] = Number.zero /\
  calculateMode [] = Number.zero /\
  (forall mean, calculateStdDev [] mean = Number.zero) /\
  calculateMin [] = Number.zero /\
  calculateMax [] = Number.zero.
Proof.
  repeat split.
Qed.

(** ** The population partition of the summary *)

Lemma count_cons {A : Type} (f : A -> bool) (x : A) (l : list A) :
  count f (x :: l) = (Nat.b2n (f x) + count f l)%nat.
Proof.
  unfold count. simpl. destruct (f x); reflexivity.
Qed.

(** C10, as stated, fails: the normalizer turns [unbounded_row] into one
    student whose percentage is NaN, and for that population
    [passCount + failCount] is 0, not 1, while the F bin is 1. *)
Lemma partition_counterexample :
  let students := processStudents two_quiz_mapping [unbounded_row] in
  let s := AnalysisResult.summary (performFullAnalysis students) in
  length students = 1%nat /\
  (AnalysisSummary.passCount s + AnalysisSummary.failCount s)%nat <> length students /\
  AnalysisSummary.failCount s <> GradeDist.F (AnalysisSummary.gradeDist s).
Proof.
  vm_compute. repeat split; discriminate.
Qed.

(** C10 (amended): for every student list the five grade bins sum to the
    number of students and [passCount] is the sum of the A, B, C and D
    bins; [failCount] is the F bin less the students whose percentage is
    NaN, and [passCount + failCount] is the number of students less those
    same students.  These are the equalities of the claim whenever no
    percentage is NaN. *)
Theorem summary_partitions_population (students : list StudentData.t) :
  let s := AnalysisResult.summary (performFullAnalysis students) in
  let g := AnalysisSummary.gradeDist s in
  (GradeDist.A g + GradeDist.B g + GradeDist.C g + GradeDist.D g + GradeDist.F g
     = length students)%nat /\
  (AnalysisSummary.passCount s
     = GradeDist.A g + GradeDist.B g + GradeDist.C g + GradeDist.D g)%nat /\
  (AnalysisSummary.failCount s + nanCount students = GradeDist.F g)%nat /\
  (AnalysisSummary.passCount s + AnalysisSummary.failCount s + nanCount students
     = length students)%nat.
Proof.
  change (AnalysisResult.summary (performFullAnalysis students))
    with (summarize students).
  unfold summarize, nanCount.
  cbn [AnalysisSummary.gradeDist AnalysisSummary.passCount
       AnalysisSummary.failCount GradeDist.A GradeDist.B GradeDist.C
       GradeDist.D GradeDist.F].
  induction students as [| st rest IH].
  - repeat split.
  - rewrite !count_cons. cbn [length].
    destruct (grade_pass (StudentData.percentage st)) as (H1 & H2 & H3).
    cbv zeta in H1, H2, H3. lia.
Qed.

(** ** Standard deviation *)

(** C6: for a non-empty sequence and any supplied mean, [calculateStdDev]
    is the population standard deviation, the square root of the sum of
    squared deviations divided by [N]; on [2,4,4,4,5,5,7,9] with mean 5 it
    is exactly 2, where dividing by [N - 1] would not give 2. *)
Theorem stdDev_is_population_formula :
  (forall (xs : list num) (m : num),
      xs <> [] -> calculateStdDev xs m = population_std_dev xs m) /\
  calculateStdDev eight_scores (Number.of_Z 5) = Number.of_Z 2 /\
  sample_std_dev eight_scores (Number.of_Z 5) <> Number.of_Z 2.
Proof.
  split; [| split].
  - intros xs m Hne. destruct xs as [| x r]; [contradiction |].
    unfold calculateStdDev, population_std_dev, calculateMean, sum,
      squared_deviations.
    cbn [map length]. rewrite length_map. reflexivity.
  - vm_compute. reflexivity.
  - vm_compute. discriminate.
Qed.

Lemma stdDev_is_population_formula_witness :
  calculateStdDev eight_scores (Number.of_Z 5)
  = population_std_dev eight_scores (Number.of_Z 5).
Proof.
  apply (proj1 stdDev_is_population_formula). discriminate.
Defined.

(** ** Correlation *)

Lemma fold_left_map {A B C : Type} (g : A -> B) (f : C -> B -> C) :
  forall (l : list A) (c : C),
    fold_left f (map g l) c = fold_left (fun c a => f c (g a)) l c.
Proof.
  induction l as [| a l IH]; intros c; [reflexivity |].
  cbn [map fold_left]. apply IH.
Qed.

Section CorrelationLoop.

(** Reading two arrays by index over the length of the first is a
    traversal of their pairs. *)
Lemma indexed_fold {S : Type} (f : num -> num -> S -> S) :
  forall (x y : list num) (st : S),
    length x = length y ->
    fold_left (fun st i => f (JsArray.at_ x i) (JsArray.at_ y i) st)
              (seq 0 (length x)) st
    = fold_left (fun st ab => f (fst ab) (snd ab) st) (combine x y) st.
Proof.
  induction x as [| a x IH]; intros [| b y] st Hlen;
    try discriminate; [reflexivity |].
  cbn [length seq fold_left combine fst snd].
  rewrite <- seq_shift, fold_left_map.
  unfold JsArray.at_ at 1 2. cbn [nth].
  apply (IH y). now injection Hlen.
Qed.

Variable P : num -> num -> num.
Variables Q R : num -> num.

(** Three accumulators updated together are three running sums. *)
Lemma accumulators_split :
  forall (l : list (num * num)) (st : corr_state),
    fold_left
      (fun st ab =>
         {| numerator := Number.add (numerator st) (P (fst ab) (snd ab));
            denomX := Number.add (denomX st) (Q (fst ab));
            denomY := Number.add (denomY st) (R (snd ab)) |}) l st
    = {| numerator :=
           fold_left Number.add (map (fun ab => P (fst ab) (snd ab)) l)
                     (numerator st);
         denomX := fold_left Number.add (map (fun ab => Q (fst ab)) l) (denomX st);
         denomY := fold_left Number.add (map (fun ab => R (snd ab)) l) (denomY st) |}.
Proof.
  induction l as [| ab l IH]; intros st.
  - destruct st; reflexivity.
  - cbn [fold_left map]. rewrite IH. reflexivity.
Qed.

End CorrelationLoop.

Lemma map_combine_fst {A B C : Type} (f : A -> C) :
  forall (x : list A) (y : list B),
    length x = length y -> map (fun ab => f (fst ab)) (combine x y) = map f x.
Proof.
  induction x as [| a x IH]; intros [| b y] H; try discriminate; [reflexivity |].
  cbn [combine map fst]. f_equal. apply IH. now injection H.
Qed.

Lemma map_combine_snd {A B C : Type} (f : B -> C) :
  forall (x : list A) (y : list B),
    length x = length y -> map (fun ab => f (snd ab)) (combine x y) = map f y.
Proof.
  induction x as [| a x IH]; intros [| b y] H; try discriminate; [reflexivity |].
  cbn [combine map snd]. f_equal. apply IH. now injection H.
Qed.

Lemma combine_map {A B C D : Type} (f : A -> C) (g : B -> D) :
  forall (x : list A) (y : list B),
    combine (map f x) (map g y) = map (fun ab => (f (fst ab), g (snd ab))) (combine x y).
Proof.
  induction x as [| a x IH]; intros [| b y]; try reflexivity.
  cbn [combine map fst snd]. f_equal. apply IH.
Qed.

(** The loop of [calculateCorrelation] computes the three sums of the
    Pearson formula. *)
Lemma corr_loop_sums (x y : list num) :
  length x = length y ->
  corr_loop x y =
    {| numerator := sum (products (deviations x) (deviations y));
       denomX := sum (squares (deviations x));
       denomY := sum (squares (deviations y)) |}.
Proof.
  intros Hlen. unfold corr_loop, JsArray.for_loop. rewrite Nat.sub_0_r.
  set (mx := calculateMean x). set (my := calculateMean y).
  set (P := fun a b => Number.mul (Number.sub a mx) (Number.sub b my)).
  set (Q := fun a => Number.mul (Number.sub a mx) (Number.sub a mx)).
  set (R := fun b => Number.mul (Number.sub b my) (Number.sub b my)).
  change (fun st i => corr_step x y mx my i st)
    with (fun st i =>
            (fun a b st =>
               {| numerator := Number.add (numerator st) (P a b);
                  denomX := Number.add (denomX st) (Q a);
                  denomY := Number.add (denomY st) (R b) |})
              (JsArray.at_ x i) (JsArray.at_ y i) st).
  rewrite (indexed_fold _ x y _ Hlen).
  refine (eq_trans (accumulators_split P Q R (combine x y) _) _).
  cbn [numerator denomX denomY].
  unfold sum, products, squares, deviations. fold mx my.
  rewrite combine_map, !map_map. cbn [fst snd].
  rewrite (map_combine_fst Q x y Hlen), (map_combine_snd R x y Hlen).
  reflexivity.
Qed.

Lemma corr_loop_exchange (x y : list num) :
  length x = length y -> corr_loop y x = exchange (corr_loop x y).
Proof.
  intros Hlen. unfold corr_loop, JsArray.for_loop. rewrite <- Hlen.
  generalize (seq 0 (length x - 0)).
  change {| numerator := Number.zero; denomX := Number.zero; denomY := Number.zero |}
    with (exchange {| numerator := Number.zero; denomX := Number.zero;
                      denomY := Number.zero |}) at 1.
  generalize {| numerator := Number.zero; denomX := Number.zero;
                denomY := Number.zero |}.
  intros st l. revert st.
  induction l as [| i l IH]; intros st; [reflexivity |].
  cbn [fold_left]. rewrite <- IH. f_equal.
  unfold corr_step, exchange. cbn [numerator denomX denomY].
  rewrite (NumberFacts.mul_comm (Number.sub (JsArray.at_ y i) (calculateMean y))).
  reflexivity.
Qed.

Lemma calculateCorrelation_exchange (x y : list num) :
  calculateCorrelation x y = calculateCorrelation y x.
Proof.
  unfold calculateCorrelation.
  destruct (Nat.eqb (length x) (length y)) eqn:E.
  - apply Nat.eqb_eq in E. rewrite <- E, Nat.eqb_refl.
    rewrite (corr_loop_exchange x y E). unfold exchange.
    cbn [numerator denomX denomY].
    rewrite (NumberFacts.mul_comm (denomY (corr_loop x y))). reflexivity.
  - rewrite (Nat.eqb_sym (length y) (length x)), E. reflexivity.
Qed.

(** C8: [calculateCorrelation(xs, ys)] and [calculateCorrelation(ys, xs)]
    are the same binary64 value, for all sequences: the same number with
    the same sign of zero, or NaN both. *)
Theorem correlation_symmetric (xs ys : list num) :
  calculateCorrelation xs ys = calculateCorrelation ys xs.
Proof.
  exact (calculateCorrelation_exchange xs ys).
Qed.

(** [calculateCorrelation] is the Pearson formula behind its guards. *)
Lemma calculateCorrelation_pearson (x y : list num) :
  calculateCorrelation x y =
    if negb (Nat.eqb (length x) (length y)) || Nat.eqb (length x) 0
    then Number.zero
    else if Number.strict_eq (pearson_denominator x y) Number.zero
            || Number.isNaN (pearson_denominator x y)
         then Number.zero
         else pearson x y.
Proof.
  unfold calculateCorrelation.
  destruct (Nat.eqb (length x) (length y)) eqn:E; [| reflexivity].
  apply Nat.eqb_eq in E. cbn [negb orb].
  destruct (Nat.eqb (length x) 0); [reflexivity |].
  rewrite (corr_loop_sums x y E). reflexivity.
Qed.

(** *** Sequences without computed spread *)

Lemma sub_self (c : num) : zero_or_nan (Number.sub c c).
Proof.
  unfold zero_or_nan, Number.sub.
  destruct c as [[|] | [|] | | s m e]; cbn [SFsub]; auto.
  left. rewrite Z.sub_diag. reflexivity.
Qed.

Lemma square_zero_or_nan (d : num) :
  zero_or_nan d -> zero_or_nan (Number.mul d d).
Proof.
  intros [-> | ->]; [left | right]; reflexivity.
Qed.

Lemma add_zero_or_nan (a b : num) :
  zero_or_nan a -> zero_or_nan b -> zero_or_nan (Number.add a b).
Proof.
  intros [-> | ->] [-> | ->]; [left | right | right | right]; reflexivity.
Qed.

Lemma sum_zero_or_nan (l : list num) :
  Forall zero_or_nan l -> zero_or_nan (sum l).
Proof.
  unfold sum. assert (H0 : zero_or_nan Number.zero) by (left; reflexivity).
  revert H0. generalize Number.zero.
  induction l as [| v l IH]; intros acc Hacc Hl; [exact Hacc |].
  cbn [fold_left]. inversion Hl; subst.
  apply IH; [apply add_zero_or_nan |]; assumption.
Qed.

(** Every element equal to the computed mean: the sum of squared
    deviations is zero or NaN. *)
Lemma no_spread (xs : list num) (c : num) :
  (forall x, In x xs -> x = c) -> calculateMean xs = c ->
  zero_or_nan (sum (squares (deviations xs))).
Proof.
  intros Hconst Hmean. apply sum_zero_or_nan.
  unfold squares, deviations. rewrite Hmean, map_map.
  apply Forall_forall. intros v Hv.
  apply in_map_iff in Hv. destruct Hv as (x & <- & Hx).
  rewrite (Hconst x Hx). apply square_zero_or_nan, sub_self.
Qed.

Lemma denominator_guard (s t : num) :
  zero_or_nan s ->
  Number.strict_eq (Number.sqrt (Number.mul s t)) Number.zero
  || Number.isNaN (Number.sqrt (Number.mul s t)) = true.
Proof.
  intros [-> | ->]; destruct t as [[|] | [|] | | [|] m e]; reflexivity.
Qed.

Lemma no_spread_correlation (xs ys : list num) (c : num) :
  (forall x, In x xs -> x = c) -> calculateMean xs = c ->
  calculateCorrelation xs ys = Number.zero.
Proof.
  intros Hconst Hmean. rewrite calculateCorrelation_pearson.
  destruct (negb _ || _); [reflexivity |].
  unfold pearson_denominator.
  now rewrite (denominator_guard _ _ (no_spread xs c Hconst Hmean)).
Qed.

(** C4, as stated, fails: [0.1, 0.1, 0.1] is constant, yet its computed
    mean is 0.10000000000000002 and its correlation with [1, 2, 4] is
    1.18687833744435e-16, not the sentinel 0. *)
Lemma correlation_constant_counterexample :
  let xs := repeat tenth 3 in
  let ys := map Number.of_Z [1; 2; 4] in
  JsString.of_number (calculateMean xs) = "0.10000000000000002"%string /\
  JsString.of_number (calculateCorrelation xs ys) = "1.18687833744435e-16"%string /\
  Number.strict_eq (calculateCorrelation xs ys) Number.zero = false.
Proof.
  vm_compute. repeat split.
Qed.

(** C4 (amended): [calculateCorrelation] never raises and returns the
    sentinel 0 when the lengths differ, when either input is empty, when
    the denominator it computes is zero or NaN, and in particular when
    every element of either sequence equals that sequence's computed mean
    (a constant sequence whose mean is computed without rounding error);
    otherwise it returns the Pearson product-moment coefficient, evaluated
    in double arithmetic. *)
Theorem correlation_sentinel_or_pearson (xs ys : list num) :
  (length xs <> length ys -> calculateCorrelation xs ys = Number.zero) /\
  (xs = [] \/ ys = [] -> calculateCorrelation xs ys = Number.zero) /\
  (Number.strict_eq (pearson_denominator xs ys) Number.zero = true
   \/ Number.isNaN (pearson_denominator xs ys) = true ->
   calculateCorrelation xs ys = Number.zero) /\
  (forall c,
     ((forall x, In x xs -> x = c) /\ calculateMean xs = c)
     \/ ((forall y, In y ys -> y = c) /\ calculateMean ys = c) ->
     calculateCorrelation xs ys = Number.zero) /\
  (length xs = length ys -> xs <> [] ->
   Number.strict_eq (pearson_denominator xs ys) Number.zero = false ->
   Number.isNaN (pearson_denominator xs ys) = false ->
   calculateCorrelation xs ys = pearson xs ys).
Proof.
  repeat split.
  - intros Hlen. rewrite calculateCorrelation_pearson.
    apply Nat.eqb_neq in Hlen. now rewrite Hlen.
  - assert (E : forall l, calculateCorrelation [] l = Number.zero).
    { intros l. rewrite calculateCorrelation_pearson.
      cbn [length Nat.eqb]. now rewrite orb_true_r. }
    intros [-> | ->]; [apply E |].
    rewrite calculateCorrelation_exchange. apply E.
  - intros H. rewrite calculateCorrelation_pearson.
    destruct (negb _ || _); [reflexivity |].
    destruct H as [-> | ->]; [reflexivity | now rewrite orb_true_r].
  - intros c [[Hc Hm] | [Hc Hm]].
    + exact (no_spread_correlation xs ys c Hc Hm).
    + rewrite calculateCorrelation_exchange.
      exact (no_spread_correlation ys xs c Hc Hm).
  - intros Hlen Hne Hz Hn. rewrite calculateCorrelation_pearson.
    apply Nat.eqb_eq in Hlen. rewrite Hlen. cbn [negb orb].
    destruct xs; [contradiction |]. cbn [length Nat.eqb].
    now rewrite Hz, Hn.
Qed.

Lemma correlation_sentinel_or_pearson_witness :
  calculateCorrelation (map Number.of_Z [1; 2; 3; 7]) (map Number.of_Z [1; 2; 4; 5])
  = pearson (map Number.of_Z [1; 2; 3; 7]) (map Number.of_Z [1; 2; 4; 5])
  /\ calculateCorrelation (repeat (Number.of_Z 85) 3) (map Number.of_Z [1; 2; 4])
     = Number.zero.
Proof.
  split.
  - apply (correlation_sentinel_or_pearson
             (map Number.of_Z [1; 2; 3; 7]) (map Number.of_Z [1; 2; 4; 5]));
      [reflexivity | discriminate | vm_compute; reflexivity
      | vm_compute; reflexivity].
  - apply (proj1 (proj2 (proj2 (proj2
             (correlation_sentinel_or_pearson
                (repeat (Number.of_Z 85) 3) (map Number.of_Z [1; 2; 4])))))
             (Number.of_Z 85)).
    left. split; [| vm_compute; reflexivity].
    intros x Hx. cbn [repeat In] in Hx.
    destruct Hx as [<- | [<- | [<- | []]]]; reflexivity.
Defined.

(** ** The row normalizer *)

Module ObjectFacts.

Lemma get_set {V : Type} (o : JsObject.t V) (k k' : string) (v : V) :
  JsObject.get (JsObject.set o k v) k'
  = if String.eqb k k' then Some v else JsObject.get o k'.
Proof.
  induction o as [| [k0 v0] o IH]; cbn [JsObject.set JsObject.get].
  - destruct (String.eqb k k'); reflexivity.
  - destruct (String.eqb k0 k) eqn:E0; cbn [JsObject.get].
    + apply String.eqb_eq in E0. subst k0.
      destruct (String.eqb k k'); reflexivity.
    + rewrite IH. destruct (String.eqb k0 k') eqn:E1; [| reflexivity].
      apply String.eqb_eq in E1. subst k0.
      now rewrite String.eqb_sym, E0.
Qed.

End ObjectFacts.

Lemma cleanVal_coerced (c : cell) : cleanVal c = coerced c.
Proof.
  unfold cleanVal, coerced, parsed.
  destruct c as [s | n | |]; cbn [Cell.truthy]; try reflexivity.
  - destruct s; reflexivity.
  - destruct n as [[|] | [|] | | [|] m e]; reflexivity.
Qed.

Lemma absent_coerced (c : cell) : absent c -> coerced c = Number.zero.
Proof. intros [-> | ->]; reflexivity. Qed.

Section Components.

Variable row : RawRow.

Let value (col : string) : num := coerced (getSmartValue row col).

Lemma component_step_value (st : JsObject.t num * num) (col : string) :
  component_step row st col
  = (JsObject.set (fst st) col (value col), Number.add (snd st) (value col)).
Proof.
  unfold component_step, value. now rewrite cleanVal_coerced.
Qed.

Lemma collect_sum (cols : list string) (st : JsObject.t num * num) :
  snd (fold_left (component_step row) cols st)
  = fold_left Number.add (map value cols) (snd st).
Proof.
  revert st. induction cols as [| col cols IH]; intros st; [reflexivity |].
  cbn [fold_left map]. rewrite IH, component_step_value. reflexivity.
Qed.

Lemma collect_get (cols : list string) (st : JsObject.t num * num) (k : string) :
  JsObject.get (fst (fold_left (component_step row) cols st)) k
  = if existsb (String.eqb k) cols then Some (value k)
    else JsObject.get (fst st) k.
Proof.
  revert st. induction cols as [| col cols IH]; intros st; [reflexivity |].
  cbn [fold_left existsb]. rewrite IH, component_step_value. cbn [fst].
  rewrite ObjectFacts.get_set.
  destruct (existsb (String.eqb k) cols); [now rewrite orb_true_r |].
  rewrite orb_false_r, (String.eqb_sym k col).
  destruct (String.eqb col k) eqn:E; [| reflexivity].
  apply String.eqb_eq in E. now subst.
Qed.

End Components.

Lemma set_fresh {V : Type} (o : JsObject.t V) (k : string) (v : V) :
  JsObject.get o k = None -> JsObject.set o k v = o ++ [(k, v)].
Proof.
  induction o as [| [k0 v0] o IH]; cbn [JsObject.get JsObject.set app];
    [reflexivity |].
  destruct (String.eqb k0 k); [discriminate |].
  intros H. now rewrite IH.
Qed.

Lemma get_entries {V : Type} (f : string -> V) (cols : list string) (k : string) :
  ~ In k cols -> JsObject.get (map (fun col => (col, f col)) cols) k = None.
Proof.
  induction cols as [| c cols IH]; [reflexivity |].
  cbn [map JsObject.get In]. intros H.
  destruct (String.eqb c k) eqn:E.
  - apply String.eqb_eq in E. tauto.
  - apply IH. tauto.
Qed.

Lemma collect_entries (row : RawRow) (cols : list string) :
  NoDup cols ->
  forall (done : list string) (s : num),
    (forall c, In c cols -> ~ In c done) ->
    fst (fold_left (component_step row) cols
           (map (fun col => (col, coerced (getSmartValue row col))) done, s))
    = map (fun col => (col, coerced (getSmartValue row col))) (done ++ cols).
Proof.
  induction 1 as [| c cols Hc Hnd IH]; intros done s Hfresh.
  - now rewrite app_nil_r.
  - cbn [fold_left]. rewrite component_step_value. cbn [fst snd].
    rewrite set_fresh by (apply get_entries, Hfresh; now left).
    replace (map (fun col => (col, coerced (getSmartValue row col))) done
             ++ [(c, coerced (getSmartValue row c))])
      with (map (fun col => (col, coerced (getSmartValue row col))) (done ++ [c]))
      by (now rewrite map_app).
    rewrite IH.
    + now rewrite <- app_assoc.
    + intros c' Hc' Hin. apply in_app_or in Hin.
      destruct Hin as [Hin | [<- | []]]; [| contradiction].
      apply (Hfresh c'); [now right | exact Hin].
Qed.

Lemma normalize_row_components (mapping : ColumnMapping.t) (row : RawRow) (idx : nat) :
  StudentData.components (normalize_row mapping row idx)
  = fst (collect_components row (ColumnMapping.componentCols mapping)).
Proof.
  unfold normalize_row. destruct (collect_components _ _). reflexivity.
Qed.

Lemma normalize_row_total (mapping : ColumnMapping.t) (row : RawRow) (idx : nat) :
  StudentData.totalScore (normalize_row mapping row idx)
  = resolve_total mapping row
      (snd (collect_components row (ColumnMapping.componentCols mapping))).
Proof.
  unfold normalize_row. destruct (collect_components _ _). reflexivity.
Qed.

Lemma normalize_row_name (mapping : ColumnMapping.t) (row : RawRow) (idx : nat) :
  StudentData.name (normalize_row mapping row idx) = resolve_name mapping row.
Proof.
  unfold normalize_row. destruct (collect_components _ _). reflexivity.
Qed.

(** C2: for every row, mapping and position, each mapped component holds
    the parsed number of its cell, and 0 when the cell is absent or does
    not parse; [totalScore] is the parsed number of the mapped total column
    when that parse succeeds, and the sum of the coerced component values
    when the total column is unmapped or does not parse.  The sum runs
    over the mapped component columns in order; when these are pairwise
    distinct it is the sum of the values of the record's [components].
    Components [Quiz1, Quiz2] = [40, 'junk'] without total column give 40,
    and a total column holding ['85'] gives 85. *)
Theorem normalizer_components_and_total
  (mapping : ColumnMapping.t) (row : RawRow) (idx : nat) :
  let s := normalize_row mapping row idx in
  (forall col, In col (ColumnMapping.componentCols mapping) ->
     JsObject.get (StudentData.components s) col
     = Some (coerced (getSmartValue row col))) /\
  (forall c, absent c \/ Number.isNaN (parsed c) = true ->
     coerced c = Number.zero) /\
  (forall c, Number.isNaN (parsed c) = false -> coerced c = parsed c) /\
  (forall col, total_mapped mapping col ->
     Number.isNaN (parsed (getSmartValue row col)) = false ->
     StudentData.totalScore s = parsed (getSmartValue row col)) /\
  (total_unmapped mapping
   \/ (exists col, total_mapped mapping col
         /\ Number.isNaN (parsed (getSmartValue row col)) = true) ->
   StudentData.totalScore s = component_sum mapping row) /\
  (NoDup (ColumnMapping.componentCols mapping) ->
   component_sum mapping row = sum (map snd (StudentData.components s))) /\
  StudentData.totalScore (normalize_row quiz_mapping quiz_row idx) = Number.of_Z 40 /\
  StudentData.totalScore (normalize_row final_mapping final_row idx) = Number.of_Z 85.
Proof.
  cbv zeta.
  assert (Hsum : snd (collect_components row (ColumnMapping.componentCols mapping))
                 = component_sum mapping row).
  { unfold collect_components. rewrite collect_sum. reflexivity. }
  repeat split.
  - intros col Hin. rewrite normalize_row_components.
    unfold collect_components. rewrite collect_get.
    replace (existsb (String.eqb col) (ColumnMapping.componentCols mapping))
      with true; [reflexivity |].
    symmetry. apply existsb_exists. exists col. split; [exact Hin |].
    apply String.eqb_refl.
  - intros c [Habs | Hnan]; [now apply absent_coerced |].
    unfold coerced. now rewrite Hnan.
  - intros c Hnum. unfold coerced. now rewrite Hnum.
  - intros col [Hcol Hne] Hnum. rewrite normalize_row_total.
    unfold resolve_total. rewrite Hcol.
    destruct col; [contradiction |]. cbn [JsString.truthy].
    fold (parsed (getSmartValue row (String a col))). now rewrite Hnum.
  - intros Hcase. rewrite normalize_row_total, Hsum.
    unfold resolve_total.
    destruct Hcase as [[-> | ->] | (col & [-> Hne] & Hnan)]; try reflexivity.
    destruct col; [contradiction |]. cbn [JsString.truthy].
    fold (parsed (getSmartValue row (String a col))). now rewrite Hnan.
  - intros Hnd. rewrite normalize_row_components. unfold collect_components.
    pose proof (collect_entries row _ Hnd [] Number.zero
                  ltac:(intros c _ [])) as E.
    cbn [map app] in E. rewrite E, map_map. reflexivity.
Qed.

Lemma normalizer_components_and_total_witness :
  JsObject.get (StudentData.components (normalize_row quiz_mapping quiz_row 0))
               "Quiz2"%string = Some Number.zero
  /\ StudentData.totalScore (normalize_row final_mapping final_row 0)
     = parsed (CString "85").
Proof.
  split.
  - apply (proj1 (normalizer_components_and_total quiz_mapping quiz_row 0)).
    cbn [ColumnMapping.componentCols quiz_mapping In]. auto.
  - apply (proj1 (proj2 (proj2 (proj2
             (normalizer_components_and_total final_mapping final_row 0))))
             "Final"%string).
    + split; [reflexivity | discriminate].
    + vm_compute. reflexivity.
Defined.

(** *** The population filter *)

Lemma map_indexed_combine {A B : Type} (f : A -> nat -> B) :
  forall (l : list A) (start : nat),
    map_indexed f start l
    = map (fun ir => f (snd ir) (fst ir)) (combine (seq start (length l)) l).
Proof.
  induction l as [| x l IH]; intros start; [reflexivity |].
  cbn [map_indexed length seq combine map fst snd]. now rewrite IH.
Qed.

Lemma filter_map_commute {A B : Type} (p : B -> bool) (g : A -> B) :
  forall l : list A,
    filter p (map g l) = map g (filter (fun a => p (g a)) l).
Proof.
  induction l as [| a l IH]; [reflexivity |].
  cbn [map filter]. rewrite IH. destruct (p (g a)); reflexivity.
Qed.

Lemma has_valid_name_named (mapping : ColumnMapping.t) (row : RawRow) (idx : nat) :
  has_valid_name (normalize_row mapping row idx) = named mapping row.
Proof.
  unfold has_valid_name, named. rewrite normalize_row_name.
  destruct (resolve_name mapping row); reflexivity.
Qed.

Lemma filter_combine_length {A : Type} (p : A -> bool) :
  forall (l : list A) (start : nat),
    length (filter (fun ir => p (snd ir)) (combine (seq start (length l)) l))
    = count p l.
Proof.
  unfold count.
  induction l as [| x l IH]; intros start; [reflexivity |].
  cbn [length seq combine filter snd]. destruct (p x); cbn [length]; now rewrite IH.
Qed.

Lemma count_complement {A : Type} (p : A -> bool) (l : list A) :
  (count p l + count (fun x => negb (p x)) l = length l)%nat.
Proof.
  unfold count. induction l as [| x l IH]; [reflexivity |].
  cbn [filter length]. destruct (p x); cbn [negb length]; lia.
Qed.

(** *** The code against the name rule of the specification *)

Module NameRule.

Lemma in_all_characters (c : ascii) : In c all_characters.
Proof.
  unfold all_characters. apply in_map_iff. exists (nat_of_ascii c).
  split; [apply ascii_nat_embedding|].
  apply in_seq. pose proof (nat_ascii_bounded c). lia.
Qed.

Lemma for_all_characters (p : ascii -> bool) :
  forallb p all_characters = true -> forall c, p c = true.
Proof.
  intros H c. rewrite forallb_forall in H. apply H, in_all_characters.
Qed.

Lemma white_space_eq (c : ascii) :
  JsString.is_white_space c = Spec.white_space c.
Proof.
  apply Bool.eqb_prop. revert c. apply for_all_characters.
  vm_compute. reflexivity.
Qed.

Lemma lower_white_space (c : ascii) :
  Spec.white_space (JsString.lower_char c) = Spec.white_space c.
Proof.
  apply Bool.eqb_prop. revert c. apply for_all_characters.
  vm_compute. reflexivity.
Qed.

Lemma lower_same_letter (a b : ascii) :
  Ascii.eqb (JsString.lower_char a) (JsString.lower_char b) = Spec.same_letter a b.
Proof.
  apply Bool.eqb_prop. revert b. apply for_all_characters. revert a.
  apply for_all_characters. vm_compute. reflexivity.
Qed.

Lemma strip_end_empty (s : string) :
  Spec.strip_end s = EmptyString <-> Spec.has_text s = false.
Proof.
  destruct s as [|c r]; cbn [Spec.strip_end]; [split; reflexivity|].
  destruct (Spec.has_text (String c r)); split; congruence.
Qed.

Lemma trimEnd_strip (s : string) : JsString.trimEnd s = Spec.strip_end s.
Proof.
  induction s as [|c r IH]; [reflexivity|].
  cbn [JsString.trimEnd Spec.strip_end]. rewrite IH, white_space_eq.
  cbn [Spec.has_text].
  destruct (Spec.strip_end r) as [|c' r'] eqn:E.
  - apply strip_end_empty in E. rewrite E, orb_false_r.
    destruct (Spec.white_space c); reflexivity.
  - assert (H : Spec.has_text r = true).
    { destruct (Spec.has_text r) eqn:T; [reflexivity|].
      apply strip_end_empty in T. congruence. }
    rewrite H, orb_true_r. reflexivity.
Qed.

Lemma trimStart_strip (s : string) : JsString.trimStart s = Spec.strip_start s.
Proof.
  induction s as [|c r IH]; [reflexivity|].
  cbn [JsString.trimStart Spec.strip_start]. rewrite IH, white_space_eq.
  reflexivity.
Qed.

(** [trim] removes the leading and the trailing white space. *)
Lemma trim_strip (s : string) : JsString.trim s = Spec.strip s.
Proof. unfold JsString.trim, Spec.strip. now rewrite trimStart_strip, trimEnd_strip. Qed.

Lemma has_text_strip_start (s : string) :
  Spec.has_text (Spec.strip_start s) = Spec.has_text s.
Proof.
  induction s as [|c r IH]; [reflexivity|]. cbn [Spec.strip_start].
  destruct (Spec.white_space c) eqn:W; [|reflexivity].
  cbn [Spec.has_text]. rewrite W. exact IH.
Qed.

(** A string is empty after trimming when it holds white space only. *)
Lemma trim_empty (s : string) :
  String.eqb (JsString.trim s) "" = negb (Spec.has_text s).
Proof.
  rewrite trim_strip. unfold Spec.strip.
  rewrite <- (has_text_strip_start s).
  destruct (Spec.has_text (Spec.strip_start s)) eqn:T.
  - destruct (Spec.strip_end (Spec.strip_start s)) eqn:E; [|reflexivity].
    apply strip_end_empty in E. congruence.
  - apply strip_end_empty in T. rewrite T. reflexivity.
Qed.

Lemma has_text_lower (s : string) :
  Spec.has_text (JsString.toLowerCase s) = Spec.has_text s.
Proof.
  induction s as [|c r IH]; [reflexivity|].
  cbn [JsString.toLowerCase Spec.has_text]. now rewrite IH, lower_white_space.
Qed.

Lemma strip_start_lower (s : string) :
  Spec.strip_start (JsString.toLowerCase s)
  = JsString.toLowerCase (Spec.strip_start s).
Proof.
  induction s as [|c r IH]; [reflexivity|].
  cbn [JsString.toLowerCase Spec.strip_start]. rewrite lower_white_space.
  destruct (Spec.white_space c); [exact IH | reflexivity].
Qed.

Lemma strip_end_lower (s : string) :
  Spec.strip_end (JsString.toLowerCase s)
  = JsString.toLowerCase (Spec.strip_end s).
Proof.
  induction s as [|c r IH]; [reflexivity|].
  cbn [JsString.toLowerCase Spec.strip_end].
  change (String (JsString.lower_char c) (JsString.toLowerCase r))
    with (JsString.toLowerCase (String c r)).
  rewrite has_text_lower.
  destruct (Spec.has_text (String c r)); [|reflexivity].
  cbn [JsString.toLowerCase]. now rewrite IH.
Qed.

(** Lower-casing and trimming commute. *)
Lemma strip_lower (s : string) :
  Spec.strip (JsString.toLowerCase s) = JsString.toLowerCase (Spec.strip s).
Proof. unfold Spec.strip. now rewrite strip_start_lower, strip_end_lower. Qed.

(** Two strings have the same lower-case form when they are the same text,
    letter case aside. *)
Lemma lower_same_text (s t : string) :
  String.eqb (JsString.toLowerCase s) (JsString.toLowerCase t)
  = Spec.same_text s t.
Proof.
  revert t. induction s as [|a s IH]; intros [|b t]; try reflexivity.
  cbn [JsString.toLowerCase String.eqb Spec.same_text].
  rewrite lower_same_letter, IH.
  destruct (Spec.same_letter a b); reflexivity.
Qed.

(** The comparison of [getSmartValue] is the case-insensitive, trimmed
    comparison. *)
Lemma compare_same_name (key colName : string) :
  String.eqb (JsString.trim (JsString.toLowerCase key))
             (JsString.trim (JsString.toLowerCase colName))
  = Spec.same_name key colName.
Proof.
  unfold Spec.same_name. rewrite !trim_strip, !strip_lower.
  apply lower_same_text.
Qed.

Lemma find_ext {A : Type} (p q : A -> bool) (l : list A) :
  (forall x, p x = q x) -> find p l = find q l.
Proof.
  intros H. induction l as [|x l IH]; [reflexivity|].
  cbn [find]. now rewrite H, IH.
Qed.

(** [getSmartValue] is the two-phase lookup. *)
Lemma getSmartValue_two_phase (row : RawRow) (colName : string) :
  getSmartValue row colName = Spec.lookup row colName.
Proof.
  unfold getSmartValue, Spec.lookup, Spec.similar_key,
    JsObject.hasOwnProperty, Cell.read.
  destruct (JsObject.get row colName) as [v|]; [reflexivity|].
  rewrite (find_ext _ (fun key => Spec.same_name key colName))
    by (intros key; apply compare_same_name).
  destruct (find _ (JsObject.keys row)) as [[|c key]|]; reflexivity.
Qed.

Lemma truthy_name_text (c : cell) :
  (if Cell.truthy c then Cell.toString c else ""%string) = Spec.name_text c.
Proof.
  destruct c as [s | n | |]; try reflexivity.
  - destruct s; reflexivity.
  - destruct n as [[|] | [|] | | [|] m e]; reflexivity.
Qed.

(** The name of a record is the resolved name of its row. *)
Lemma resolve_name_resolved (mapping : ColumnMapping.t) (row : RawRow) :
  resolve_name mapping row = Spec.resolved_name mapping row.
Proof.
  unfold resolve_name, Spec.resolved_name.
  rewrite getSmartValue_two_phase. apply truthy_name_text.
Qed.

(** The filter keeps the records whose name holds text. *)
Lemma has_valid_name_text (student : StudentData.t) :
  has_valid_name student = Spec.has_text (StudentData.name student).
Proof.
  unfold has_valid_name. rewrite trim_empty, negb_involutive.
  destruct (StudentData.name student); reflexivity.
Qed.

Lemma named_kept (mapping : ColumnMapping.t) (row : RawRow) :
  named mapping row = Spec.kept mapping row.
Proof.
  unfold named, Spec.kept.
  now rewrite trim_empty, negb_involutive, resolve_name_resolved.
Qed.

(** Without an empty key in the row, the lookup is the one the claim
    words. *)
Lemma lookup_claimed (row : RawRow) (colName : string) :
  ~ In ""%string (JsObject.keys row) ->
  Spec.lookup row colName = Spec.claimed_lookup row colName.
Proof.
  intros Hkeys. unfold Spec.lookup, Spec.claimed_lookup, Spec.similar_key.
  destruct (JsObject.get row colName); [reflexivity|].
  destruct (find _ (JsObject.keys row)) as [[|c key]|] eqn:F; try reflexivity.
  apply find_some in F. tauto.
Qed.

End NameRule.

(** C5, counterexample: the row whose only key is the empty string, with
    the name column [" "].  The row has no property [" "], and its key is
    the name column up to surrounding white space, so the lookup as the
    claim words it resolves the name [Ann], which holds text; the code
    finds the key, tests it with [if (foundKey)], takes the empty string
    for no key, and produces no record.  Likewise the row whose name cell
    is the number 0: the cell is found and [String] writes it ["0"], but
    the code takes a falsy cell for no name and produces no record. *)
Lemma empty_key_counterexample :
  (JsObject.get empty_key_row (ColumnMapping.nameCol blank_name_mapping) = None /\
   Spec.similar_key empty_key_row (ColumnMapping.nameCol blank_name_mapping)
   = Some ""%string /\
   Spec.claimed_name blank_name_mapping empty_key_row = "Ann"%string /\
   Spec.has_text (Spec.claimed_name blank_name_mapping empty_key_row) = true /\
   getSmartValue empty_key_row (ColumnMapping.nameCol blank_name_mapping)
   = CUndefined /\
   processStudents blank_name_mapping [empty_key_row] = []) /\
  (Spec.claimed_lookup zero_name_row (ColumnMapping.nameCol quiz_mapping)
   = CNumber Number.zero /\
   Cell.toString (CNumber Number.zero) = "0"%string /\
   Spec.has_text "0" = true /\
   processStudents quiz_mapping [zero_name_row] = []).
Proof. repeat split. Qed.

(** The second phase at work: a row keyed ["name "] is kept under the name
    column ["Name"], and the row beside it, whose name is blank, is not. *)
Example spaced_key_example :
  map StudentData.name (processStudents quiz_mapping [spaced_key_row; nameless_row])
  = ["Ann"%string].
Proof. reflexivity. Qed.

(** C5 (amended): the name of the record built from a row is the resolved
    name of the row: the text of the cell that the two-phase lookup finds
    for the mapped name column, where the lookup takes the property of
    that exact name when the row has one and otherwise the first key, in
    [Object.keys] order, that is the name up to letter case and
    surrounding white space, an empty key being no column.  The student
    set holds exactly one record for each row whose resolved name holds a
    character that is not white space, the record built from that row at
    its position, in row order, and none for the other rows; so the number
    of records is the number of rows minus the number of rows whose
    resolved name is empty after trimming.  On rows without an empty key
    the lookup is the one the claim words.  This is the student set
    [onMappingConfirmed] stores, over the merged rows of the selected
    sheets. *)
Theorem records_are_the_named_rows (mapping : ColumnMapping.t) (rows : list RawRow) :
  (forall row idx,
     StudentData.name (normalize_row mapping row idx)
     = Spec.resolved_name mapping row) /\
  processStudents mapping rows
  = map (fun ir => normalize_row mapping (snd ir) (fst ir))
        (filter (fun ir => Spec.kept mapping (snd ir)) (indexed rows)) /\
  length (processStudents mapping rows)
  = (length rows - count (fun row => negb (Spec.kept mapping row)) rows)%nat /\
  (forall row,
     ~ In ""%string (JsObject.keys row) ->
     Spec.resolved_name mapping row = Spec.claimed_name mapping row) /\
  (forall st,
     rows = merge_sheets (AppState.rawSheetData st) (AppState.selectedSheetNames st) ->
     AppState.allStudents (onMappingConfirmed mapping st)
     = processStudents mapping rows).
Proof.
  assert (E : processStudents mapping rows
              = map (fun ir => normalize_row mapping (snd ir) (fst ir))
                    (filter (fun ir => Spec.kept mapping (snd ir)) (indexed rows))).
  { unfold processStudents, indexed.
    rewrite map_indexed_combine, filter_map_commute.
    f_equal. apply filter_ext. intros [i row]. cbn [fst snd].
    rewrite NameRule.has_valid_name_text, normalize_row_name.
    rewrite NameRule.resolve_name_resolved. reflexivity. }
  split; [|split; [exact E | split; [|split]]].
  - intros row idx. rewrite normalize_row_name.
    apply NameRule.resolve_name_resolved.
  - rewrite E, length_map. unfold indexed.
    rewrite (filter_combine_length (Spec.kept mapping) rows 0).
    pose proof (count_complement (Spec.kept mapping) rows). lia.
  - intros row Hkeys. unfold Spec.resolved_name, Spec.claimed_name.
    now rewrite NameRule.lookup_claimed.
  - intros st ->. reflexivity.
Qed.

Lemma records_are_the_named_rows_witness :
  let st :=
    {| AppState.step := 3;
       AppState.rawSheetData := [("S1"%string, [spaced_key_row; nameless_row])];
       AppState.selectedSheetNames := ["S1"%string];
       AppState.allStudents := [];
       AppState.sheetFilter := "All";
       AppState.totalColName := "Overall Score";
       AppState.activeTab := dashboard |} in
  length (AppState.allStudents (onMappingConfirmed quiz_mapping st)) = 1%nat /\
  Spec.resolved_name quiz_mapping spaced_key_row
  = Spec.claimed_name quiz_mapping spaced_key_row.
Proof.
  intros st.
  pose proof (records_are_the_named_rows quiz_mapping
                (merge_sheets (AppState.rawSheetData st)
                              (AppState.selectedSheetNames st)))
    as (_ & _ & Hlen & _ & Hst).
  pose proof (records_are_the_named_rows quiz_mapping [])
    as (_ & _ & _ & Hclaimed & _).
  split.
  - rewrite (Hst st eq_refl), Hlen. vm_compute. reflexivity.
  - apply Hclaimed. vm_compute. intuition discriminate.
Defined.

(** ** The narrative request *)

(** C9: the request handed to the generative service depends only on the
    summary, the component statistics and the names of the strongest and
    weakest components: two analyses that agree on these four parts give
    the identical request, whatever their student lists, so no
    per-student data is sent. *)
Theorem request_ignores_students
  (env_API_KEY : option string) (a1 a2 : FullAnalysis.t) :
  FullAnalysis.summary a1 = FullAnalysis.summary a2 ->
  FullAnalysis.componentStats a1 = FullAnalysis.componentStats a2 ->
  FullAnalysis.strongestComponent a1 = FullAnalysis.strongestComponent a2 ->
  FullAnalysis.weakestComponent a1 = FullAnalysis.weakestComponent a2 ->
  narrative_request env_API_KEY a1 = narrative_request env_API_KEY a2.
Proof.
  intros Hs Hc Hst Hw. unfold narrative_request, prompt.
  rewrite Hs, Hc, Hst, Hw. reflexivity.
Qed.

Lemma request_ignores_students_witness :
  let students := processStudents quiz_mapping [quiz_row; final_row] in
  let r := performFullAnalysis students in
  let a students :=
    {| FullAnalysis.summary := AnalysisResult.summary r;
       FullAnalysis.students := students;
       FullAnalysis.componentStats := AnalysisResult.componentStats r;
       FullAnalysis.strongestComponent := AnalysisResult.strongestComponent r;
       FullAnalysis.weakestComponent := AnalysisResult.weakestComponent r |} in
  FullAnalysis.students (a students) <> FullAnalysis.students (a [])
  /\ narrative_request None (a students) = narrative_request None (a []).
Proof.
  intros students r a. split.
  - vm_compute. discriminate.
  - apply (request_ignores_students None (a students) (a [])); reflexivity.
Defined.

(** ** Rounding never cancels a difference

    The facts below are about the rounding functions of the standard
    library at precision 53: a non-zero multiple of 2^-1074 rounds to a
    non-zero value of the same sign, so the sign of [b - a] tells whether
    [a < b]. *)

Module RoundingFacts.

Abbreviation fexp64 := (fexp Number.prec Number.emax).

Lemma fexp64_eq (x : Z) : fexp64 x = Z.max (x - 53) (-1074).
Proof. reflexivity. Qed.

Lemma digits_bounds (p : positive) :
  2 ^ (Zpos (digits2_pos p) - 1) <= Zpos p < 2 ^ Zpos (digits2_pos p).
Proof.
  induction p as [p IH | p IH |]; cbn [digits2_pos].
  - rewrite Pos2Z.inj_succ.
    replace (Z.succ (Zpos (digits2_pos p)) - 1) with (Z.succ (Zpos (digits2_pos p) - 1)) by lia.
    rewrite !Z.pow_succ_r by lia. lia.
  - rewrite Pos2Z.inj_succ.
    replace (Z.succ (Zpos (digits2_pos p)) - 1) with (Z.succ (Zpos (digits2_pos p) - 1)) by lia.
    rewrite !Z.pow_succ_r by lia. lia.
  - cbn. lia.
Qed.

(** Halving [n] times. *)
Lemma shr_1_m (mrs : shr_record) :
  0 <= shr_m mrs -> shr_m (shr_1 mrs) = shr_m mrs / 2.
Proof.
  destruct mrs as [m r s]. cbn [shr_m]. intros Hm.
  rewrite <- Z.div2_div.
  destruct m as [| [p | p |] | p]; try reflexivity; lia.
Qed.

Lemma iter_shr_m (n : positive) :
  forall mrs : shr_record,
    0 <= shr_m mrs ->
    shr_m (iter_pos shr_1 n mrs) = shr_m mrs / 2 ^ Zpos n.
Proof.
  induction n as [n IH | n IH |]; intros mrs Hm; cbn [iter_pos].
  - assert (H1 : 0 <= shr_m (shr_1 mrs)).
    { rewrite shr_1_m by exact Hm. apply Z.div_pos; lia. }
    assert (H2 : 0 <= shr_m (iter_pos shr_1 n (shr_1 mrs))).
    { rewrite IH by exact H1. apply Z.div_pos; [exact H1 | apply Z.pow_pos_nonneg; lia]. }
    rewrite IH by exact H2. rewrite IH by exact H1. rewrite shr_1_m by exact Hm.
    rewrite !Z.div_div by (try apply Z.pow_pos_nonneg; lia).
    f_equal. replace (Zpos n~1) with (1 + Zpos n + Zpos n) by lia.
    rewrite !Z.pow_add_r by lia. lia.
  - assert (H2 : 0 <= shr_m (iter_pos shr_1 n mrs)).
    { rewrite IH by exact Hm. apply Z.div_pos; [exact Hm | apply Z.pow_pos_nonneg; lia]. }
    rewrite IH by exact H2. rewrite IH by exact Hm.
    rewrite !Z.div_div by (try apply Z.pow_pos_nonneg; lia).
    f_equal. replace (Zpos n~0) with (Zpos n + Zpos n) by lia.
    rewrite Z.pow_add_r by lia. reflexivity.
  - rewrite shr_1_m by exact Hm. reflexivity.
Qed.

Lemma shr_record_of_loc_m (m : Z) (l : location) :
  shr_m (shr_record_of_loc m l) = m.
Proof. destruct l as [| []]; reflexivity. Qed.

(** The mantissa and exponent [shr_fexp] returns. *)
Lemma shr_fexp_spec (m e : Z) (l : location) :
  0 <= m ->
  let n := fexp64 (Zdigits2 m + e) - e in
  shr_m (fst (shr_fexp Number.prec Number.emax m e l))
    = (if 0 <? n then m / 2 ^ n else m)
  /\ snd (shr_fexp Number.prec Number.emax m e l)
    = (if 0 <? n then e + n else e).
Proof.
  intros Hm n. unfold shr_fexp, shr. fold n.
  destruct n as [| p | p]; cbn [fst snd Z.ltb Z.compare];
    rewrite ?shr_record_of_loc_m; auto.
  split; [| reflexivity].
  rewrite iter_shr_m; rewrite shr_record_of_loc_m; auto.
Qed.

Lemma round_nearest_even_ge (m : Z) (l : location) :
  m <= round_nearest_even m l.
Proof.
  unfold round_nearest_even. destruct l as [| []]; try lia.
  destruct (Z.even m); lia.
Qed.


Lemma digits_nonneg (m : Z) : 0 <= Zdigits2 m.
Proof. destruct m; cbn; lia. Qed.

Lemma digits_bounds_Z (m : Z) :
  0 < m -> 2 ^ (Zdigits2 m - 1) <= m < 2 ^ Zdigits2 m.
Proof.
  destruct m as [| p | p]; try lia. intros _. apply digits_bounds.
Qed.

Lemma digits_unique (x d : Z) :
  0 < x -> 2 ^ (d - 1) <= x < 2 ^ d -> Zdigits2 x = d.
Proof.
  intros Hx [Hlo Hhi].
  pose proof (digits_bounds_Z x Hx) as [Blo Bhi].
  pose proof (digits_nonneg x) as Hd.
  assert (Hd1 : 1 <= d).
  { destruct (Z.le_gt_cases 1 d) as [H | H]; [exact H |].
    assert (2 ^ d <= 1); [| lia].
    destruct (Z.eq_dec d 0) as [-> | Hn]; [cbn; lia |].
    rewrite Z.pow_neg_r by lia. lia. }
  assert (H1 : d - 1 < Zdigits2 x).
  { apply (Z.pow_lt_mono_r_iff 2); lia. }
  assert (H2 : Zdigits2 x - 1 < d).
  { apply (Z.pow_lt_mono_r_iff 2); lia. }
  lia.
Qed.

Lemma digits_shift (m n : Z) :
  0 < m -> 0 <= n < Zdigits2 m ->
  0 < m / 2 ^ n /\ Zdigits2 (m / 2 ^ n) = Zdigits2 m - n.
Proof.
  intros Hm Hn.
  pose proof (digits_bounds_Z m Hm) as [Blo Bhi].
  assert (P : 0 < 2 ^ n) by (apply Z.pow_pos_nonneg; lia).
  assert (Hlo : 2 ^ (Zdigits2 m - n - 1) <= m / 2 ^ n).
  { apply Z.div_le_lower_bound; [exact P |].
    rewrite <- Z.pow_add_r by lia.
    replace (n + (Zdigits2 m - n - 1)) with (Zdigits2 m - 1) by lia. exact Blo. }
  assert (Hhi : m / 2 ^ n < 2 ^ (Zdigits2 m - n)).
  { apply Z.div_lt_upper_bound; [exact P |].
    rewrite <- Z.pow_add_r by lia.
    replace (n + (Zdigits2 m - n)) with (Zdigits2 m) by lia. exact Bhi. }
  assert (Q : 0 < 2 ^ (Zdigits2 m - n - 1)) by (apply Z.pow_pos_nonneg; lia).
  split; [lia |]. apply digits_unique; [lia |]. split; [| exact Hhi].
  exact Hlo.
Qed.

Lemma digits_le (a b : Z) : 0 <= a <= b -> Zdigits2 a <= Zdigits2 b.
Proof.
  intros [Ha Hab].
  destruct (Z.eq_dec a 0) as [-> | Hne]; [apply digits_nonneg |].
  pose proof (digits_bounds_Z a ltac:(lia)) as [Alo _].
  pose proof (digits_bounds_Z b ltac:(lia)) as [_ Bhi].
  pose proof (digits_nonneg b).
  assert (Zdigits2 a - 1 < Zdigits2 b); [| lia].
  apply (Z.pow_lt_mono_r_iff 2); lia.
Qed.

Lemma fexp64_le (x y : Z) : x <= y -> fexp64 x <= fexp64 y.
Proof. rewrite !fexp64_eq. lia. Qed.

(** The pairs [shr_fexp] returns: still positive above 2^-1074, and
    canonical when the input was not already too coarse. *)
Lemma shr_fexp_props (m e : Z) (l : location) :
  0 <= m ->
  let m' := shr_m (fst (shr_fexp Number.prec Number.emax m e l)) in
  let e' := snd (shr_fexp Number.prec Number.emax m e l) in
  0 <= m'
  /\ (0 < m -> -1074 <= e -> 0 < m' /\ -1074 <= e')
  /\ (e <= fexp64 (Zdigits2 m + e) -> fexp64 (Zdigits2 m' + e') = e').
Proof.
  intros Hm m' e'.
  destruct (shr_fexp_spec m e l Hm) as [Em Ee]. cbv zeta in Em, Ee.
  fold m' in Em. fold e' in Ee.
  pose proof (digits_nonneg m) as Hd.
  set (n := fexp64 (Zdigits2 m + e) - e) in *.
  assert (En : n = Z.max (Zdigits2 m + e - 53) (-1074) - e)
    by (unfold n; now rewrite fexp64_eq).
  destruct (0 <? n) eqn:Hn.
  - apply Z.ltb_lt in Hn.
    assert (P : 0 < 2 ^ n) by (apply Z.pow_pos_nonneg; lia).
    split; [rewrite Em; apply Z.div_pos; lia |]. split.
    + intros Hpos He.
      destruct (digits_shift m n Hpos ltac:(lia)) as [H1 _]. rewrite Em, Ee. lia.
    + intros _. rewrite Ee, Em.
      destruct (Z.eq_dec m 0) as [-> | Hne].
      * rewrite Z.div_0_l by lia. cbn [Zdigits2] in *. rewrite fexp64_eq. lia.
      * destruct (Z.lt_ge_cases n (Zdigits2 m)) as [Hlt | Hge].
        -- destruct (digits_shift m n ltac:(lia) ltac:(lia)) as [_ ->].
           replace (Zdigits2 m - n + (e + n)) with (Zdigits2 m + e) by lia.
           unfold n. lia.
        -- rewrite Z.div_small.
           ++ cbn [Zdigits2]. rewrite fexp64_eq. lia.
           ++ pose proof (digits_bounds_Z m ltac:(lia)) as [_ Bhi].
              split; [lia |].
              apply Z.lt_le_trans with (1 := Bhi).
              apply Z.pow_le_mono_r; lia.
  - apply Z.ltb_ge in Hn. rewrite Em, Ee.
    split; [exact Hm |]. split; [auto |].
    intros Hle. fold n in Hle. unfold n in *. lia.
Qed.


Lemma binary_round_aux_spec (s : bool) (m e : Z) (l : location) :
  0 <= m ->
  (e <= fexp64 (Zdigits2 m + e) ->
   Number.valid (binary_round_aux Number.prec Number.emax s m e l) = true)
  /\ (0 < m -> -1074 <= e ->
      signed_nonzero s (binary_round_aux Number.prec Number.emax s m e l)).
Proof.
  intros Hm. unfold binary_round_aux.
  destruct (shr_fexp_props m e l Hm) as (H1 & H2 & H3). cbv zeta in H1, H2, H3.
  destruct (shr_fexp Number.prec Number.emax m e l) as [mrs' e'].
  cbn [fst snd] in H1, H2, H3.
  set (m1 := round_nearest_even (shr_m mrs') (loc_of_shr_record mrs')).
  assert (Hm1 : shr_m mrs' <= m1) by apply round_nearest_even_ge.
  destruct (shr_fexp_props m1 e' loc_Exact ltac:(lia)) as (K1 & K2 & K3).
  cbv zeta in K1, K2, K3.
  destruct (shr_fexp Number.prec Number.emax m1 e' loc_Exact) as [mrs'' e''].
  cbn [fst snd] in K1, K2, K3.
  split.
  - intros Hle. specialize (H3 Hle).
    assert (Hle1 : e' <= fexp64 (Zdigits2 m1 + e')).
    { rewrite <- H3 at 1. apply fexp64_le.
      pose proof (digits_le (shr_m mrs') m1 ltac:(lia)). lia. }
    specialize (K3 Hle1).
    destruct (shr_m mrs'') as [| p | p]; try reflexivity.
    destruct (e'' <=? Number.emax - Number.prec) eqn:Hb; [| reflexivity].
    unfold Number.valid, valid_binary, bounded, canonical_mantissa.
    rewrite Hb, andb_true_r. apply Z.eqb_eq. exact K3.
  - intros Hpos He. destruct (H2 Hpos He) as [P1 P2].
    destruct (K2 ltac:(lia) P2) as [Q1 Q2].
    destruct (shr_m mrs'') as [| p | p]; try lia.
    destruct (e'' <=? Number.emax - Number.prec);
      [left; eauto | right; reflexivity].
Qed.

Lemma shl_align_spec (m : positive) (e e' : Z) :
  let r := shl_align m e e' in
  (e' < e -> Zpos (fst r) = Zpos m * 2 ^ (e - e') /\ snd r = e')
  /\ (e <= e' -> r = (m, e)).
Proof.
  unfold shl_align. split.
  - intros Hlt. destruct (e' - e) as [| d | d] eqn:Ed; try lia.
    cbn [fst snd]. split; [| reflexivity].
    change (Pos.iter xO m d) with (shift_pos d m).
    rewrite shift_pos_correct.
    change (Z.pow_pos 2 d) with (2 ^ Zpos d).
    replace (e - e') with (Zpos d) by lia. lia.
  - intros Hle. destruct (e' - e) as [| d | d] eqn:Ed; try lia; reflexivity.
Qed.

Lemma binary_round_sign (s : bool) (m : positive) (e : Z) :
  -1074 <= e ->
  signed_nonzero s (binary_round Number.prec Number.emax s m e).
Proof.
  intros He. unfold binary_round.
  destruct (shl_align_spec m e (fexp64 (Zpos (digits2_pos m) + e))) as [A B].
  cbv zeta in A, B.
  destruct (shl_align m e (fexp64 (Zpos (digits2_pos m) + e))) as [mz ez].
  cbn [fst snd] in A, B.
  assert (Hez : -1074 <= ez).
  { destruct (Z.lt_ge_cases (fexp64 (Zpos (digits2_pos m) + e)) e) as [H | H].
    - destruct (A H) as [_ ->]. rewrite fexp64_eq. lia.
    - specialize (B H). injection B as _ ->. exact He. }
  apply binary_round_aux_spec; lia.
Qed.


Lemma gt_zero (v : num) : Number.gt v Number.zero = is_positive v.
Proof. destruct v as [[|] | [|] | | [|] m e]; reflexivity. Qed.

Lemma signed_nonzero_positive (s : bool) (v : num) :
  signed_nonzero s v -> is_positive v = negb s.
Proof.
  intros [(m & e & ->) | ->]; destruct s; reflexivity.
Qed.

Lemma canonical_bounds (m : positive) (e : Z) :
  canonical_mantissa Number.prec Number.emax m e = true ->
  -1074 <= e /\ Zpos m < 2 ^ 53 /\ (-1074 < e -> 2 ^ 52 <= Zpos m).
Proof.
  unfold canonical_mantissa. intros H. apply Z.eqb_eq in H.
  rewrite fexp64_eq in H.
  pose proof (digits_bounds m) as [Blo Bhi].
  assert (Hd : Zpos (digits2_pos m) <= 53) by lia.
  repeat split; [lia | |].
  - apply Z.lt_le_trans with (1 := Bhi). apply Z.pow_le_mono_r; lia.
  - intros He. replace (Zpos (digits2_pos m)) with 53 in Blo by lia. exact Blo.
Qed.

Lemma aligned_value (m : positive) (e ez : Z) :
  ez <= e -> Zpos (fst (shl_align m e ez)) = Zpos m * 2 ^ (e - ez).
Proof.
  intros Hle. destruct (shl_align_spec m e ez) as [A B]. cbv zeta in A, B.
  destruct (Z.eq_dec ez e) as [-> | Hne].
  - rewrite B by lia. rewrite Z.sub_diag. cbn [fst]. lia.
  - now destruct (A ltac:(lia)) as [-> _].
Qed.

(** Canonical mantissas, aligned on the smaller exponent, compare as the
    (exponent, mantissa) pairs do. *)
Lemma aligned_compare (m1 m2 : positive) (e1 e2 : Z) :
  canonical_mantissa Number.prec Number.emax m1 e1 = true ->
  canonical_mantissa Number.prec Number.emax m2 e2 = true ->
  let ez := Z.min e1 e2 in
  Zpos m1 * 2 ^ (e1 - ez) < Zpos m2 * 2 ^ (e2 - ez)
  <-> e1 < e2 \/ (e1 = e2 /\ Zpos m1 < Zpos m2).
Proof.
  intros C1 C2 ez.
  destruct (canonical_bounds m1 e1 C1) as (A1 & A2 & A3).
  destruct (canonical_bounds m2 e2 C2) as (B1 & B2 & B3).
  change (2 ^ 53) with 9007199254740992 in *.
  change (2 ^ 52) with 4503599627370496 in *.
  destruct (Z.lt_trichotomy e1 e2) as [H | [H | H]].
  - unfold ez. rewrite Z.min_l, Z.sub_diag by lia.
    assert (P : 2 ^ 1 <= 2 ^ (e2 - e1)) by (apply Z.pow_le_mono_r; lia).
    change (2 ^ 1) with 2 in P. specialize (B3 ltac:(lia)).
    split; [intros _; lia | intros _]. cbn [Z.pow]. nia.
  - subst e2. unfold ez. rewrite Z.min_id, Z.sub_diag. cbn [Z.pow]. lia.
  - unfold ez. rewrite Z.min_r, Z.sub_diag by lia.
    assert (P : 2 ^ 1 <= 2 ^ (e1 - e2)) by (apply Z.pow_le_mono_r; lia).
    change (2 ^ 1) with 2 in P. specialize (A3 ltac:(lia)).
    split; [intros Hlt; cbn [Z.pow] in Hlt; nia | lia].
Qed.

Lemma binary_normalize_positive (d e : Z) :
  -1074 <= e ->
  is_positive (binary_normalize Number.prec Number.emax d e false) = (0 <? d).
Proof.
  intros He. destruct d as [| p | p]; cbn [binary_normalize]; try reflexivity.
  - now rewrite (signed_nonzero_positive false _ (binary_round_sign false p e He)).
  - now rewrite (signed_nonzero_positive true _ (binary_round_sign true p e He)).
Qed.

(** The sign of [b - a] decides [a < b], for well-formed numbers. *)
Lemma sub_positive_iff_lt (a b : num) :
  Number.valid a = true -> Number.valid b = true ->
  Number.isNaN a = false -> Number.isNaN b = false ->
  Number.gt (Number.sub b a) Number.zero = Number.lt a b.
Proof.
  intros Va Vb Na Nb. rewrite gt_zero.
  destruct a as [sa | sa | | sa ma ea], b as [sb | sb | | sb mb eb];
    try discriminate;
    try (destruct sa; try destruct sb; reflexivity);
    try (destruct sb; reflexivity).
  unfold Number.valid, valid_binary, bounded in Va, Vb.
  apply andb_prop in Va, Vb. destruct Va as [Ca _], Vb as [Cb _].
  destruct (canonical_bounds ma ea Ca) as (A1 & _ & _).
  destruct (canonical_bounds mb eb Cb) as (B1 & _ & _).
  unfold Number.sub. cbn [SFsub].
  rewrite binary_normalize_positive by lia.
  rewrite !aligned_value by lia.
  pose proof (aligned_compare ma mb ea eb Ca Cb) as Hab.
  pose proof (aligned_compare mb ma eb ea Cb Ca) as Hba.
  cbv zeta in Hab, Hba. rewrite (Z.min_comm ea eb) in Hab.
  set (X := Zpos mb * 2 ^ (eb - Z.min eb ea)) in *.
  set (Y := Zpos ma * 2 ^ (ea - Z.min eb ea)) in *.
  assert (HX : 0 < X) by (apply Z.mul_pos_pos; [lia | apply Z.pow_pos_nonneg; lia]).
  assert (HY : 0 < Y) by (apply Z.mul_pos_pos; [lia | apply Z.pow_pos_nonneg; lia]).
  apply eq_true_iff_eq.
  rewrite (OrderFacts.lt_key_iff _ _ Na Nb), Z.ltb_lt.
  unfold NumberOrder.key_lt, NumberOrder.key.
  destruct sa, sb; cbn [cond_Zopp]; lia.
Qed.


(** The quotient the division core hands to the rounding is fine enough. *)
Lemma div_core_fine (m1 m2 : positive) (e1 e2 : Z) :
  let r := SFdiv_core_binary Number.prec Number.emax (Zpos m1) e1 (Zpos m2) e2 in
  let q := fst (fst r) in
  let e' := snd (fst r) in
  0 <= q /\ e' <= fexp64 (Zdigits2 q + e').
Proof.
  unfold SFdiv_core_binary.
  set (d1 := Zdigits2 (Zpos m1)). set (d2 := Zdigits2 (Zpos m2)).
  set (e' := Z.min (fexp64 (d1 + e1 - (d2 + e2))) (e1 - e2)).
  set (s := e1 - e2 - e').
  set (m' := match s with Zpos _ => Z.shiftl (Zpos m1) s | Z0 => Zpos m1 | Zneg _ => 0 end).
  assert (Hs : 0 <= s) by (unfold s, e'; lia).
  assert (Em : m' = Zpos m1 * 2 ^ s).
  { unfold m'. destruct s as [| p | p] eqn:Es; try lia.
    apply Z.shiftl_mul_pow2. lia. }
  pose proof (Z_div_mod m' (Zpos m2) ltac:(lia)) as Hdiv.
  assert (Eq : fst (Z.div_eucl m' (Zpos m2)) = m' / Zpos m2) by reflexivity.
  destruct (Z.div_eucl m' (Zpos m2)) as [q r]. cbn [fst snd] in *. subst q.
  pose proof (digits_bounds_Z (Zpos m1) ltac:(lia)) as [L1 _].
  pose proof (digits_bounds_Z (Zpos m2) ltac:(lia)) as [_ U2].
  fold d1 in L1. fold d2 in U2.
  assert (P : 0 < 2 ^ s) by (apply Z.pow_pos_nonneg; lia).
  assert (Hm' : 0 < m') by (rewrite Em; apply Z.mul_pos_pos; lia).
  assert (Hq : 0 <= m' / Zpos m2) by (apply Z.div_pos; lia).
  split; [exact Hq |].
  apply Z.le_trans with (fexp64 (d1 + e1 - (d2 + e2))); [unfold e'; lia |].
  apply fexp64_le.
  assert (Hd : d1 - d2 + s <= Zdigits2 (m' / Zpos m2)); [| unfold s in *; lia].
  destruct (Z.le_gt_cases (d1 - d2 + s) 0) as [H0 | H0].
  { pose proof (digits_nonneg (m' / Zpos m2)). lia. }
  assert (d1pos : 1 <= d1) by (unfold d1; cbn; lia).
  assert (d2pos : 1 <= d2) by (unfold d2; cbn; lia).
  assert (Hk : 2 ^ (d1 - d2 + s - 1) <= m' / Zpos m2).
  { apply Z.div_le_lower_bound; [lia |].
    apply Z.le_trans with (2 ^ d2 * 2 ^ (d1 - d2 + s - 1)).
    - apply Z.mul_le_mono_nonneg_r; [apply Z.pow_nonneg; lia | lia].
    - rewrite <- Z.pow_add_r by lia.
      replace (d2 + (d1 - d2 + s - 1)) with (d1 - 1 + s) by lia.
      rewrite Z.pow_add_r by lia. rewrite Em.
      apply Z.mul_le_mono_nonneg_r; lia. }
  assert (Q : 0 < 2 ^ (d1 - d2 + s - 1)) by (apply Z.pow_pos_nonneg; lia).
  pose proof (digits_bounds_Z (m' / Zpos m2) ltac:(lia)) as [_ Uq].
  pose proof (digits_nonneg (m' / Zpos m2)).
  assert (d1 - d2 + s - 1 < Zdigits2 (m' / Zpos m2)); [| lia].
  apply (Z.pow_lt_mono_r_iff 2); lia.
Qed.

Lemma div_valid (x y : num) : Number.valid (Number.div x y) = true.
Proof.
  destruct x as [sx | sx | | sx mx ex], y as [sy | sy | | sy my ey];
    try reflexivity.
  unfold Number.div. cbn [SFdiv].
  pose proof (div_core_fine mx my ex ey) as H. cbv zeta in H.
  destruct (SFdiv_core_binary Number.prec Number.emax (Zpos mx) ex (Zpos my) ey)
    as [[q e'] l].
  cbn [fst snd] in H. destruct H as [Hq He].
  now apply binary_round_aux_spec.
Qed.

Lemma calculateMean_valid (xs : list num) :
  Number.valid (calculateMean xs) = true.
Proof.
  destruct xs; [reflexivity | apply div_valid].
Qed.

End RoundingFacts.

(** ** The ends of a stable descending sort *)

Module OrderOfNumbers.

Lemma le_refl (a : num) : Number.isNaN a = false -> Number.le a a = true.
Proof.
  intros Ha. apply OrderFacts.le_key_iff; auto.
Qed.

Lemma lt_le (a b : num) : Number.lt a b = true -> Number.le a b = true.
Proof.
  intros H.
  pose proof (NumberFacts.lt_not_nan _ _ H) as Ha.
  pose proof (OrderFacts.lt_not_nan_r _ _ H) as Hb.
  apply OrderFacts.le_key_iff; auto. left.
  now apply OrderFacts.lt_key_iff.
Qed.

Lemma not_lt_le (a b : num) :
  Number.isNaN a = false -> Number.isNaN b = false ->
  Number.lt a b = false -> Number.le b a = true.
Proof.
  intros Ha Hb H. apply OrderFacts.le_key_iff; auto.
  destruct (OrderFacts.key_total (NumberOrder.key a) (NumberOrder.key b))
    as [K | [K | K]]; auto.
  apply OrderFacts.lt_key_iff in K; auto. congruence.
Qed.

Lemma le_trans (a b c : num) :
  Number.le a b = true -> Number.le b c = true -> Number.le a c = true.
Proof.
  intros Hab Hbc. exact (OrderFacts.ge_trans c b a Hbc Hab).
Qed.

End OrderOfNumbers.

Section SortEnds.

Context {A : Type}.
Variable compareFn : A -> A -> num.

Lemma insert_not_nil (x : A) (l : list A) : JsArray.insert compareFn x l <> [].
Proof.
  destruct l as [| y r]; cbn [JsArray.insert]; [discriminate |].
  destruct (Number.gt _ _); discriminate.
Qed.

Lemma forallb_insert (p : A -> bool) (x : A) (l : list A) :
  forallb p (JsArray.insert compareFn x l) = p x && forallb p l.
Proof.
  induction l as [| y r IH]; cbn [JsArray.insert forallb]; [reflexivity |].
  destruct (Number.gt _ _); cbn [forallb]; [| reflexivity].
  rewrite IH. destruct (p x), (p y); reflexivity.
Qed.

Lemma forallb_sort (p : A -> bool) (l : list A) :
  forallb p (JsArray.sort compareFn l) = forallb p l.
Proof.
  induction l as [| x r IH]; [reflexivity |].
  cbn [JsArray.sort forallb]. now rewrite forallb_insert, IH.
Qed.

Lemma sort_nil_iff (l : list A) : JsArray.sort compareFn l = [] <-> l = [].
Proof.
  destruct l as [| x r]; [tauto |]. cbn [JsArray.sort].
  split; [intros H; now apply insert_not_nil in H | discriminate].
Qed.

(** The first element after an insertion: the old first element when the
    new one compares greater than it, else the new one. *)
Lemma hd_insert (x : A) (l : list A) :
  hd_error (JsArray.insert compareFn x l)
  = match l with
    | [] => Some x
    | y :: _ => if Number.gt (compareFn x y) Number.zero then Some y else Some x
    end.
Proof.
  destruct l as [| y r]; cbn [JsArray.insert]; [reflexivity |].
  destruct (Number.gt _ _); reflexivity.
Qed.

(** The last element after an insertion: the new one only when it
    compares greater than every element. *)
Lemma last_insert (x d : A) (l : list A) :
  last (JsArray.insert compareFn x l) d
  = if forallb (fun y => Number.gt (compareFn x y) Number.zero) l then x
    else last l d.
Proof.
  induction l as [| y r IH]; [reflexivity |].
  cbn [JsArray.insert forallb].
  destruct (Number.gt (compareFn x y) Number.zero); cbn [andb]; [| reflexivity].
  assert (Hcons : forall l', l' <> [] -> last (y :: l') d = last l' d)
    by (intros [| z t] Hne; [contradiction | reflexivity]).
  rewrite Hcons by apply insert_not_nil. rewrite IH.
  destruct (forallb _ r) eqn:F; [reflexivity |].
  symmetry. apply Hcons. intros ->. discriminate.
Qed.

Lemma nth_error_last (d : A) (l : list A) :
  l <> [] -> nth_error l (length l - 1) = Some (last l d).
Proof.
  induction l as [| x r IH]; [contradiction |]. intros _.
  destruct r as [| y t]; [reflexivity |].
  specialize (IH ltac:(discriminate)).
  change (last (x :: y :: t) d) with (last (y :: t) d).
  rewrite <- IH. cbn [length Nat.sub nth_error]. now rewrite Nat.sub_0_r.
Qed.

End SortEnds.

Section DescendingByScore.

Context {A : Type}.
Variable score : A -> num.

Lemma moves_behind (x y : A) :
  (scored score) x -> (scored score) y ->
  Number.gt (descending score x y) Number.zero = Number.lt (score x) (score y).
Proof.
  intros [Vx Nx] [Vy Ny]. unfold descending.
  now apply RoundingFacts.sub_positive_iff_lt.
Qed.

Lemma sort_head_first_maximum (l : list A) :
  Forall (scored score) l -> l <> [] ->
  exists i c, hd_error (JsArray.sort (descending score) l) = Some c /\ first_maximum score l i c.
Proof.
  induction l as [| x r IH]; [contradiction |]. intros Hall _.
  inversion Hall as [| ? ? Hx Hr]; subst.
  cbn [JsArray.sort]. rewrite hd_insert.
  destruct r as [| y t].
  - exists 0%nat, x. split; [reflexivity |]. repeat split.
    + intros c' [<- | []]. apply OrderOfNumbers.le_refl, Hx.
    + intros k c' Hk. lia.
  - destruct (IH Hr ltac:(discriminate)) as (i & h & Hh & Hi & Hmax & Hbefore).
    destruct (JsArray.sort (descending score) (y :: t)) as [| h' s'] eqn:Es;
      [discriminate |].
    cbn [hd_error] in Hh. injection Hh as ->.
    assert (Sh : (scored score) h).
    { rewrite Forall_forall in Hr. apply Hr. eapply nth_error_In; eauto. }
    rewrite (moves_behind x h Hx Sh).
    destruct (Number.lt (score x) (score h)) eqn:Hlt.
    + exists (S i), h. split; [reflexivity |]. repeat split.
      * exact Hi.
      * intros c' [<- | Hin]; [now apply OrderOfNumbers.lt_le | now apply Hmax].
      * intros [| k] c' Hk Hc'; cbn [nth_error] in Hc'.
        -- now injection Hc' as <-.
        -- apply (Hbefore k); [lia | exact Hc'].
    + exists 0%nat, x. split; [reflexivity |]. repeat split.
      * intros c' [<- | Hin]; [apply OrderOfNumbers.le_refl, Hx |].
        apply OrderOfNumbers.le_trans with (score h); [now apply Hmax |].
        apply OrderOfNumbers.not_lt_le; [apply Hx | apply Sh | exact Hlt].
      * intros k c' Hk. lia.
Qed.

Lemma sort_last_last_minimum (d : A) (l : list A) :
  Forall (scored score) l -> l <> [] ->
  exists j, last_minimum score l j (last (JsArray.sort (descending score) l) d).
Proof.
  induction l as [| x r IH]; [contradiction |]. intros Hall _.
  inversion Hall as [| ? ? Hx Hr]; subst.
  cbn [JsArray.sort]. rewrite last_insert, forallb_sort.
  destruct r as [| y t].
  - exists 0%nat. repeat split.
    + intros c' [<- | []]. apply OrderOfNumbers.le_refl, Hx.
    + intros [| [| k]] c' Hk Hc'; try lia; discriminate.
  - destruct (IH Hr ltac:(discriminate)) as (j & Hj & Hmin & Hafter).
    set (w := last (JsArray.sort (descending score) (y :: t)) d) in *.
    assert (Sw : (scored score) w).
    { rewrite Forall_forall in Hr. apply Hr. eapply nth_error_In; eauto. }
    destruct (forallb (fun y0 => Number.gt (descending score x y0) Number.zero) (y :: t))
      eqn:Fa.
    + exists 0%nat. rewrite forallb_forall in Fa. repeat split.
      * intros c' [<- | Hin]; [apply OrderOfNumbers.le_refl, Hx |].
        apply OrderOfNumbers.lt_le. rewrite <- moves_behind; auto.
        rewrite Forall_forall in Hr. auto.
      * intros [| k] c' Hk Hc'; [lia |]. cbn [nth_error] in Hc'.
        assert (Hin : In c' (y :: t)) by (eapply nth_error_In; eauto).
        rewrite <- moves_behind; auto. rewrite Forall_forall in Hr. auto.
    + exists (S j). repeat split.
      * exact Hj.
      * intros c' [<- | Hin]; [| now apply Hmin].
        assert (Hex : exists z, In z (y :: t)
                        /\ Number.gt (descending score x z) Number.zero = false).
        { clear - Fa. induction (y :: t) as [| a u IHu]; [discriminate |].
          cbn [forallb] in Fa. apply andb_false_iff in Fa.
          destruct Fa as [Fa | Fa]; [exists a; cbn; auto |].
          destruct (IHu Fa) as (z & Hz & Hg). exists z. cbn; auto. }
        destruct Hex as (z & Hz & Hg).
        assert (Sz : (scored score) z) by (rewrite Forall_forall in Hr; auto).
        rewrite moves_behind in Hg by auto.
        apply OrderOfNumbers.le_trans with (score z); [now apply Hmin |].
        apply OrderOfNumbers.not_lt_le; [apply Hx | apply Sz | exact Hg].
      * intros [| k] c' Hk Hc'; [lia |]. cbn [nth_error] in Hc'.
        apply (Hafter k); [lia | exact Hc'].
Qed.

End DescendingByScore.

(** ** The sort is a stable descending sort *)

Section StableSort.

Context {A : Type}.
Variable score : A -> num.

Lemma insert_descending (x : A) (l : list A) :
  scored score x -> Forall (scored score) l ->
  JsArray.insert (descending score) x l
  = match l with
    | [] => [x]
    | y :: r =>
        if Number.lt (score x) (score y)
        then y :: JsArray.insert (descending score) x r
        else x :: l
    end.
Proof.
  intros Hx Hl. destruct l as [| y r]; [reflexivity |].
  cbn [JsArray.insert]. inversion Hl; subst.
  now rewrite moves_behind.
Qed.

Lemma insert_permutation (cmp : A -> A -> num) (x : A) (l : list A) :
  Permutation (x :: l) (JsArray.insert cmp x l).
Proof.
  induction l as [| y r IH]; cbn [JsArray.insert]; [reflexivity |].
  destruct (Number.gt _ _); [| reflexivity].
  rewrite perm_swap. now constructor.
Qed.

(** The sorted array holds the elements of the array. *)
Lemma sort_permutation (cmp : A -> A -> num) (l : list A) :
  Permutation l (JsArray.sort cmp l).
Proof.
  induction l as [| x r IH]; [constructor |].
  cbn [JsArray.sort]. rewrite <- insert_permutation. now constructor.
Qed.

Lemma lt_asym (a b : num) :
  Number.lt a b = true -> Number.lt b a = false.
Proof.
  intros H. destruct (Number.lt b a) eqn:E; [| reflexivity].
  pose proof (OrderFacts.lt_trans _ _ _ H E) as K.
  pose proof (NumberFacts.lt_not_nan _ _ H) as Na.
  apply OrderFacts.lt_key_iff in K; auto.
  destruct (NumberOrder.key a) as [[c x] y]. unfold NumberOrder.key_lt in K. lia.
Qed.

Lemma not_lt_trans (a b c : num) :
  Number.isNaN a = false -> Number.isNaN b = false -> Number.isNaN c = false ->
  Number.lt a b = false -> Number.lt b c = false -> Number.lt a c = false.
Proof.
  intros Na Nb Nc Hab Hbc.
  destruct (Number.lt a c) eqn:E; [| reflexivity].
  pose proof (OrderOfNumbers.not_lt_le _ _ Na Nb Hab) as L1.
  pose proof (OrderOfNumbers.not_lt_le _ _ Nb Nc Hbc) as L2.
  pose proof (OrderOfNumbers.le_trans _ _ _ L2 L1) as L.
  apply OrderFacts.le_key_iff in L; auto.
  apply OrderFacts.lt_key_iff in E; auto.
  destruct (NumberOrder.key a) as [[c1 x1] y1], (NumberOrder.key c) as [[c3 x3] y3].
  unfold NumberOrder.key_lt in *.
  destruct L as [L | L]; [lia | injection L as -> -> ->; lia].
Qed.

Lemma insert_sorted (x : A) (l : list A) :
  scored score x -> Forall (scored score) l ->
  sorted_descending score l ->
  sorted_descending score (JsArray.insert (descending score) x l).
Proof.
  intros Hx Hl Hs. induction Hs as [| y r Hr IH Hy].
  - repeat constructor.
  - inversion Hl as [| ? ? Sy Sr]; subst.
    rewrite insert_descending by assumption.
    destruct (Number.lt (score x) (score y)) eqn:E.
    + constructor; [now apply IH |].
      apply (Permutation_Forall (insert_permutation _ x r)).
      constructor; [now apply lt_asym | exact Hy].
    + constructor; [now constructor |].
      constructor; [exact E |].
      rewrite Forall_forall in Hy, Sr |- *. intros z Hz.
      apply not_lt_trans with (score y);
        try apply Hx; try apply Sy; try (apply Sr, Hz); auto.
Qed.

(** Under scores that are numbers, the sorted array is in descending
    order. *)
Lemma sort_sorted (l : list A) :
  Forall (scored score) l ->
  sorted_descending score (JsArray.sort (descending score) l).
Proof.
  induction 1 as [| x r Hx Hr IH]; [constructor |].
  cbn [JsArray.sort]. apply insert_sorted; auto.
  apply (Permutation_Forall (sort_permutation _ r)), Hr.
Qed.

Lemma tied_above (c x y : A) :
  scored score c -> scored score x -> scored score y ->
  tied score c x = true -> Number.lt (score x) (score y) = true ->
  tied score c y = false.
Proof.
  intros [_ Nc] [_ Nx] [_ Ny] Ht Hlt. unfold tied in *.
  apply andb_prop in Ht. destruct Ht as [H1 H2].
  apply negb_true_iff in H1, H2.
  assert (Hcy : Number.lt (score c) (score y) = true).
  { pose proof (OrderOfNumbers.not_lt_le _ _ Nx Nc H2) as L.
    apply OrderFacts.le_key_iff in L; auto.
    apply OrderFacts.lt_key_iff in Hlt; auto.
    apply OrderFacts.lt_key_iff; auto.
    destruct L as [L | L]; [| now rewrite L].
    eapply OrderFacts.key_lt_trans; eauto. }
  now rewrite Hcy.
Qed.

Lemma insert_stable (c x : A) (l : list A) :
  scored score c -> scored score x -> Forall (scored score) l ->
  filter (tied score c) (JsArray.insert (descending score) x l)
  = filter (tied score c) (x :: l).
Proof.
  intros Hc Hx Hl. induction Hl as [| y r Sy Sr IH]; [reflexivity |].
  rewrite insert_descending by (auto; now constructor).
  destruct (Number.lt (score x) (score y)) eqn:E; [| reflexivity].
  cbn [filter] in *. rewrite IH.
  destruct (tied score c x) eqn:Tx; [| reflexivity].
  now rewrite (tied_above c x y Hc Hx Sy Tx E).
Qed.

(** The sort is stable: the elements tied with any given one keep their
    order. *)
Lemma sort_stable (c : A) (l : list A) :
  scored score c -> Forall (scored score) l ->
  filter (tied score c) (JsArray.sort (descending score) l)
  = filter (tied score c) l.
Proof.
  intros Hc Hl. induction Hl as [| x r Hx Hr IH]; [reflexivity |].
  cbn [JsArray.sort]. rewrite insert_stable; auto.
  - cbn [filter]. now rewrite IH.
  - apply (Permutation_Forall (sort_permutation _ r)), Hr.
Qed.

End StableSort.

(** ** Strongest and weakest component *)

Lemma componentStats_eq (students : list StudentData.t) :
  AnalysisResult.componentStats (performFullAnalysis students)
  = map (componentStat students) (componentKeys students).
Proof. reflexivity. Qed.

Lemma strongest_eq (students : list StudentData.t) :
  AnalysisResult.strongestComponent (performFullAnalysis students)
  = or_NA (option_map ComponentStat.name
             (hd_error (JsArray.sort (descending ComponentStat.mean)
                          (map (componentStat students) (componentKeys students))))).
Proof.
  unfold performFullAnalysis. cbn [AnalysisResult.strongestComponent].
  destruct (JsArray.sort _ _); reflexivity.
Qed.

Lemma weakest_eq (students : list StudentData.t) :
  AnalysisResult.weakestComponent (performFullAnalysis students)
  = or_NA (option_map ComponentStat.name
             (let sorted := JsArray.sort (descending ComponentStat.mean)
                              (map (componentStat students) (componentKeys students)) in
              nth_error sorted (length sorted - 1))).
Proof. reflexivity. Qed.

Lemma stats_scored (students : list StudentData.t) :
  (forall key, In key (componentKeys students) ->
     Number.isNaN (calculateMean (map (component_score key) students)) = false) ->
  Forall (scored ComponentStat.mean)
         (map (componentStat students) (componentKeys students)).
Proof.
  intros Hnan. apply Forall_forall. intros c Hc.
  apply in_map_iff in Hc. destruct Hc as (key & <- & Hkey).
  split; [apply RoundingFacts.calculateMean_valid | now apply Hnan].
Qed.

Lemma stat_position (students : list StudentData.t) (i : nat) (c : ComponentStat.t) :
  nth_error (map (componentStat students) (componentKeys students)) i = Some c ->
  nth_error (componentKeys students) i = Some (ComponentStat.name c).
Proof.
  rewrite nth_error_map.
  destruct (nth_error (componentKeys students) i); [| discriminate].
  cbn [option_map]. now intros [= <-].
Qed.

(** C1, as stated, fails: with components Quiz and Exam, enumerated in
    this order and both of mean 80, the strongest component is Quiz, the
    first, but the weakest is Exam, the last of the tie, not the first. *)
Lemma weakest_tie_counterexample :
  let r := performFullAnalysis tied_students in
  componentKeys tied_students = ["Quiz"; "Exam"]%string /\
  map ComponentStat.mean (AnalysisResult.componentStats r)
  = [Number.of_Z 80; Number.of_Z 80] /\
  AnalysisResult.strongestComponent r = "Quiz"%string /\
  AnalysisResult.weakestComponent r = "Exam"%string /\
  AnalysisResult.weakestComponent r <> "Quiz"%string.
Proof.
  vm_compute. repeat split. discriminate.
Qed.

(** With components Quiz of mean 90 and Exam of mean 60, the strongest is
    Quiz and the weakest Exam. *)
Example strongest_weakest_example :
  let r := performFullAnalysis (processStudents tied_mapping [uneven_row]) in
  map ComponentStat.mean (AnalysisResult.componentStats r)
  = [Number.of_Z 90; Number.of_Z 60] /\
  AnalysisResult.strongestComponent r = "Quiz"%string /\
  AnalysisResult.weakestComponent r = "Exam"%string.
Proof.
  vm_compute. repeat split.
Qed.

(** C1 (amended): for a non-empty student list with a non-empty component
    set none of whose component means is NaN, [strongestComponent] is the
    name of a component of maximum mean and [weakestComponent] the name of
    a component of minimum mean (an empty name being reported as 'N/A');
    among the components tying on the maximum the first in enumeration
    order is the strongest, and among those tying on the minimum the last
    in enumeration order is the weakest. *)
Theorem strongest_first_weakest_last (students : list StudentData.t) :
  students <> [] ->
  componentKeys students <> [] ->
  (forall key, In key (componentKeys students) ->
     Number.isNaN (calculateMean (map (component_score key) students)) = false) ->
  let r := performFullAnalysis students in
  exists i j cs cw,
    first_maximum ComponentStat.mean (AnalysisResult.componentStats r) i cs /\
    last_minimum ComponentStat.mean (AnalysisResult.componentStats r) j cw /\
    nth_error (componentKeys students) i = Some (ComponentStat.name cs) /\
    nth_error (componentKeys students) j = Some (ComponentStat.name cw) /\
    AnalysisResult.strongestComponent r = or_NA (Some (ComponentStat.name cs)) /\
    AnalysisResult.weakestComponent r = or_NA (Some (ComponentStat.name cw)).
Proof.
  intros _ Hkeys Hnan r. unfold r.
  rewrite componentStats_eq, strongest_eq, weakest_eq.
  set (stats := map (componentStat students) (componentKeys students)).
  assert (Hne : stats <> []).
  { unfold stats. destruct (componentKeys students); [contradiction | discriminate]. }
  pose proof (stats_scored students Hnan) as Hsc. fold stats in Hsc.
  destruct (sort_head_first_maximum ComponentStat.mean stats Hsc Hne)
    as (i & cs & Hhd & Hmax).
  assert (Hd : exists d : ComponentStat.t, True)
    by (destruct stats as [| d ?]; [contradiction | now exists d]).
  destruct Hd as [d _].
  destruct (sort_last_last_minimum ComponentStat.mean d stats Hsc Hne) as (j & Hmin).
  set (cw := last (JsArray.sort (descending ComponentStat.mean) stats) d) in *.
  exists i, j, cs, cw. repeat split; try apply Hmax; try apply Hmin.
  - apply stat_position, Hmax.
  - apply stat_position, Hmin.
  - now rewrite Hhd.
  - cbv zeta.
    rewrite (nth_error_last d) by (rewrite sort_nil_iff; exact Hne).
    reflexivity.
Qed.

Lemma strongest_first_weakest_last_witness :
  exists i j cs cw,
    first_maximum ComponentStat.mean
      (AnalysisResult.componentStats (performFullAnalysis tied_students)) i cs /\
    last_minimum ComponentStat.mean
      (AnalysisResult.componentStats (performFullAnalysis tied_students)) j cw /\
    nth_error (componentKeys tied_students) i = Some (ComponentStat.name cs) /\
    nth_error (componentKeys tied_students) j = Some (ComponentStat.name cw) /\
    AnalysisResult.strongestComponent (performFullAnalysis tied_students)
    = or_NA (Some (ComponentStat.name cs)) /\
    AnalysisResult.weakestComponent (performFullAnalysis tied_students)
    = or_NA (Some (ComponentStat.name cw)).
Proof.
  apply (strongest_first_weakest_last tied_students).
  - discriminate.
  - discriminate.
  - intros key Hkey.
    change (componentKeys tied_students) with ["Quiz"; "Exam"]%string in Hkey.
    destruct Hkey as [<- | [<- | []]]; vm_compute; reflexivity.
Defined.

(** * Further properties of the code

    Properties of the statistics primitives, of the controller, and of the
    components around it: the sheet selection, the column mapper, the
    dashboard and the student list. *)

(** ** Minimum and maximum *)

Lemma index_loop {S : Type} (f : num -> S -> S) (xs : list num) :
  forall (pre : list num) (init : S),
    fold_left (fun st i => f (JsArray.at_ (pre ++ xs) i) st)
              (seq (length pre) (length xs)) init
    = fold_left (fun st y => f y st) xs init.
Proof.
  induction xs as [|y ys IH]; intros pre init; [reflexivity|].
  cbn [length seq fold_left].
  replace (JsArray.at_ (pre ++ y :: ys) (length pre)) with y
    by (unfold JsArray.at_; rewrite nth_middle; reflexivity).
  replace (pre ++ y :: ys) with ((pre ++ [y]) ++ ys) by (rewrite <- app_assoc; reflexivity).
  replace (Datatypes.S (length pre)) with (length (pre ++ [y]))
    by (rewrite length_app; cbn; lia).
  apply IH.
Qed.

Lemma calculateMin_running (x : num) (xs : list num) :
  calculateMin (x :: xs)
  = fold_left (fun min y => if Number.lt y min then y else min) xs x.
Proof.
  unfold calculateMin, JsArray.for_loop.
  cbn [length]. replace (S (length xs) - 1)%nat with (length xs) by lia.
  exact (index_loop (fun y min => if Number.lt y min then y else min) xs [x] x).
Qed.

Lemma calculateMax_running (x : num) (xs : list num) :
  calculateMax (x :: xs)
  = fold_left (fun max y => if Number.gt y max then y else max) xs x.
Proof.
  unfold calculateMax, JsArray.for_loop.
  cbn [length]. replace (S (length xs) - 1)%nat with (length xs) by lia.
  exact (index_loop (fun y max => if Number.gt y max then y else max) xs [x] x).
Qed.

Lemma running_min (xs : list num) :
  forall m : num,
    Number.isNaN m = false ->
    let r := fold_left (fun min y => if Number.lt y min then y else min) xs m in
    Number.isNaN r = false /\ (r = m \/ In r xs) /\ Number.le r m = true /\
    (forall y, In y xs -> Number.isNaN y = false -> Number.le r y = true).
Proof.
  induction xs as [|y ys IH]; intros m Hm; cbn [fold_left].
  - repeat split; auto using OrderOfNumbers.le_refl; try (intros y []; fail).
  - destruct (Number.lt y m) eqn:E.
    + pose proof (NumberFacts.lt_not_nan _ _ E) as Hy.
      destruct (IH y Hy) as (Hr & Hin & Hle & Hall).
      repeat split; auto.
      * destruct Hin as [->|Hin]; right; [left; reflexivity | right; exact Hin].
      * eapply OrderOfNumbers.le_trans; [exact Hle | apply OrderOfNumbers.lt_le, E].
      * intros z [<-|Hz] Hnz; auto.
    + destruct (IH m Hm) as (Hr & Hin & Hle & Hall).
      repeat split; auto.
      * destruct Hin as [->|Hin]; [left; reflexivity | right; right; exact Hin].
      * intros z [<-|Hz] Hnz; auto.
        eapply OrderOfNumbers.le_trans; [exact Hle|].
        apply OrderOfNumbers.not_lt_le; assumption.
Qed.

Lemma running_max (xs : list num) :
  forall m : num,
    Number.isNaN m = false ->
    let r := fold_left (fun max y => if Number.gt y max then y else max) xs m in
    Number.isNaN r = false /\ (r = m \/ In r xs) /\ Number.le m r = true /\
    (forall y, In y xs -> Number.isNaN y = false -> Number.le y r = true).
Proof.
  induction xs as [|y ys IH]; intros m Hm; cbn [fold_left].
  - repeat split; auto using OrderOfNumbers.le_refl; try (intros y []; fail).
  - destruct (Number.gt y m) eqn:E.
    + change (Number.lt m y = true) in E.
      pose proof (OrderFacts.lt_not_nan_r _ _ E) as Hy.
      destruct (IH y Hy) as (Hr & Hin & Hle & Hall).
      repeat split; auto.
      * destruct Hin as [->|Hin]; right; [left; reflexivity | right; exact Hin].
      * eapply OrderOfNumbers.le_trans; [apply OrderOfNumbers.lt_le, E | exact Hle].
      * intros z [<-|Hz] Hnz; auto.
    + change (Number.lt m y = false) in E.
      destruct (IH m Hm) as (Hr & Hin & Hle & Hall).
      repeat split; auto.
      * destruct Hin as [->|Hin]; [left; reflexivity | right; right; exact Hin].
      * intros z [<-|Hz] Hnz; auto.
        eapply OrderOfNumbers.le_trans; [|exact Hle].
        apply OrderOfNumbers.not_lt_le; assumption.
Qed.

Lemma running_nan (f : num -> num -> bool) (xs : list num) :
  (forall y, f y Number.NaN = false) ->
  fold_left (fun m y => if f y m then y else m) xs Number.NaN = Number.NaN.
Proof.
  intros Hf. induction xs as [|y ys IH]; cbn [fold_left]; [reflexivity|].
  rewrite Hf. exact IH.
Qed.

(** X1.  On an array whose first element is a number, [calculateMin]
    returns one of the elements, not NaN, and no element that is a number is
    below it: the NaN entries after the first are passed over. *)
Theorem calculateMin_least (x : num) (xs : list num) :
  Number.isNaN x = false ->
  let r := calculateMin (x :: xs) in
  In r (x :: xs) /\ Number.isNaN r = false /\
  (forall y, In y (x :: xs) -> Number.isNaN y = false -> Number.le r y = true).
Proof.
  intros Hx. cbv zeta. rewrite calculateMin_running.
  destruct (running_min xs x Hx) as (Hr & Hin & Hle & Hall).
  repeat split; auto.
  - destruct Hin as [->|Hin]; [left; reflexivity | right; exact Hin].
  - intros y [<-|Hy] Hn; auto.
Qed.

Lemma calculateMin_least_witness :
  let r := calculateMin (map Number.of_Z [3; 1; 2]) in
  In r (map Number.of_Z [3; 1; 2]) /\ Number.isNaN r = false /\
  (forall y, In y (map Number.of_Z [3; 1; 2]) -> Number.isNaN y = false ->
     Number.le r y = true).
Proof.
  exact (calculateMin_least (Number.of_Z 3) (map Number.of_Z [1; 2]) eq_refl).
Defined.

(** X2.  On an array whose first element is a number, [calculateMax]
    returns one of the elements, not NaN, and no element that is a number is
    above it. *)
Theorem calculateMax_greatest (x : num) (xs : list num) :
  Number.isNaN x = false ->
  let r := calculateMax (x :: xs) in
  In r (x :: xs) /\ Number.isNaN r = false /\
  (forall y, In y (x :: xs) -> Number.isNaN y = false -> Number.le y r = true).
Proof.
  intros Hx. cbv zeta. rewrite calculateMax_running.
  destruct (running_max xs x Hx) as (Hr & Hin & Hle & Hall).
  repeat split; auto.
  - destruct Hin as [->|Hin]; [left; reflexivity | right; exact Hin].
  - intros y [<-|Hy] Hn; auto.
Qed.

Lemma calculateMax_greatest_witness :
  let r := calculateMax (map Number.of_Z [1; 3; 2]) in
  In r (map Number.of_Z [1; 3; 2]) /\ Number.isNaN r = false /\
  (forall y, In y (map Number.of_Z [1; 3; 2]) -> Number.isNaN y = false ->
     Number.le y r = true).
Proof.
  exact (calculateMax_greatest (Number.of_Z 1) (map Number.of_Z [3; 2]) eq_refl).
Defined.

(** X3.  A NaN in the first position is never replaced: every comparison
    with it is false, and both extremes are NaN whatever follows. *)
Theorem extremes_of_nan_head (xs : list num) :
  calculateMin (Number.NaN :: xs) = Number.NaN /\
  calculateMax (Number.NaN :: xs) = Number.NaN.
Proof.
  rewrite calculateMin_running, calculateMax_running. split.
  - apply (running_nan Number.lt). intros [| | |]; reflexivity.
  - apply (running_nan Number.gt). intros [| | |]; reflexivity.
Qed.

(** ** Tallies and the mode *)

Lemma count_app {A : Type} (p : A -> bool) (l1 l2 : list A) :
  count p (l1 ++ l2) = (count p l1 + count p l2)%nat.
Proof. unfold count. now rewrite filter_app, length_app. Qed.

Lemma tallied_set (freq : JsObject.t nat) (k k' : string) (c : nat) :
  tallied (JsObject.set freq k c) k'
  = if String.eqb k k' then c else tallied freq k'.
Proof.
  unfold tallied. rewrite ObjectFacts.get_set.
  destruct (String.eqb k k'); reflexivity.
Qed.

Lemma occurrences_snoc (k : string) (done : list num) (n : num) :
  occurrences k (done ++ [n])
  = (occurrences k done
     + Nat.b2n (String.eqb (JsString.of_number n) k))%nat.
Proof.
  unfold occurrences. rewrite count_app. f_equal.
  unfold count. cbn [filter].
  destruct (String.eqb (JsString.of_number n) k); reflexivity.
Qed.

Lemma mode_step_invariant (done : list num) (st : mode_state) (n : num) :
  mode_invariant done st -> mode_invariant (done ++ [n]) (mode_step st n).
Proof.
  intros [Hexact Hbound Hplace].
  assert (Hcount : S (match JsObject.get (frequency st) (JsString.of_number n) with
                      | Some c => c | None => O end)
                   = occurrences (JsString.of_number n) (done ++ [n])).
  { rewrite occurrences_snoc, String.eqb_refl. cbn [Nat.b2n].
    fold (tallied (frequency st) (JsString.of_number n)). rewrite Hexact. lia. }
  unfold mode_step. rewrite Hcount.
  set (key := JsString.of_number n) in *.
  assert (Hexact' : forall k,
             tallied (JsObject.set (frequency st) key (occurrences key (done ++ [n]))) k
             = occurrences k (done ++ [n])).
  { intros k. rewrite tallied_set. destruct (String.eqb key k) eqn:E.
    - apply String.eqb_eq in E. now subst k.
    - rewrite occurrences_snoc. fold key. rewrite E, Hexact. cbn. lia. }
  destruct (Nat.ltb (maxFreq st) (occurrences key (done ++ [n]))) eqn:Elt.
  - apply Nat.ltb_lt in Elt.
    assert (Hprev : forall k, (occurrences k done <= maxFreq st)%nat) by exact Hbound.
    split; cbn [frequency maxFreq mode_of].
    + exact Hexact'.
    + intros k. rewrite occurrences_snoc. fold key.
      destruct (String.eqb key k) eqn:E.
      * apply String.eqb_eq in E. subst k.
        rewrite occurrences_snoc. fold key. rewrite String.eqb_refl. lia.
      * specialize (Hprev k). cbn [Nat.b2n]. lia.
    + right. exists done, []. repeat split; auto.
      intros k. specialize (Hprev k). lia.
  - apply Nat.ltb_ge in Elt.
    split; cbn [frequency maxFreq mode_of].
    + exact Hexact'.
    + intros k. rewrite occurrences_snoc. fold key.
      destruct (String.eqb key k) eqn:E.
      * apply String.eqb_eq in E. subst k.
        rewrite occurrences_snoc in Elt. fold key in Elt.
        rewrite String.eqb_refl in Elt. exact Elt.
      * specialize (Hbound k). cbn [Nat.b2n]. lia.
    + right. destruct Hplace as [[-> H0] | (pre & post & Hdone & Hfull & Hpre)].
      * rewrite occurrences_snoc in Elt. fold key in Elt.
        rewrite String.eqb_refl in Elt. cbn [Nat.b2n] in Elt. lia.
      * exists pre, (post ++ [n]). repeat split; auto.
        rewrite Hdone, <- app_assoc. reflexivity.
Qed.

Lemma mode_loop_invariant (rest : list num) :
  forall (done : list num) (st : mode_state),
    mode_invariant done st ->
    mode_invariant (done ++ rest) (fold_left mode_step rest st).
Proof.
  induction rest as [|n rest IH]; intros done st Hinv; cbn [fold_left].
  - now rewrite app_nil_r.
  - replace (done ++ n :: rest) with ((done ++ [n]) ++ rest)
      by (rewrite <- app_assoc; reflexivity).
    apply IH, mode_step_invariant, Hinv.
Qed.

(** X4.  On a non-empty array [calculateMode] returns an element that no
    value outnumbers, values being told apart by the string [String] writes
    for them.  It is the last occurrence of its value, and before it no
    value had reached that frequency: among the most frequent values the
    one whose count is complete first wins. *)
Theorem calculateMode_most_frequent (numbers : list num) :
  numbers <> [] ->
  let r := calculateMode numbers in
  let most := occurrences (JsString.of_number r) numbers in
  (forall k, (occurrences k numbers <= most)%nat) /\
  exists pre post,
    numbers = pre ++ r :: post /\
    occurrences (JsString.of_number r) (pre ++ [r]) = most /\
    (forall k, (occurrences k pre < most)%nat).
Proof.
  intros Hne. destruct numbers as [|first rest]; [contradiction|].
  cbv zeta. unfold calculateMode.
  set (st0 := {| frequency := []; maxFreq := O; mode_of := first |}).
  assert (H0 : mode_invariant [] st0).
  { split; [reflexivity | intros k; cbn; lia | left; split; reflexivity]. }
  pose proof (mode_loop_invariant (first :: rest) [] st0 H0) as [Hexact Hbound Hplace].
  cbn [app] in *.
  set (st := fold_left mode_step (first :: rest) st0) in *.
  destruct Hplace as [[Hnil _] | (pre & post & Hdone & Hfull & Hpre)];
    [discriminate|].
  assert (Hmost : occurrences (JsString.of_number (mode_of st)) (first :: rest)
                  = maxFreq st).
  { apply Nat.le_antisymm; [apply Hbound|].
    rewrite <- Hfull, Hdone.
    replace (pre ++ mode_of st :: post) with ((pre ++ [mode_of st]) ++ post)
      by (rewrite <- app_assoc; reflexivity).
    unfold occurrences. rewrite (count_app _ (pre ++ [mode_of st]) post). lia. }
  rewrite Hmost. split; [exact Hbound|].
  exists pre, post. repeat split; auto.
Qed.

Lemma calculateMode_most_frequent_witness :
  let numbers := map Number.of_Z [7; 5; 5; 7] in
  let r := calculateMode numbers in
  let most := occurrences (JsString.of_number r) numbers in
  (forall k, (occurrences k numbers <= most)%nat) /\
  exists pre post,
    numbers = pre ++ r :: post /\
    occurrences (JsString.of_number r) (pre ++ [r]) = most /\
    (forall k, (occurrences k pre < most)%nat).
Proof.
  apply (calculateMode_most_frequent (map Number.of_Z [7; 5; 5; 7])).
  discriminate.
Defined.

(** ** The standard deviation is not negative *)

Lemma round_aux_sign (s : bool) (m e : Z) (l : location) :
  match binary_round_aux Number.prec Number.emax s m e l with
  | S754_zero s' | S754_infinity s' | S754_finite s' _ _ => s' = s
  | S754_nan => True
  end.
Proof.
  unfold binary_round_aux.
  destruct (shr_fexp Number.prec Number.emax m e l) as [mrs' e'].
  destruct (shr_fexp Number.prec Number.emax _ e' loc_Exact) as [mrs'' e''].
  destruct (shr_m mrs''); [reflexivity | | exact I].
  destruct (e'' <=? Number.emax - Number.prec); reflexivity.
Qed.

Lemma sqrt_not_negative (v : num) :
  Number.isNaN (Number.sqrt v) = true
  \/ Number.ge (Number.sqrt v) Number.zero = true.
Proof.
  destruct v as [s | [|] | | [|] m e]; try (left; reflexivity).
  - right. destruct s; reflexivity.
  - right. reflexivity.
  - unfold Number.sqrt, SFsqrt.
    destruct (SFsqrt_core_binary Number.prec Number.emax (Z.pos m) e) as [[mz ez] lz].
    pose proof (round_aux_sign false mz ez lz) as H.
    destruct (binary_round_aux Number.prec Number.emax false mz ez lz)
      as [s | s | | s m' e']; subst; auto.
Qed.

(** X5.  Whatever the array and the mean passed to it, [calculateStdDev]
    never returns a negative number: its result is NaN or at least 0. *)
Theorem calculateStdDev_not_negative (numbers : list num) (mean : num) :
  Number.isNaN (calculateStdDev numbers mean) = true
  \/ Number.ge (calculateStdDev numbers mean) Number.zero = true.
Proof.
  destruct numbers as [|x xs]; [right; reflexivity|].
  unfold calculateStdDev. apply sqrt_not_negative.
Qed.

(** ** The median *)

Section AscendingSort.

Let asc (a b : num) : num := Number.sub a b.
Let number (x : num) : Prop := scored (fun v : num => v) x.

Lemma insert_ascending (x : num) (l : list num) :
  number x -> Forall number l ->
  JsArray.insert asc x l
  = match l with
    | [] => [x]
    | y :: r => if Number.lt y x then y :: JsArray.insert asc x r else x :: l
    end.
Proof.
  intros [Vx Nx] Hl. destruct l as [|y r]; [reflexivity|].
  inversion Hl as [|? ? [Vy Ny] _]; subst. cbn [JsArray.insert]. unfold asc at 1.
  now rewrite RoundingFacts.sub_positive_iff_lt.
Qed.

Lemma insert_ascending_sorted (x : num) (l : list num) :
  number x -> Forall number l -> ascending l ->
  ascending (JsArray.insert asc x l).
Proof.
  intros Hx Hl Hs. induction Hs as [|y r Hr IH Hy].
  - repeat constructor.
  - inversion Hl as [|? ? Sy Sr]; subst.
    rewrite insert_ascending by assumption.
    destruct (Number.lt y x) eqn:E.
    + constructor; [now apply IH|].
      apply (Permutation_Forall (insert_permutation _ x r)).
      constructor; [now apply lt_asym | exact Hy].
    + constructor; [now constructor|].
      constructor; [exact E|].
      rewrite Forall_forall in Hy, Sr |- *. intros z Hz.
      apply not_lt_trans with y;
        try apply Hx; try apply Sy; try (apply Sr, Hz); auto.
Qed.

Lemma sort_ascending (l : list num) :
  Forall number l -> ascending (JsArray.sort asc l).
Proof.
  induction 1 as [|x r Hx Hr IH]; [constructor|].
  cbn [JsArray.sort]. apply insert_ascending_sorted; auto.
  apply (Permutation_Forall (sort_permutation _ r)), Hr.
Qed.

End AscendingSort.

(** X6.  On a non-empty array of numbers [calculateMedian] reads the
    middle of the ascending arrangement of the array: the middle element
    when the length is odd, in which case the median is one of the
    elements, and half the sum of the two middle elements when it is
    even. *)
Theorem calculateMedian_middle (numbers : list num) :
  numbers <> [] ->
  Forall (scored (fun v : num => v)) numbers ->
  exists sorted,
    Permutation numbers sorted /\ ascending sorted /\
    let mid := Nat.div (length numbers) 2 in
    calculateMedian numbers
    = (if Nat.odd (length numbers) then JsArray.at_ sorted mid
       else Number.div (Number.add (JsArray.at_ sorted (mid - 1))
                                   (JsArray.at_ sorted mid))
                       (Number.of_Z 2))
    /\ (Nat.odd (length numbers) = true -> In (calculateMedian numbers) numbers).
Proof.
  intros Hne Hall.
  set (sorted := JsArray.sort (fun a b => Number.sub a b) numbers).
  assert (Hperm : Permutation numbers sorted) by apply sort_permutation.
  assert (Hlen : length sorted = length numbers)
    by (symmetry; apply Permutation_length, Hperm).
  assert (Hmed : calculateMedian numbers
                 = if Nat.odd (length numbers)
                   then JsArray.at_ sorted (Nat.div (length numbers) 2)
                   else Number.div
                          (Number.add (JsArray.at_ sorted (Nat.div (length numbers) 2 - 1))
                                      (JsArray.at_ sorted (Nat.div (length numbers) 2)))
                          (Number.of_Z 2)).
  { destruct numbers as [|x xs]; [contradiction|].
    unfold calculateMedian. fold sorted. rewrite Hlen.
    rewrite <- Nat.bit0_mod, Nat.bit0_odd.
    destruct (Nat.odd (length (x :: xs))); reflexivity. }
  exists sorted. split; [exact Hperm | split; [apply sort_ascending, Hall|]].
  cbv zeta. split; [exact Hmed|].
  intros Hodd. rewrite Hmed, Hodd.
  apply (Permutation_in _ (Permutation_sym Hperm)).
  unfold JsArray.at_. apply nth_In. rewrite Hlen.
  apply Nat.div_lt; [|lia]. destruct numbers; [contradiction | cbn; lia].
Qed.

Lemma calculateMedian_middle_witness :
  exists sorted,
    Permutation (map Number.of_Z [9; 2; 4]) sorted /\ ascending sorted /\
    let mid := Nat.div (length (map Number.of_Z [9; 2; 4])) 2 in
    calculateMedian (map Number.of_Z [9; 2; 4])
    = (if Nat.odd (length (map Number.of_Z [9; 2; 4])) then JsArray.at_ sorted mid
       else Number.div (Number.add (JsArray.at_ sorted (mid - 1))
                                   (JsArray.at_ sorted mid))
                       (Number.of_Z 2))
    /\ (Nat.odd (length (map Number.of_Z [9; 2; 4])) = true ->
        In (calculateMedian (map Number.of_Z [9; 2; 4])) (map Number.of_Z [9; 2; 4])).
Proof.
  apply (calculateMedian_middle (map Number.of_Z [9; 2; 4])).
  - discriminate.
  - repeat constructor.
Defined.

(** ** The classifier is monotone *)

Lemma ge_floor (p q : num) (c : Z) :
  Number.le p q = true ->
  Number.ge p (Number.of_Z c) = true -> Number.ge q (Number.of_Z c) = true.
Proof. intros Hpq Hp. exact (OrderFacts.ge_trans q p _ Hpq Hp). Qed.

(** X7.  Both classifiers are monotone: a percentage that is at least
    another one gets a group, and a grade letter, that is at least as
    high. *)
Theorem classifiers_monotone (p q : num) :
  Number.le p q = true ->
  (group_rank (determineGroup p) <= group_rank (determineGroup q))%nat /\
  (grade_rank (determineGrade p) <= grade_rank (determineGrade q))%nat.
Proof.
  intros Hpq.
  pose proof (ge_floor p q 90 Hpq) as H90.
  pose proof (ge_floor p q 80 Hpq) as H80.
  pose proof (ge_floor p q 75 Hpq) as H75.
  pose proof (ge_floor p q 70 Hpq) as H70.
  pose proof (ge_floor p q 60 Hpq) as H60.
  pose proof (ge_floor p q 50 Hpq) as H50.
  unfold determineGroup, determineGrade.
  destruct (Number.ge p (Number.of_Z 90)); [rewrite H90 by reflexivity; cbn; lia|].
  destruct (Number.ge q (Number.of_Z 90)); [cbn; split;
    repeat match goal with |- context [if ?b then _ else _] => destruct b end;
    cbn; lia|].
  split.
  - destruct (Number.ge p (Number.of_Z 75)); [rewrite H75 by reflexivity; cbn; lia|].
    destruct (Number.ge q (Number.of_Z 75)); [
      repeat match goal with |- context [if ?b then _ else _] => destruct b end;
      cbn; lia|].
    destruct (Number.ge p (Number.of_Z 60)); [rewrite H60 by reflexivity; cbn; lia|].
    destruct (Number.ge q (Number.of_Z 60)); [
      repeat match goal with |- context [if ?b then _ else _] => destruct b end;
      cbn; lia|].
    destruct (Number.ge p (Number.of_Z 50)); [rewrite H50 by reflexivity; cbn; lia|].
    destruct (Number.ge q (Number.of_Z 50)); cbn; lia.
  - destruct (Number.ge p (Number.of_Z 80)); [rewrite H80 by reflexivity; cbn; lia|].
    destruct (Number.ge q (Number.of_Z 80)); [
      repeat match goal with |- context [if ?b then _ else _] => destruct b end;
      cbn; lia|].
    destruct (Number.ge p (Number.of_Z 70)); [rewrite H70 by reflexivity; cbn; lia|].
    destruct (Number.ge q (Number.of_Z 70)); [
      repeat match goal with |- context [if ?b then _ else _] => destruct b end;
      cbn; lia|].
    destruct (Number.ge p (Number.of_Z 60)); [rewrite H60 by reflexivity; cbn; lia|].
    destruct (Number.ge q (Number.of_Z 60)); cbn; lia.
Qed.

Lemma classifiers_monotone_witness :
  (group_rank (determineGroup (Number.of_Z 59))
   <= group_rank (determineGroup (Number.of_Z 60)))%nat /\
  (grade_rank (determineGrade (Number.of_Z 59))
   <= grade_rank (determineGrade (Number.of_Z 60)))%nat.
Proof.
  apply (classifiers_monotone (Number.of_Z 59) (Number.of_Z 60)). reflexivity.
Defined.

(** ** Objects: keys and spread *)

Module KeyFacts.

Lemma get_in {V : Type} (o : JsObject.t V) (k : string) :
  JsObject.get o k <> None <-> In k (map fst o).
Proof.
  induction o as [|[k0 v0] o IH]; cbn [JsObject.get map fst In].
  - split; [congruence | tauto].
  - destruct (String.eqb k0 k) eqn:E.
    + apply String.eqb_eq in E. split; [auto | discriminate].
    + apply String.eqb_neq in E. rewrite IH. tauto.
Qed.

Lemma in_insert_index (i : Z) (k : string) (l : list (Z * string)) (x : Z * string) :
  In x (JsObject.insert_index i k l) <-> x = (i, k) \/ In x l.
Proof.
  induction l as [|[j k'] l IH]; cbn [JsObject.insert_index In].
  - intuition congruence.
  - destruct (i <? j); cbn [In]; [intuition congruence|].
    rewrite IH. intuition congruence.
Qed.

Lemma in_index_keys {V : Type} (o : JsObject.t V) (i : Z) (k : string) :
  In (i, k) (JsObject.index_keys o)
  <-> In k (map fst o) /\ JsObject.array_index k = Some i.
Proof.
  induction o as [|[k0 v0] o IH]; cbn [JsObject.index_keys map fst In].
  - tauto.
  - destruct (JsObject.array_index k0) as [i0|] eqn:E.
    + rewrite in_insert_index, IH. split.
      * intros [H | [H1 H2]]; [injection H as -> ->; auto | auto].
      * intros [[-> | H1] H2]; [left; congruence | auto].
    + rewrite IH. split; [tauto|].
      intros [[-> | H1] H2]; [congruence | auto].
Qed.

Lemma in_string_keys {V : Type} (o : JsObject.t V) (k : string) :
  In k (JsObject.string_keys o)
  <-> In k (map fst o) /\ JsObject.array_index k = None.
Proof.
  induction o as [|[k0 v0] o IH]; cbn [JsObject.string_keys map fst In].
  - tauto.
  - destruct (JsObject.array_index k0) as [i0|] eqn:E; cbn [In]; rewrite IH.
    + split; [tauto|]. intros [[-> | H1] H2]; [congruence | auto].
    + split; [intros [-> | [H1 H2]]; auto | tauto].
Qed.

(** [Object.keys] lists the own properties, each of them. *)
Lemma in_keys {V : Type} (o : JsObject.t V) (k : string) :
  In k (JsObject.keys o) <-> In k (map fst o).
Proof.
  unfold JsObject.keys. rewrite in_app_iff, in_string_keys, in_map_iff. split.
  - intros [([i k'] & Hk & Hin) | [H _]]; [|exact H].
    cbn [snd] in Hk. subst k'. now apply in_index_keys in Hin.
  - intros Hin. destruct (JsObject.array_index k) as [i|] eqn:E; [left | right; auto].
    exists (i, k). split; [reflexivity|]. now apply in_index_keys.
Qed.

Lemma keys_get {V : Type} (o : JsObject.t V) (k : string) :
  In k (JsObject.keys o) <-> JsObject.hasOwnProperty o k = true.
Proof.
  rewrite in_keys, <- get_in. unfold JsObject.hasOwnProperty.
  destruct (JsObject.get o k); split; congruence.
Qed.

Lemma get_copy {V : Type} (o : JsObject.t V) (k : string) (ks : list string) :
  forall acc : JsObject.t V,
    JsObject.get
      (fold_left
         (fun acc k => match JsObject.get o k with
                       | Some v => JsObject.set acc k v
                       | None => acc
                       end) ks acc) k
    = if existsb (String.eqb k) ks
      then match JsObject.get o k with
           | Some v => Some v
           | None => JsObject.get acc k
           end
      else JsObject.get acc k.
Proof.
  induction ks as [|k1 ks IH]; intros acc; cbn [fold_left existsb]; [reflexivity|].
  rewrite IH. clear IH.
  destruct (String.eqb k k1) eqn:E; cbn [orb].
  - apply String.eqb_eq in E. subst k1.
    destruct (JsObject.get o k) as [v|] eqn:G.
    + rewrite ObjectFacts.get_set, String.eqb_refl.
      destruct (existsb (String.eqb k) ks); reflexivity.
    + destruct (existsb (String.eqb k) ks); reflexivity.
  - assert (Hk : JsObject.get
                   match JsObject.get o k1 with
                   | Some v => JsObject.set acc k1 v
                   | None => acc
                   end k = JsObject.get acc k).
    { destruct (JsObject.get o k1); [|reflexivity].
      rewrite ObjectFacts.get_set, String.eqb_sym, E. reflexivity. }
    rewrite Hk. reflexivity.
Qed.

(** The copy [{...o}] reads as [o] does. *)
Lemma get_spread {V : Type} (o : JsObject.t V) (k : string) :
  JsObject.get (JsObject.spread o) k = JsObject.get o k.
Proof.
  unfold JsObject.spread. rewrite get_copy. cbn [JsObject.get].
  destruct (existsb (String.eqb k) (JsObject.keys o)) eqn:E.
  - destruct (JsObject.get o k); reflexivity.
  - destruct (JsObject.get o k) eqn:G; [|reflexivity].
    assert (Hin : In k (JsObject.keys o)).
    { apply in_keys, get_in. congruence. }
    assert (existsb (String.eqb k) (JsObject.keys o) = true).
    { apply existsb_exists. exists k. split; [exact Hin | apply String.eqb_refl]. }
    congruence.
Qed.

End KeyFacts.

(** ** Rows tagged with their sheet *)

Lemma get_tag_row (sheet : string) (r : RawRow) (k : string) :
  JsObject.get (tag_row sheet r) k
  = if String.eqb "SheetSource" k then Some (CString sheet) else JsObject.get r k.
Proof.
  unfold tag_row. rewrite ObjectFacts.get_set, KeyFacts.get_spread. reflexivity.
Qed.

Lemma resolve_sheet_tag_row (sheet : string) (r : RawRow) :
  resolve_sheet (tag_row sheet r) = sheet_label sheet.
Proof.
  unfold resolve_sheet, Cell.read, sheet_label. rewrite get_tag_row.
  rewrite String.eqb_refl. cbn [Cell.truthy].
  destruct (JsString.truthy sheet); reflexivity.
Qed.

(** X8.  The copy of a row made for the merge carries the sheet in its
    [SheetSource] property and reads as the row in every other column; the
    sheet name of the record built from it is the sheet, or ['Unknown'] for
    a sheet whose name is empty. *)
Theorem tagged_row_columns (sheet : string) (r : RawRow) :
  Cell.read (tag_row sheet r) "SheetSource" = CString sheet /\
  (forall k, k <> "SheetSource"%string ->
     Cell.read (tag_row sheet r) k = Cell.read r k /\
     JsObject.hasOwnProperty (tag_row sheet r) k = JsObject.hasOwnProperty r k) /\
  (forall mapping idx,
     StudentData.sheetName (normalize_row mapping (tag_row sheet r) idx)
     = sheet_label sheet).
Proof.
  split; [|split].
  - unfold Cell.read. rewrite get_tag_row, String.eqb_refl. reflexivity.
  - intros k Hk. unfold Cell.read, JsObject.hasOwnProperty. rewrite get_tag_row.
    destruct (String.eqb "SheetSource" k) eqn:E; [|split; reflexivity].
    apply String.eqb_eq in E. congruence.
  - intros mapping idx. unfold normalize_row.
    destruct (collect_components _ _). cbn [StudentData.sheetName].
    apply resolve_sheet_tag_row.
Qed.

Lemma tagged_row_columns_witness :
  Cell.read (tag_row "Term 1" quiz_row) "Quiz1" = Cell.read quiz_row "Quiz1" /\
  JsObject.hasOwnProperty (tag_row "Term 1" quiz_row) "Quiz1"
  = JsObject.hasOwnProperty quiz_row "Quiz1".
Proof.
  apply (proj1 (proj2 (tagged_row_columns "Term 1" quiz_row)) "Quiz1"%string).
  discriminate.
Defined.

(** ** The merged rows *)

Lemma fold_append {A B : Type} (g : A -> list B) (l : list A) :
  forall init : list B,
    fold_left (fun acc a => acc ++ g a) l init = init ++ flat_map g l.
Proof.
  induction l as [|a l IH]; intros init; cbn [fold_left flat_map].
  - now rewrite app_nil_r.
  - rewrite IH, app_assoc. reflexivity.
Qed.

Lemma merge_sheets_flat_map (data : JsObject.t (list RawRow)) (selected : list string) :
  merge_sheets data selected
  = flat_map (fun sheet => map (tag_row sheet) (rows_of data sheet)) selected.
Proof.
  unfold merge_sheets.
  exact (fold_append (fun sheet => map (tag_row sheet) (rows_of data sheet)) selected []).
Qed.

Lemma in_processStudents (mapping : ColumnMapping.t) (rows : list RawRow)
  (s : StudentData.t) :
  In s (processStudents mapping rows) ->
  exists row idx, In row rows /\ s = normalize_row mapping row idx.
Proof.
  unfold processStudents. rewrite filter_In, map_indexed_combine, in_map_iff.
  intros [([idx row] & <- & Hin) _]. exists row, idx. split; [|reflexivity].
  eapply in_combine_r, Hin.
Qed.

(** X9.  After a mapping is confirmed, every record comes from a row of a
    selected sheet: its [originalRow] is the tagged copy of that row, and its
    [sheetName] is that sheet (['Unknown'] for an empty sheet name).  A
    selected sheet that the data lacks contributes no record. *)
Theorem records_come_from_selected_sheets
  (mapping : ColumnMapping.t) (st : AppState.t) (s : StudentData.t) :
  In s (AppState.allStudents (onMappingConfirmed mapping st)) ->
  exists sheet r,
    In sheet (AppState.selectedSheetNames st) /\
    In r (rows_of (AppState.rawSheetData st) sheet) /\
    JsObject.hasOwnProperty (AppState.rawSheetData st) sheet = true /\
    StudentData.originalRow s = tag_row sheet r /\
    StudentData.sheetName s = sheet_label sheet.
Proof.
  cbn [onMappingConfirmed AppState.allStudents]. intros Hin.
  apply in_processStudents in Hin. destruct Hin as (row & idx & Hrow & ->).
  rewrite merge_sheets_flat_map in Hrow. apply in_flat_map in Hrow.
  destruct Hrow as (sheet & Hsel & Hrow). apply in_map_iff in Hrow.
  destruct Hrow as (r & <- & Hr). exists sheet, r. repeat split; auto.
  - unfold rows_of, JsObject.hasOwnProperty in *.
    destruct (JsObject.get (AppState.rawSheetData st) sheet); [reflexivity | destruct Hr].
  - unfold normalize_row. destruct (collect_components _ _). reflexivity.
  - unfold normalize_row. destruct (collect_components _ _).
    cbn [StudentData.sheetName]. apply resolve_sheet_tag_row.
Qed.

Lemma records_come_from_selected_sheets_witness :
  let st :=
    {| AppState.step := 3;
       AppState.rawSheetData := [("S1"%string, [quiz_row; nameless_row])];
       AppState.selectedSheetNames := ["S1"%string];
       AppState.allStudents := [];
       AppState.sheetFilter := "All";
       AppState.totalColName := "Overall Score";
       AppState.activeTab := dashboard |} in
  exists sheet r,
    In sheet (AppState.selectedSheetNames st) /\
    In r (rows_of (AppState.rawSheetData st) sheet) /\
    JsObject.hasOwnProperty (AppState.rawSheetData st) sheet = true /\
    StudentData.originalRow (normalize_row quiz_mapping (tag_row "S1" quiz_row) 0)
    = tag_row sheet r /\
    StudentData.sheetName (normalize_row quiz_mapping (tag_row "S1" quiz_row) 0)
    = sheet_label sheet.
Proof.
  intros st.
  apply (records_come_from_selected_sheets quiz_mapping st).
  vm_compute. left. reflexivity.
Defined.

(** ** The shape of a record *)

Lemma cleanVal_not_nan (c : cell) : Number.isNaN (cleanVal c) = false.
Proof.
  unfold cleanVal.
  destruct (Number.isNaN (JsString.parseFloat _)) eqn:E; [reflexivity | exact E].
Qed.

Lemma includes_existsb (l : list string) (k : string) :
  existsb (String.eqb k) l = JsArray.includes l k.
Proof.
  unfold JsArray.includes. induction l as [|c l IH]; [reflexivity|].
  cbn [existsb]. rewrite IH. f_equal. apply String.eqb_sym.
Qed.

(** X10.  In every record the normalizer builds, the percentage is the
    total score and the group is the classification of that score; the own
    properties of [components] are the mapped component columns, and none
    of the component values is NaN. *)
Theorem record_shape (mapping : ColumnMapping.t) (row : RawRow) (idx : nat) :
  let s := normalize_row mapping row idx in
  StudentData.percentage s = StudentData.totalScore s /\
  StudentData.group s = determineGroup (StudentData.percentage s) /\
  (forall k, JsObject.hasOwnProperty (StudentData.components s) k
             = JsArray.includes (ColumnMapping.componentCols mapping) k) /\
  (forall k, In k (JsObject.keys (StudentData.components s))
             <-> In k (ColumnMapping.componentCols mapping)) /\
  (forall k v, JsObject.get (StudentData.components s) k = Some v ->
               Number.isNaN v = false).
Proof.
  cbv zeta.
  assert (Hget : forall k,
             JsObject.get (StudentData.components (normalize_row mapping row idx)) k
             = if existsb (String.eqb k) (ColumnMapping.componentCols mapping)
               then Some (coerced (getSmartValue row k)) else None).
  { intros k. rewrite normalize_row_components. unfold collect_components.
    rewrite collect_get. reflexivity. }
  pose proof (fun k => includes_existsb (ColumnMapping.componentCols mapping) k)
    as Hinc.
  repeat split.
  - unfold normalize_row. destruct (collect_components _ _). reflexivity.
  - unfold normalize_row. destruct (collect_components _ _). reflexivity.
  - intros k. unfold JsObject.hasOwnProperty. rewrite Hget, <- Hinc.
    destruct (existsb _ _); reflexivity.
  - intros Hin. apply KeyFacts.keys_get in Hin.
    unfold JsObject.hasOwnProperty in Hin. rewrite Hget in Hin.
    destruct (existsb _ _) eqn:E; [|discriminate].
    apply existsb_exists in E. destruct E as (c & Hc & E).
    apply String.eqb_eq in E. now subst.
  - intros Hin. apply KeyFacts.keys_get.
    unfold JsObject.hasOwnProperty. rewrite Hget.
    replace (existsb _ _) with true; [reflexivity|].
    symmetry. apply existsb_exists. exists k. split; [exact Hin | apply String.eqb_refl].
  - intros k v. rewrite Hget.
    destruct (existsb _ _); [|discriminate].
    intros [= <-]. rewrite <- cleanVal_coerced. apply cleanVal_not_nan.
Qed.

Lemma record_shape_witness :
  In "Quiz2"%string
     (JsObject.keys (StudentData.components (normalize_row quiz_mapping quiz_row 0))).
Proof.
  apply (proj2 (proj1 (proj2 (proj2 (proj2 (record_shape quiz_mapping quiz_row 0))))
                  "Quiz2"%string)).
  cbn. auto.
Defined.

(** ** The record ids *)

Lemma hyphen_free_digits (d : Decimal.uint) :
  hyphen_free (NilEmpty.string_of_uint d) = true.
Proof. induction d; cbn; auto. Qed.

Lemma hyphen_free_of_nat (n : nat) : hyphen_free (JsString.of_nat n) = true.
Proof.
  unfold JsString.of_nat, JsString.of_N, NilZero.string_of_uint.
  destruct (N.to_uint (N.of_nat n)) eqn:E; try reflexivity;
    rewrite <- E; apply hyphen_free_digits.
Qed.

Lemma of_nat_inj (n m : nat) : JsString.of_nat n = JsString.of_nat m -> n = m.
Proof.
  unfold JsString.of_nat, JsString.of_N. intros H.
  assert (Hnil : forall k : N, N.to_uint k <> Decimal.Nil).
  { intros [|p]; [discriminate | apply DecimalPos.Unsigned.to_uint_nonnil]. }
  pose proof (NilZero.usu _ (Hnil (N.of_nat n))) as E1.
  pose proof (NilZero.usu _ (Hnil (N.of_nat m))) as E2.
  rewrite H, E2 in E1. injection E1 as E1.
  apply DecimalN.Unsigned.to_uint_inj in E1. now apply Nnat.Nat2N.inj.
Qed.

Lemma hyphen_free_app (a b : string) :
  hyphen_free (a ++ String "-" b) = false.
Proof.
  induction a as [|c a IH]; cbn [append hyphen_free]; [reflexivity|].
  rewrite IH. apply andb_false_r.
Qed.

(** Two strings that end in a hyphen followed by a hyphen-free part agree
    on that part when they are equal. *)
Lemma last_part (a b d1 d2 : string) :
  hyphen_free d1 = true -> hyphen_free d2 = true ->
  (a ++ String "-" d1)%string = (b ++ String "-" d2)%string -> d1 = d2.
Proof.
  intros H1 H2. revert b. induction a as [|c a IH]; intros [|c' b];
    cbn [append]; intros E.
  - now injection E.
  - injection E as _ E. rewrite E, hyphen_free_app in H1. discriminate.
  - injection E as _ E. rewrite <- E, hyphen_free_app in H2. discriminate.
  - injection E as _ E. now apply (IH b).
Qed.

Lemma string_app_assoc (a b c : string) :
  ((a ++ b) ++ c)%string = (a ++ (b ++ c))%string.
Proof. induction a as [|x a IH]; cbn [append]; [reflexivity | now rewrite IH]. Qed.

Lemma id_position (mapping : ColumnMapping.t) (r1 r2 : RawRow) (i j : nat) :
  StudentData.id (normalize_row mapping r1 i)
  = StudentData.id (normalize_row mapping r2 j) -> i = j.
Proof.
  unfold normalize_row.
  destruct (collect_components r1 _), (collect_components r2 _).
  cbn [StudentData.id]. intros E.
  apply of_nat_inj.
  apply (last_part ("s-" ++ resolve_sheet r1) ("s-" ++ resolve_sheet r2));
    try apply hyphen_free_of_nat.
  rewrite !string_app_assoc. exact E.
Qed.

Lemma NoDup_filter_indexed {A : Type} (p : nat * A -> bool) (l : list A) :
  forall start : nat,
    NoDup (map fst (filter p (combine (seq start (length l)) l))).
Proof.
  intros start.
  assert (H : forall (q : list (nat * A)),
             NoDup (map fst q) -> NoDup (map fst (filter p q))).
  { induction q as [|x q IH]; cbn [filter map]; [auto|].
    intros Hnd. inversion Hnd as [|? ? Hx Hq]; subst.
    destruct (p x); [|auto]. cbn [map]. constructor; [|auto].
    intros Hin. apply Hx. apply in_map_iff in Hin.
    destruct Hin as (y & Hy & Hin). apply filter_In in Hin.
    apply in_map_iff. exists y. tauto. }
  apply H.
  change (map fst (combine (seq start (length l)) l))
    with (map (fun ir : nat * A => (fun i : nat => i) (fst ir))
              (combine (seq start (length l)) l)).
  rewrite map_combine_fst by apply length_seq.
  rewrite map_id. apply seq_NoDup.
Qed.

(** X11.  The ids of the records are pairwise distinct, whatever the sheet
    names and the rows are: the position of the row in the merged sequence
    can be read back from the id. *)
Theorem record_ids_distinct (mapping : ColumnMapping.t) (rows : list RawRow) :
  NoDup (map StudentData.id (processStudents mapping rows)).
Proof.
  unfold processStudents.
  rewrite map_indexed_combine, filter_map_commute, map_map.
  set (kept := filter _ _).
  assert (Hnd : NoDup (map fst kept)) by apply NoDup_filter_indexed.
  induction kept as [|[i r] kept IH]; cbn [map]; [constructor|].
  inversion Hnd as [|? ? Hi Hk]; subst. constructor; [|auto].
  intros Hin. apply in_map_iff in Hin. destruct Hin as ([j r'] & E & Hin).
  cbn [fst snd] in *. apply id_position in E. subst j.
  apply Hi. apply in_map_iff. exists (i, r'). auto.
Qed.

(** ** The analysis does not read the identity of the students *)

Lemma count_map {A B : Type} (p : B -> bool) (g : A -> B) (l : list A) :
  count p (map g l) = count (fun a => p (g a)) l.
Proof. unfold count. now rewrite filter_map_commute, length_map. Qed.

Lemma summarize_without_id (students : list StudentData.t) :
  summarize (map without_id students) = summarize students.
Proof.
  unfold summarize. rewrite !map_map, !count_map. reflexivity.
Qed.

Lemma componentStat_without_id (students : list StudentData.t) (key : string) :
  componentStat (map without_id students) key = componentStat students key.
Proof.
  unfold componentStat. rewrite !map_map. reflexivity.
Qed.

Lemma performFullAnalysis_without_id (students : list StudentData.t) :
  performFullAnalysis (map without_id students) = performFullAnalysis students.
Proof.
  unfold performFullAnalysis.
  assert (Hk : componentKeys (map without_id students) = componentKeys students)
    by (destruct students; reflexivity).
  assert (Hs : map (componentStat (map without_id students))
                   (componentKeys (map without_id students))
               = map (componentStat students) (componentKeys students)).
  { rewrite Hk. apply map_ext. intros key. apply componentStat_without_id. }
  rewrite Hs, summarize_without_id. reflexivity.
Qed.

(** X12.  [performFullAnalysis] reads the percentages and the components
    of the students and nothing else: two student lists that agree on
    these, position by position, get the same summary, the same component
    statistics and the same strongest and weakest component. *)
Theorem analysis_reads_scores_only (s1 s2 : list StudentData.t) :
  map StudentData.percentage s1 = map StudentData.percentage s2 ->
  map StudentData.components s1 = map StudentData.components s2 ->
  performFullAnalysis s1 = performFullAnalysis s2.
Proof.
  intros Hp Hc.
  assert (Hcount : forall (p : num -> bool) (l : list StudentData.t),
             count (fun s => p (StudentData.percentage s)) l
             = count p (map StudentData.percentage l)).
  { intros p l. now rewrite count_map. }
  assert (Hsum : summarize s1 = summarize s2).
  { unfold summarize. rewrite Hp.
    rewrite !(Hcount (fun v => Number.ge v (Number.of_Z 60))).
    rewrite !(Hcount (fun v => Number.lt v (Number.of_Z 60))).
    rewrite !(Hcount (fun v => String.eqb (determineGrade v) "A")).
    rewrite !(Hcount (fun v => String.eqb (determineGrade v) "B")).
    rewrite !(Hcount (fun v => String.eqb (determineGrade v) "C")).
    rewrite !(Hcount (fun v => String.eqb (determineGrade v) "D")).
    rewrite !(Hcount (fun v => String.eqb (determineGrade v) "F")).
    rewrite Hp. reflexivity. }
  assert (Hk : componentKeys s1 = componentKeys s2).
  { destruct s1 as [|a1 r1], s2 as [|a2 r2]; try discriminate; [reflexivity|].
    cbn [map] in Hc. injection Hc as Hc _. cbn [componentKeys]. now rewrite Hc. }
  assert (Hstat : forall key, componentStat s1 key = componentStat s2 key).
  { intros key. unfold componentStat. rewrite Hp.
    assert (Hs : map (component_score key) s1 = map (component_score key) s2).
    { pose (read := fun c : JsObject.t num =>
                      match JsObject.get c key with
                      | Some v => v
                      | None => Number.NaN
                      end).
      transitivity (map read (map StudentData.components s1));
        [now rewrite map_map | rewrite Hc; now rewrite map_map]. }
    rewrite Hs. reflexivity. }
  unfold performFullAnalysis. rewrite Hsum, Hk.
  rewrite (map_ext _ _ Hstat). reflexivity.
Qed.

Lemma analysis_reads_scores_only_witness :
  performFullAnalysis (processStudents quiz_mapping [quiz_row])
  = performFullAnalysis (map without_id (processStudents quiz_mapping [quiz_row])).
Proof.
  apply analysis_reads_scores_only; reflexivity.
Defined.

(** ** The sheet filter *)

Lemma without_id_position (mapping : ColumnMapping.t) (r : RawRow) (i j : nat) :
  without_id (normalize_row mapping r i) = without_id (normalize_row mapping r j).
Proof.
  unfold normalize_row. destruct (collect_components _ _). reflexivity.
Qed.

Lemma processStudents_without_id (mapping : ColumnMapping.t) (rows : list RawRow) :
  map without_id (processStudents mapping rows)
  = map (fun r => without_id (normalize_row mapping r 0))
        (filter (named mapping) rows).
Proof.
  unfold processStudents. generalize 0%nat at 1.
  induction rows as [|r rows IH]; intros start; [reflexivity|].
  cbn [map_indexed filter]. rewrite has_valid_name_named.
  destruct (named mapping r); cbn [map]; rewrite IH; [|reflexivity].
  now rewrite (without_id_position mapping r start 0).
Qed.

Lemma filter_map_commute_id (sheet : string) (l : list StudentData.t) :
  map without_id
      (filter (fun s => String.eqb (StudentData.sheetName s) sheet) l)
  = filter (fun s => String.eqb (StudentData.sheetName s) sheet)
           (map without_id l).
Proof. now rewrite filter_map_commute. Qed.

Lemma filter_comm {A : Type} (p q : A -> bool) (l : list A) :
  filter p (filter q l) = filter q (filter p l).
Proof.
  induction l as [|x l IH]; [reflexivity|]. cbn [filter].
  destruct (p x) eqn:P, (q x) eqn:Q; cbn [filter]; rewrite ?P, ?Q, IH; reflexivity.
Qed.

Lemma filter_tagged (p : RawRow -> bool) (b : bool) (sheet : string)
  (rows : list RawRow) :
  (forall r, p (tag_row sheet r) = b) ->
  filter p (map (tag_row sheet) rows) = if b then map (tag_row sheet) rows else [].
Proof.
  intros H. induction rows as [|r rows IH]; cbn [map filter].
  - destruct b; reflexivity.
  - rewrite H, IH. destruct b; reflexivity.
Qed.

Lemma filter_merged (data : JsObject.t (list RawRow)) (sheet : string)
  (selected : list string) :
  filter (fun r => String.eqb (resolve_sheet r) sheet) (merge_sheets data selected)
  = merge_sheets data
      (filter (fun s => String.eqb (sheet_label s) sheet) selected).
Proof.
  rewrite !merge_sheets_flat_map.
  induction selected as [|s selected IH]; [reflexivity|].
  cbn [flat_map filter]. rewrite filter_app, IH.
  rewrite (filter_tagged _ (String.eqb (sheet_label s) sheet))
    by (intros r; now rewrite resolve_sheet_tag_row).
  destruct (String.eqb (sheet_label s) sheet); reflexivity.
Qed.

Lemma filter_only (sheet : string) (selected : list string) :
  NoDup selected -> In sheet selected -> ~ In ""%string selected ->
  filter (fun s => String.eqb (sheet_label s) sheet) selected = [sheet].
Proof.
  intros Hnd Hin Hne.
  assert (Hlabel : forall s, In s selected -> sheet_label s = s).
  { intros [|c s] Hs; [contradiction | reflexivity]. }
  induction Hnd as [|s selected Hs Hnd IH]; [destruct Hin|].
  cbn [filter]. rewrite (Hlabel s) by (now left).
  assert (Hrest : forall l, ~ In sheet l -> (forall x, In x l -> sheet_label x = x) ->
                            filter (fun s => String.eqb (sheet_label s) sheet) l = []).
  { induction l as [|x l IHl]; intros Hx Hl; [reflexivity|].
    cbn [filter]. rewrite (Hl x) by (now left).
    destruct (String.eqb x sheet) eqn:E.
    - apply String.eqb_eq in E. subst. exfalso. apply Hx. now left.
    - apply IHl; [intros H; apply Hx; now right | intros y Hy; apply Hl; now right]. }
  destruct (String.eqb s sheet) eqn:E.
  - apply String.eqb_eq in E. subst s. rewrite Hrest; auto.
    intros x Hx. apply Hlabel. now right.
  - apply String.eqb_neq in E. destruct Hin as [Hin | Hin]; [contradiction|].
    apply IH; auto.
    + intros H. apply Hne. now right.
    + intros x Hx. apply Hlabel. now right.
Qed.

Lemma displayed_analysis (st : AppState.t) :
  option_map displayed (analysis st)
  = match filteredStudents st with
    | [] => None
    | students => Some (performFullAnalysis students)
    end.
Proof.
  unfold analysis. destruct (filteredStudents st) as [|s l]; [reflexivity|].
  reflexivity.
Qed.

(** X13.  Choosing a sheet in the filter shows what confirming the mapping
    with that sheet alone selected would show: the records kept by the
    filter are those records, up to their ids, and the analysis displayed
    is the same.  The sheet is one of the selected sheets, which are
    pairwise distinct and none of which has the empty name; it is not
    called ['All'], the value that stands for no filter. *)
Theorem sheet_filter_is_single_sheet
  (mapping : ColumnMapping.t) (st : AppState.t) (sheet : string) :
  NoDup (AppState.selectedSheetNames st) ->
  In sheet (AppState.selectedSheetNames st) ->
  ~ In ""%string (AppState.selectedSheetNames st) ->
  sheet <> "All"%string ->
  map without_id (filteredStudents (filtered_by sheet mapping st))
  = map without_id (filteredStudents (only_sheet sheet mapping st)) /\
  option_map displayed (analysis (filtered_by sheet mapping st))
  = option_map displayed (analysis (only_sheet sheet mapping st)).
Proof.
  intros Hnd Hin Hne Hall.
  assert (E : map without_id (filteredStudents (filtered_by sheet mapping st))
              = map without_id (filteredStudents (only_sheet sheet mapping st))).
  { unfold filteredStudents, filtered_by, only_sheet.
    cbn [setSheetFilter onMappingConfirmed onSheetsConfirmed
         AppState.sheetFilter AppState.allStudents AppState.rawSheetData
         AppState.selectedSheetNames].
    apply String.eqb_neq in Hall. rewrite Hall.
    change (String.eqb "All" "All") with true. cbv iota.
    rewrite filter_map_commute_id.
    rewrite !processStudents_without_id.
    rewrite filter_map_commute.
    f_equal.
    rewrite filter_ext with
      (g := fun r => String.eqb (resolve_sheet r) sheet).
    2:{ intros r. unfold normalize_row. destruct (collect_components _ _).
        reflexivity. }
    rewrite filter_comm, filter_merged, filter_only by assumption.
    reflexivity. }
  split; [exact E|].
  rewrite !displayed_analysis.
  destruct (filteredStudents (filtered_by sheet mapping st)) as [|a l],
           (filteredStudents (only_sheet sheet mapping st)) as [|b m];
    try discriminate; [reflexivity|].
  f_equal.
  rewrite <- (performFullAnalysis_without_id (a :: l)), E.
  apply performFullAnalysis_without_id.
Qed.

Lemma sheet_filter_is_single_sheet_witness :
  map without_id (filteredStudents (filtered_by "S2" final_mapping two_sheets))
  = map without_id (filteredStudents (only_sheet "S2" final_mapping two_sheets)) /\
  option_map displayed (analysis (filtered_by "S2" final_mapping two_sheets))
  = option_map displayed (analysis (only_sheet "S2" final_mapping two_sheets)).
Proof.
  apply (sheet_filter_is_single_sheet final_mapping two_sheets "S2"%string).
  - repeat constructor; cbn; intuition discriminate.
  - cbn. auto.
  - cbn. intuition discriminate.
  - discriminate.
Defined.

(** ** The sheet selection *)

Lemma includes_In (l : list string) (x : string) :
  JsArray.includes l x = true <-> In x l.
Proof.
  unfold JsArray.includes. rewrite existsb_exists. split.
  - intros (s & Hs & E). apply String.eqb_eq in E. now subst.
  - intros H. exists x. split; [exact H | apply String.eqb_refl].
Qed.

Lemma includes_false (l : list string) (x : string) :
  JsArray.includes l x = false <-> ~ In x l.
Proof.
  rewrite <- includes_In. destruct (JsArray.includes l x); split; congruence.
Qed.

Lemma filter_absent (l : list string) (x : string) :
  ~ In x l -> filter (fun s => negb (String.eqb s x)) l = l.
Proof.
  induction l as [|y l IH]; [reflexivity|]. cbn [In filter]. intros H.
  destruct (String.eqb y x) eqn:E.
  - apply String.eqb_eq in E. tauto.
  - cbn [negb]. rewrite IH by tauto. reflexivity.
Qed.

Lemma NoDup_filter {A : Type} (p : A -> bool) (l : list A) :
  NoDup l -> NoDup (filter p l).
Proof.
  induction 1 as [|x l Hx Hnd IH]; cbn [filter]; [constructor|].
  destruct (p x); [|exact IH]. constructor; [|exact IH].
  rewrite filter_In. tauto.
Qed.

(** X14.  A click on a sheet flips the membership of that sheet in the
    selection and of no other; the sheets that stay keep their order, no
    sheet is ever listed twice, and clicking twice on a sheet that was not
    selected restores the selection. *)
Theorem toggleSheet_flips (sheet : string) (prev : list string) :
  JsArray.includes (SheetSelector.toggleSheet sheet prev) sheet
  = negb (JsArray.includes prev sheet) /\
  (forall other, other <> sheet ->
     JsArray.includes (SheetSelector.toggleSheet sheet prev) other
     = JsArray.includes prev other) /\
  filter (fun s => negb (String.eqb s sheet)) (SheetSelector.toggleSheet sheet prev)
  = filter (fun s => negb (String.eqb s sheet)) prev /\
  (NoDup prev -> NoDup (SheetSelector.toggleSheet sheet prev)) /\
  (JsArray.includes prev sheet = false ->
   SheetSelector.toggleSheet sheet (SheetSelector.toggleSheet sheet prev) = prev).
Proof.
  assert (Hrem : ~ In sheet (filter (fun s => negb (String.eqb s sheet)) prev)).
  { rewrite filter_In. intros [_ H]. now rewrite String.eqb_refl in H. }
  assert (Hfilter_snoc :
            filter (fun s => negb (String.eqb s sheet)) (prev ++ [sheet])
            = filter (fun s => negb (String.eqb s sheet)) prev).
  { rewrite filter_app. cbn [filter]. rewrite String.eqb_refl. cbn [negb].
    apply app_nil_r. }
  unfold SheetSelector.toggleSheet.
  destruct (JsArray.includes prev sheet) eqn:E; cbn [negb].
  - apply includes_In in E. repeat split.
    + now apply includes_false.
    + intros other Hne.
      destruct (JsArray.includes prev other) eqn:Eo.
      * apply includes_In. apply includes_In in Eo. rewrite filter_In. split; [exact Eo|].
        apply negb_true_iff, String.eqb_neq. exact Hne.
      * apply includes_false. apply includes_false in Eo. rewrite filter_In. tauto.
    + now rewrite filter_absent by exact Hrem.
    + apply NoDup_filter.
    + discriminate.
  - apply includes_false in E. repeat split.
    + apply includes_In, in_or_app. right. now left.
    + intros other Hne.
      destruct (JsArray.includes prev other) eqn:Eo.
      * apply includes_In. apply includes_In in Eo. apply in_or_app. now left.
      * apply includes_false. apply includes_false in Eo. intros H.
        apply in_app_or in H. destruct H as [H | [H | []]]; [tauto | congruence].
    + exact Hfilter_snoc.
    + intros Hnd. apply NoDup_app; [exact Hnd | repeat constructor; intros [] |].
      intros x Hx [<- | []]. contradiction.
    + intros _.
      replace (JsArray.includes (prev ++ [sheet]) sheet) with true
        by (symmetry; apply includes_In, in_or_app; right; now left).
      rewrite Hfilter_snoc. now apply filter_absent.
Qed.

Lemma toggleSheet_flips_witness :
  JsArray.includes (SheetSelector.toggleSheet "S1" ["S1"; "S2"]%string) "S2"
  = JsArray.includes ["S1"; "S2"]%string "S2" /\
  NoDup (SheetSelector.toggleSheet "S1" ["S1"; "S2"]%string) /\
  SheetSelector.toggleSheet "S3"
    (SheetSelector.toggleSheet "S3" ["S1"; "S2"]%string) = ["S1"; "S2"]%string.
Proof.
  pose proof (toggleSheet_flips "S1" ["S1"; "S2"]%string) as (_ & H1 & _ & H2 & _).
  pose proof (toggleSheet_flips "S3" ["S1"; "S2"]%string) as (_ & _ & _ & _ & H3).
  split; [apply H1; discriminate | split].
  - apply H2. repeat constructor; cbn; intuition discriminate.
  - apply H3. reflexivity.
Defined.

(** ** The headers offered for mapping *)



(** ** The column mapper *)



Lemma in_filteredStudents (st : AppState.t) (s : StudentData.t) :
  In s (filteredStudents st) -> In s (AppState.allStudents st).
Proof.
  unfold filteredStudents.
  destruct (String.eqb (AppState.sheetFilter st) "All"); [auto|].
  rewrite filter_In. tauto.
Qed.



(** ** Students by group *)

Lemma tally_fold {A : Type} (key : A -> string) (l : list A) :
  forall (acc : JsObject.t nat) (k : string),
    tallied
      (fold_left
         (fun acc x =>
            JsObject.set acc (key x)
              (S (match JsObject.get acc (key x) with Some c => c | None => O end)))
         l acc) k
    = (tallied acc k + count (fun x => String.eqb (key x) k) l)%nat.
Proof.
  induction l as [|x l IH]; intros acc k; cbn [fold_left].
  - unfold count. cbn. lia.
  - rewrite IH, tallied_set, count_cons. fold (tallied acc (key x)).
    destruct (String.eqb (key x) k) eqn:E; cbn [Nat.b2n]; [|lia].
    apply String.eqb_eq in E. subst k. lia.
Qed.

Lemma group_label_eqb (g h : StudentPerformanceGroup) :
  String.eqb (group_label g) (group_label h) = StudentPerformanceGroup_eqb g h.
Proof. destruct g, h; reflexivity. Qed.

Lemma count_ext {A : Type} (p q : A -> bool) (l : list A) :
  (forall x, p x = q x) -> count p l = count q l.
Proof. intros H. unfold count. now rewrite (filter_ext _ _ H). Qed.

Lemma groupCounts_tally (students : list StudentData.t) (g : StudentPerformanceGroup) :
  tallied (ChartsPanel.groupCounts students) (group_label g)
  = count (fun s => StudentPerformanceGroup_eqb (StudentData.group s) g) students.
Proof.
  unfold ChartsPanel.groupCounts.
  rewrite (tally_fold (fun s => group_label (StudentData.group s)) students [] _).
  cbn [tallied JsObject.get]. apply count_ext. intros s. apply group_label_eqb.
Qed.

(** X18.  The dashboard and the student list count the students of each
    group alike: the values of [groupData], which come from a tally object
    keyed by the group labels, are the five counts of the student list, in
    the order of the groups, and these add up to the number of students. *)
Theorem group_counts_agree (students : list StudentData.t) :
  let c := StudentTable.counts students in
  ChartsPanel.groupData students
  = [("High Achiever"%string, StudentTable.Counts.high c);
     ("Above Average"%string, StudentTable.Counts.aboveAvg c);
     ("Average"%string, StudentTable.Counts.average c);
     ("Below Average"%string, StudentTable.Counts.belowAvg c);
     ("At Risk"%string, StudentTable.Counts.atRisk c)] /\
  (StudentTable.Counts.high c + StudentTable.Counts.aboveAvg c
   + StudentTable.Counts.average c + StudentTable.Counts.belowAvg c
   + StudentTable.Counts.atRisk c = StudentTable.Counts.total c)%nat.
Proof.
  cbv zeta. split.
  - unfold ChartsPanel.groupData, StudentPerformanceGroup_values. cbn [map].
    repeat match goal with
           | |- context [match JsObject.get (ChartsPanel.groupCounts students)
                                 (group_label ?g) with Some c => c | None => O end] =>
               change (match JsObject.get (ChartsPanel.groupCounts students)
                             (group_label g) with Some c => c | None => O end)
                 with (tallied (ChartsPanel.groupCounts students) (group_label g));
               rewrite (groupCounts_tally students g)
           end.
    reflexivity.
  - unfold StudentTable.counts.
    cbn [StudentTable.Counts.high StudentTable.Counts.aboveAvg
         StudentTable.Counts.average StudentTable.Counts.belowAvg
         StudentTable.Counts.atRisk StudentTable.Counts.total].
    induction students as [|s l IH]; [reflexivity|].
    rewrite !count_cons. cbn [length].
    destruct (StudentData.group s); cbn [StudentPerformanceGroup_eqb Nat.b2n]; lia.
Qed.

(** ** Groups and grades *)

Lemma group_of_percentage (p : num) :
  StudentPerformanceGroup_eqb (determineGroup p) HighAchiever
  = Number.ge p (Number.of_Z 90) /\
  (Nat.b2n (Number.ge p (Number.of_Z 60))
   = Nat.b2n (StudentPerformanceGroup_eqb (determineGroup p) HighAchiever)
     + Nat.b2n (StudentPerformanceGroup_eqb (determineGroup p) AboveAverage)
     + Nat.b2n (StudentPerformanceGroup_eqb (determineGroup p) Average))%nat /\
  (Nat.b2n (StudentPerformanceGroup_eqb (determineGroup p) BelowAverage)
   + Nat.b2n (StudentPerformanceGroup_eqb (determineGroup p) AtRisk)
   + Nat.b2n (Number.ge p (Number.of_Z 60)) = 1)%nat.
Proof.
  assert (H9 : Number.ge p (Number.of_Z 90) = true -> Number.ge p (Number.of_Z 60) = true).
  { intros H. exact (OrderFacts.ge_trans p _ (Number.of_Z 60) H eq_refl). }
  assert (H7 : Number.ge p (Number.of_Z 75) = true -> Number.ge p (Number.of_Z 60) = true).
  { intros H. exact (OrderFacts.ge_trans p _ (Number.of_Z 60) H eq_refl). }
  unfold determineGroup.
  destruct (Number.ge p (Number.of_Z 90)); [rewrite H9 by reflexivity; auto|].
  destruct (Number.ge p (Number.of_Z 75)); [rewrite H7 by reflexivity; auto|].
  destruct (Number.ge p (Number.of_Z 60)); [auto|].
  destruct (Number.ge p (Number.of_Z 50)); auto.
Qed.

Lemma shown_by_normalizer (filter : string) (mapping : ColumnMapping.t)
  (st : AppState.t) (s : StudentData.t) :
  In s (filteredStudents (filtered_by filter mapping st)) ->
  exists row idx, s = normalize_row mapping row idx.
Proof.
  intros Hin. apply in_filteredStudents in Hin.
  cbn [filtered_by setSheetFilter onMappingConfirmed AppState.allStudents] in Hin.
  apply in_processStudents in Hin. destruct Hin as (row & idx & _ & ->). eauto.
Qed.

(** X19.  For the students shown after a mapping is confirmed, under any
    sheet filter, the cards of the student list and the summary of the
    dashboard agree: the students in the three upper groups are the
    passing students, the High Achievers are the students graded A, and
    the students in the two lower groups are those graded F, the failing
    students together with those whose percentage is NaN. *)
Theorem table_counts_match_summary
  (filter : string) (mapping : ColumnMapping.t) (st : AppState.t) :
  let students := filteredStudents (filtered_by filter mapping st) in
  let c := StudentTable.counts students in
  let s := AnalysisResult.summary (performFullAnalysis students) in
  (StudentTable.Counts.high c + StudentTable.Counts.aboveAvg c
   + StudentTable.Counts.average c = AnalysisSummary.passCount s)%nat /\
  StudentTable.Counts.high c = GradeDist.A (AnalysisSummary.gradeDist s) /\
  (StudentTable.Counts.belowAvg c + StudentTable.Counts.atRisk c
   = GradeDist.F (AnalysisSummary.gradeDist s))%nat /\
  (StudentTable.Counts.belowAvg c + StudentTable.Counts.atRisk c
   = AnalysisSummary.failCount s + nanCount students)%nat.
Proof.
  cbv zeta.
  assert (Hall : Forall (fun s => StudentData.group s
                                  = determineGroup (StudentData.percentage s))
                        (filteredStudents (filtered_by filter mapping st))).
  { apply Forall_forall. intros s Hin.
    destruct (shown_by_normalizer _ _ _ _ Hin) as (row & idx & ->).
    unfold normalize_row. destruct (collect_components _ _). reflexivity. }
  induction Hall as [|s l Hs Hl IH].
  - repeat split.
  - unfold performFullAnalysis, summarize, StudentTable.counts, nanCount in *.
    cbn [AnalysisResult.summary AnalysisSummary.passCount AnalysisSummary.failCount
         AnalysisSummary.gradeDist GradeDist.A GradeDist.F
         StudentTable.Counts.high StudentTable.Counts.aboveAvg
         StudentTable.Counts.average StudentTable.Counts.belowAvg
         StudentTable.Counts.atRisk] in *.
    rewrite !count_cons. rewrite Hs.
    destruct (group_of_percentage (StudentData.percentage s)) as (Hhigh & Hpass & Hlow).
    pose proof (grade_pass (StudentData.percentage s)) as (Hone & Hgp & Hgf).
    cbv zeta in Hone, Hgp, Hgf.
    assert (HA : String.eqb (determineGrade (StudentData.percentage s)) "A"
                 = Number.ge (StudentData.percentage s) (Number.of_Z 90)).
    { unfold determineGrade.
      destruct (Number.ge (StudentData.percentage s) (Number.of_Z 90)); [reflexivity|].
      repeat match goal with |- context [if ?b then _ else _] => destruct b end;
        reflexivity. }
    rewrite HA, <- Hhigh in *.
    destruct IH as (I1 & I2 & I3 & I4).
    repeat split; lia.
Qed.

(** ** The correlation of the chart *)

(** X20.  With a component on one axis and the total on the other, the
    coefficient the correlation chart displays is the correlation with the
    total that the analysis holds for that component, whichever axis the
    component is on; the component is any component of the analysis whose
    name is not the name of the total column. *)
Theorem chart_correlation_is_component_correlation
  (filter : string) (mapping : ColumnMapping.t) (st : AppState.t)
  (a : FullAnalysis.t) (c : ComponentStat.t) :
  let st' := filtered_by filter mapping st in
  let total := AppState.totalColName st' in
  analysis st' = Some a ->
  In c (FullAnalysis.componentStats a) ->
  ComponentStat.name c <> total ->
  ChartsPanel.correlationValue total (FullAnalysis.students a)
    {| ChartsPanel.scatterX := ComponentStat.name c; ChartsPanel.scatterY := total |}
  = ComponentStat.correlationWithTotal c /\
  ChartsPanel.correlationValue total (FullAnalysis.students a)
    {| ChartsPanel.scatterX := total; ChartsPanel.scatterY := ComponentStat.name c |}
  = ComponentStat.correlationWithTotal c.
Proof.
  cbv zeta. intros Ha Hc Hname.
  set (st' := filtered_by filter mapping st) in *.
  set (total := AppState.totalColName st') in *.
  unfold analysis in Ha.
  destruct (filteredStudents st') as [|s0 rest] eqn:E; [discriminate|].
  injection Ha as <-. cbn [FullAnalysis.students FullAnalysis.componentStats] in *.
  cbn [performFullAnalysis AnalysisResult.componentStats] in Hc.
  apply in_map_iff in Hc. destruct Hc as (key & <- & Hkey).
  cbn [componentStat ComponentStat.name ComponentStat.correlationWithTotal] in *.
  assert (Hfrom : forall s, In s (s0 :: rest) ->
                            exists row idx, s = normalize_row mapping row idx).
  { intros s Hs. rewrite <- E in Hs. eapply shown_by_normalizer, Hs. }
  assert (Hcol : In key (ColumnMapping.componentCols mapping)).
  { destruct (Hfrom s0 (or_introl eq_refl)) as (row & idx & ->).
    cbn [componentKeys] in Hkey. apply KeyFacts.in_keys, KeyFacts.get_in in Hkey.
    rewrite normalize_row_components in Hkey. unfold collect_components in Hkey.
    rewrite collect_get in Hkey.
    destruct (existsb _ _) eqn:Ex; [|cbn in Hkey; congruence].
    apply existsb_exists in Ex. destruct Ex as (k & Hk & Ek).
    apply String.eqb_eq in Ek. now subst. }
  assert (Hx : map (fun s => ChartsPanel.getStudentValue total s key) (s0 :: rest)
               = map (component_score key) (s0 :: rest)).
  { apply map_ext_in. intros s Hs. destruct (Hfrom s Hs) as (row & idx & ->).
    unfold ChartsPanel.getStudentValue, component_score.
    apply String.eqb_neq in Hname. rewrite Hname.
    rewrite normalize_row_components. unfold collect_components. rewrite collect_get.
    replace (existsb (String.eqb key) (ColumnMapping.componentCols mapping)) with true;
      [reflexivity|].
    symmetry. apply existsb_exists. exists key. split; [exact Hcol | apply String.eqb_refl]. }
  assert (Hy : map (fun s => ChartsPanel.getStudentValue total s total) (s0 :: rest)
               = map StudentData.percentage (s0 :: rest)).
  { apply map_ext_in. intros s Hs. destruct (Hfrom s Hs) as (row & idx & ->).
    unfold ChartsPanel.getStudentValue. rewrite String.eqb_refl.
    unfold normalize_row. destruct (collect_components _ _). reflexivity. }
  unfold ChartsPanel.correlationValue, ChartsPanel.scatterData.
  rewrite !map_map.
  cbn [ChartsPanel.Point.x ChartsPanel.Point.y ChartsPanel.scatterX ChartsPanel.scatterY].
  rewrite Hx, Hy. split; [reflexivity|].
  apply calculateCorrelation_exchange.
Qed.

Lemma chart_correlation_is_component_correlation_witness :
  let st' := filtered_by "All" quiz_mapping two_sheets in
  let students := filteredStudents st' in
  let a :=
    {| FullAnalysis.summary := AnalysisResult.summary (performFullAnalysis students);
       FullAnalysis.students := students;
       FullAnalysis.componentStats :=
         AnalysisResult.componentStats (performFullAnalysis students);
       FullAnalysis.strongestComponent :=
         AnalysisResult.strongestComponent (performFullAnalysis students);
       FullAnalysis.weakestComponent :=
         AnalysisResult.weakestComponent (performFullAnalysis students) |} in
  let c := componentStat students "Quiz1" in
  ChartsPanel.correlationValue (AppState.totalColName st') (FullAnalysis.students a)
    {| ChartsPanel.scatterX := ComponentStat.name c;
       ChartsPanel.scatterY := AppState.totalColName st' |}
  = ComponentStat.correlationWithTotal c.
Proof.
  intros st' students a c.
  assert (Ha : analysis st' = Some a) by (vm_compute; reflexivity).
  assert (Hc : In c (FullAnalysis.componentStats a)) by (vm_compute; left; reflexivity).
  assert (Hn : ComponentStat.name c <> AppState.totalColName st')
    by (vm_compute; discriminate).
  exact (proj1 (chart_correlation_is_component_correlation
                  "All" quiz_mapping two_sheets a c Ha Hc Hn)).
Defined.

(** ** The top performers *)

(** X21.  The top performers are the first five students of the list
    sorted by descending total score, or all of them when there are fewer:
    with the students left out behind them they form a rearrangement of the
    students in descending order of total, so no student left out has a
    higher total than a top performer, and students with equal totals stay
    in their original order.  The totals are numbers. *)
Theorem topPerformers_best (students : list StudentData.t) :
  Forall (scored StudentData.totalScore) students ->
  let top := StudentTable.topPerformers students in
  length top = Nat.min 5 (length students) /\
  exists rest,
    Permutation students (top ++ rest) /\
    sorted_descending StudentData.totalScore (top ++ rest) /\
    (forall c, scored StudentData.totalScore c ->
       filter (tied StudentData.totalScore c) (top ++ rest)
       = filter (tied StudentData.totalScore c) students).
Proof.
  intros Hall. cbv zeta. unfold StudentTable.topPerformers.
  change (fun a b : StudentData.t =>
            Number.sub (StudentData.totalScore b) (StudentData.totalScore a))
    with (descending StudentData.totalScore).
  set (sorted := JsArray.sort (descending StudentData.totalScore) students).
  split.
  - rewrite length_firstn. f_equal. symmetry.
    apply Permutation_length, sort_permutation.
  - exists (skipn 5 sorted). rewrite firstn_skipn. repeat split.
    + apply sort_permutation.
    + apply sort_sorted, Hall.
    + intros c Hc. apply sort_stable; assumption.
Qed.

Lemma topPerformers_best_witness :
  let students := processStudents quiz_mapping [quiz_row; final_row] in
  let top := StudentTable.topPerformers students in
  length top = Nat.min 5 (length students) /\
  exists rest,
    Permutation students (top ++ rest) /\
    sorted_descending StudentData.totalScore (top ++ rest) /\
    (forall c, scored StudentData.totalScore c ->
       filter (tied StudentData.totalScore c) (top ++ rest)
       = filter (tied StudentData.totalScore c) students).
Proof.
  apply (topPerformers_best (processStudents quiz_mapping [quiz_row; final_row])).
  repeat constructor.
Defined.

(** ** Colours and badges *)

(** X22.  The colour of a score tells the five bands apart exactly as the
    groups do, but the badge of a group does not: the label of Below
    Average contains the word Average, so a Below Average student gets the
    badge of an Average one, and the amber badge written for Below is given
    to no group. *)
Theorem badge_of_below_average :
  (forall p q, StudentTable.getScoreColor p = StudentTable.getScoreColor q
               <-> determineGroup p = determineGroup q) /\
  (forall g, StudentTable.getGroupBadgeStyle (group_label g) <> amber_badge) /\
  StudentTable.getGroupBadgeStyle (group_label BelowAverage)
  = StudentTable.getGroupBadgeStyle (group_label Average) /\
  (forall g h,
     StudentTable.getGroupBadgeStyle (group_label g)
     = StudentTable.getGroupBadgeStyle (group_label h) ->
     g = h \/ (g = Average /\ h = BelowAverage) \/ (g = BelowAverage /\ h = Average)).
Proof.
  repeat split.
  - unfold StudentTable.getScoreColor, determineGroup.
    repeat match goal with |- context [if ?b then _ else _] => destruct b end;
      solve [reflexivity | discriminate].
  - unfold StudentTable.getScoreColor, determineGroup.
    repeat match goal with |- context [if ?b then _ else _] => destruct b end;
      solve [reflexivity | discriminate].
  - intros g. destruct g; vm_compute; discriminate.
  - intros g h. destruct g, h; vm_compute; intros E;
      solve [discriminate E | auto].
Qed.

Lemma badge_of_below_average_witness :
  Average = BelowAverage
  \/ (Average = Average /\ BelowAverage = BelowAverage)
  \/ (Average = BelowAverage /\ BelowAverage = Average).
Proof.
  apply (proj2 (proj2 (proj2 badge_of_below_average)) Average BelowAverage).
  reflexivity.
Defined.

(** ** The axes of the correlation chart *)

(** X23.  One run of the effect that validates the axes settles them: both
    axes are then keys of the analysis, the total or a component, and a
    further run changes nothing. *)
Theorem validate_axes_settles
  (totalScoreName : string) (keys : list string) (a : ChartsPanel.axes) :
  let a' := ChartsPanel.validate_axes totalScoreName keys a in
  In (ChartsPanel.scatterX a') (totalScoreName :: keys) /\
  In (ChartsPanel.scatterY a') (totalScoreName :: keys) /\
  ChartsPanel.validate_axes totalScoreName keys a' = a'.
Proof.
  cbv zeta. unfold ChartsPanel.validate_axes.
  cbn [ChartsPanel.scatterX ChartsPanel.scatterY].
  set (valid := fun v : string =>
                  JsString.truthy v && JsArray.includes (totalScoreName :: keys) v).
  set (dx := match keys with k :: _ => k | [] => totalScoreName end).
  assert (Hdx : In dx (totalScoreName :: keys)).
  { subst dx. destruct keys; cbn; auto. }
  assert (Hvalid : forall v, valid v = true -> In v (totalScoreName :: keys)).
  { intros v H. apply andb_prop in H. now apply includes_In. }
  change (JsString.truthy (ChartsPanel.scatterX a)
          && JsArray.includes (totalScoreName :: keys) (ChartsPanel.scatterX a))
    with (valid (ChartsPanel.scatterX a)).
  change (JsString.truthy (ChartsPanel.scatterY a)
          && JsArray.includes (totalScoreName :: keys) (ChartsPanel.scatterY a))
    with (valid (ChartsPanel.scatterY a)).
  destruct (valid (ChartsPanel.scatterX a)) eqn:Ex,
           (valid (ChartsPanel.scatterY a)) eqn:Ey; cbn [negb];
    repeat split; auto; try (now left);
    repeat match goal with
           | |- context [JsString.truthy ?v && JsArray.includes _ ?v] =>
               change (JsString.truthy v && JsArray.includes (totalScoreName :: keys) v)
                 with (valid v)
           end;
    rewrite ?Ex, ?Ey; cbn [negb];
    destruct (valid dx), (valid totalScoreName); reflexivity.
Qed.
